(** * Sales analyzer: a shallow embedding of [sales_analyzer] and its verification

    The Python package works on a pandas [DataFrame].  The embedding keeps
    pandas' column-oriented layout: a frame is an ordered list of named
    series, a series is a dtype and a list of cells.  Numbers are exact
    rationals ([Qc]); IEEE rounding of float64 is outside the model, the
    special values that pandas produces from finite inputs (NaN, +inf, -inf)
    are modelled where the code can produce them ([fval]).  Printing is a log
    of messages, exceptions are an explicit result type, and the methods of
    [SalesAnalyzer] that assign to [self.df] return the new frame.

    Conventions of the embedding:
    - a table is a loaded frame: the tests [self.df is None] and
      [df is None] at the head of the methods are not part of it;
    - [df[col].fillna(v, inplace=True)] takes effect on the frame, as it
      does in pandas without copy-on-write;
    - aggregated columns ([total_amount], [quantity]) hold numbers or
      missing cells; a cell that is no number adds nothing to a sum;
    - what is handed to the Excel writer is recorded sheet by sheet, the
      writing itself and the charts are outside. *)

From Stdlib Require Import List String Ascii ZArith QArith Qcanon Bool Lia Arith.
From Stdlib Require Import Sorted Permutation RelationClasses.
From Stdlib Require Import Floats.
From Stdlib Require OrdersEx.
Import ListNotations.

Set Implicit Arguments.
Local Open Scope string_scope.
Local Open Scope nat_scope.
Local Open Scope list_scope.

(* ================================================================== *)
(** ** Total orders given by a three-way comparison *)

(** pandas sorts group keys and modes; every key type it meets here
    (numbers, strings, timestamps, periods) is totally ordered. *)
Class Ordered (A : Type) := {
  cmp : A -> A -> comparison;
  cmp_eq : forall a b, cmp a b = Eq <-> a = b;
  cmp_antisym : forall a b, cmp b a = CompOpp (cmp a b);
  cmp_trans : forall a b c, cmp a b = Lt -> cmp b c = Lt -> cmp a c = Lt
}.

Lemma cmp_refl {A} `{Ordered A} (a : A) : cmp a a = Eq.
Proof. now apply cmp_eq. Qed.

Lemma cmp_gt_lt {A} `{Ordered A} (a b : A) : cmp a b = Gt <-> cmp b a = Lt.
Proof.
  rewrite (cmp_antisym a b). destruct (cmp a b); simpl; split; congruence.
Qed.

Lemma Z_cmp_trans (a b c : Z) :
  (a ?= b)%Z = Lt -> (b ?= c)%Z = Lt -> (a ?= c)%Z = Lt.
Proof. rewrite !Z.compare_lt_iff. lia. Qed.

#[export] Instance Z_Ordered : Ordered Z :=
  {| cmp := Z.compare;
     cmp_eq := Z.compare_eq_iff;
     cmp_antisym := Z.compare_antisym;
     cmp_trans := Z_cmp_trans |}.

Lemma Qc_cmp_eq (p q : Qc) : Qccompare p q = Eq <-> p = q.
Proof. symmetry. apply Qceq_alt. Qed.

Lemma Qc_cmp_antisym (p q : Qc) : Qccompare q p = CompOpp (Qccompare p q).
Proof. unfold Qccompare. now rewrite Qcompare_antisym. Qed.

Lemma Qc_cmp_trans (p q r : Qc) :
  Qccompare p q = Lt -> Qccompare q r = Lt -> Qccompare p r = Lt.
Proof. rewrite <- !Qclt_alt. apply Qclt_trans. Qed.

#[export] Instance Qc_Ordered : Ordered Qc :=
  {| cmp := Qccompare;
     cmp_eq := Qc_cmp_eq;
     cmp_antisym := Qc_cmp_antisym;
     cmp_trans := Qc_cmp_trans |}.

(** Python compares [str] by code point; on the byte strings of the model
    this is the lexicographic order of [OrdersEx.String_as_OT]. *)
Definition string_compare : string -> string -> comparison :=
  OrdersEx.String_as_OT.compare.

Lemma string_lt_irrefl (s : string) : ~ OrdersEx.String_as_OT.lt s s.
Proof. exact (@StrictOrder_Irreflexive _ _ OrdersEx.String_as_OT.lt_strorder s). Qed.

Lemma string_lt_trans (s t u : string) :
  OrdersEx.String_as_OT.lt s t -> OrdersEx.String_as_OT.lt t u ->
  OrdersEx.String_as_OT.lt s u.
Proof. exact (@StrictOrder_Transitive _ _ OrdersEx.String_as_OT.lt_strorder s t u). Qed.

Lemma string_cmp_eq (s t : string) : string_compare s t = Eq <-> s = t.
Proof.
  unfold string_compare.
  destruct (OrdersEx.String_as_OT.compare_spec s t) as [E | L | L].
  - tauto.
  - split; [discriminate |]. intros E. rewrite E in L.
    now apply string_lt_irrefl in L.
  - split; [discriminate |]. intros E. rewrite E in L.
    now apply string_lt_irrefl in L.
Qed.

Lemma string_cmp_trans (s t u : string) :
  string_compare s t = Lt -> string_compare t u = Lt -> string_compare s u = Lt.
Proof. exact (@string_lt_trans s t u). Qed.

Lemma string_cmp_antisym (s t : string) :
  string_compare t s = CompOpp (string_compare s t).
Proof.
  unfold string_compare.
  destruct (OrdersEx.String_as_OT.compare_spec s t) as [E | L | L];
    destruct (OrdersEx.String_as_OT.compare_spec t s) as [E' | L' | L'];
    simpl; try reflexivity; exfalso.
  - rewrite E in L'. now apply string_lt_irrefl in L'.
  - rewrite E in L'. now apply string_lt_irrefl in L'.
  - rewrite E' in L. now apply string_lt_irrefl in L.
  - exact (string_lt_irrefl (string_lt_trans L L')).
  - rewrite E' in L. now apply string_lt_irrefl in L.
  - exact (string_lt_irrefl (string_lt_trans L L')).
Qed.

#[export] Instance string_Ordered : Ordered string :=
  {| cmp := string_compare;
     cmp_eq := string_cmp_eq;
     cmp_antisym := string_cmp_antisym;
     cmp_trans := string_cmp_trans |}.

(** Lexicographic comparison of pairs: (year, month) and (year, (month, day)). *)
Definition lexc (c1 c2 : comparison) : comparison :=
  match c1 with Eq => c2 | _ => c1 end.

Section Lex.
Context {A B : Type} `{Ordered A} `{Ordered B}.

Definition pair_compare (x y : A * B) : comparison :=
  lexc (cmp (fst x) (fst y)) (cmp (snd x) (snd y)).

Lemma pair_cmp_eq x y : pair_compare x y = Eq <-> x = y.
Proof.
  destruct x as [a b], y as [a' b']; unfold pair_compare; simpl.
  destruct (cmp a a') eqn:E; simpl.
  - apply cmp_eq in E; subst. rewrite cmp_eq. split; congruence.
  - split; [discriminate |]. intros [= -> ->]. now rewrite cmp_refl in E.
  - split; [discriminate |]. intros [= -> ->]. now rewrite cmp_refl in E.
Qed.

Lemma pair_cmp_antisym x y : pair_compare y x = CompOpp (pair_compare x y).
Proof.
  destruct x as [a b], y as [a' b']; unfold pair_compare; simpl.
  rewrite (cmp_antisym a a'), (cmp_antisym b b').
  now destruct (cmp a a').
Qed.

Lemma pair_cmp_trans x y z :
  pair_compare x y = Lt -> pair_compare y z = Lt -> pair_compare x z = Lt.
Proof.
  destruct x as [a b], y as [a' b'], z as [a'' b'']; unfold pair_compare; simpl.
  destruct (cmp a a') eqn:E1; simpl; try discriminate;
    destruct (cmp a' a'') eqn:E2; simpl; try discriminate; intros H1 H2.
  - apply cmp_eq in E1, E2; subst. rewrite cmp_refl; simpl. eauto using cmp_trans.
  - apply cmp_eq in E1; subst. now rewrite E2.
  - apply cmp_eq in E2; subst. now rewrite E1.
  - now rewrite (cmp_trans _ _ _ E1 E2).
Qed.

#[export] Instance pair_Ordered : Ordered (A * B) :=
  {| cmp := pair_compare;
     cmp_eq := pair_cmp_eq;
     cmp_antisym := pair_cmp_antisym;
     cmp_trans := pair_cmp_trans |}.
End Lex.

(* ================================================================== *)
(** ** Data model: cells, series, frames *)

(** The dtypes that [select_dtypes] tells apart in [clean_data]:
    [np.number], [object], and the two that are neither. *)
Inductive dtype := Number | Object | Datetime | Period.

(** One cell.  [NaN] is pandas' missing marker (NaN, None, NaT).  A
    timestamp is kept to the day, a monthly period is (year, month). *)
Inductive cell :=
| NaN
| Num (q : Qc)
| Str (s : string)
| Ts (y m d : Z)
| Per (y m : Z).

Record Series := { dt : dtype; values : list cell }.

(** A frame: its columns in order, each with its name. *)
Definition DataFrame := list (string * Series).

Definition row := list cell.

Definition dtype_eqb (a b : dtype) : bool :=
  match a, b with
  | Number, Number | Object, Object | Datetime, Datetime | Period, Period => true
  | _, _ => false
  end.

Definition isnull (c : cell) : bool :=
  match c with NaN => true | _ => false end.

Definition notnull (c : cell) : bool := negb (isnull c).

Definition rank (c : cell) : Z :=
  match c with NaN => 0 | Num _ => 1 | Str _ => 2 | Ts _ _ _ => 3 | Per _ _ => 4 end.

Definition cell_compare (a b : cell) : comparison :=
  match a, b with
  | Num p, Num q => cmp p q
  | Str s, Str t => cmp s t
  | Ts y m d, Ts y' m' d' => cmp (y, (m, d)) (y', (m', d'))
  | Per y m, Per y' m' => cmp (y, m) (y', m')
  | _, _ => cmp (rank a) (rank b)
  end.

Lemma cell_cmp_eq (a b : cell) : cell_compare a b = Eq <-> a = b.
Proof.
  destruct a, b; unfold cell_compare;
    first [ rewrite cmp_eq; split; congruence
          | cbv; split; [discriminate | congruence] ].
Qed.

Lemma cell_cmp_antisym (a b : cell) : cell_compare b a = CompOpp (cell_compare a b).
Proof.
  destruct a, b; unfold cell_compare; first [ apply cmp_antisym | reflexivity ].
Qed.

Lemma cell_cmp_trans (a b c : cell) :
  cell_compare a b = Lt -> cell_compare b c = Lt -> cell_compare a c = Lt.
Proof.
  destruct a, b, c; unfold cell_compare;
    first [ apply cmp_trans | discriminate | reflexivity ].
Qed.

#[export] Instance cell_Ordered : Ordered cell :=
  {| cmp := cell_compare;
     cmp_eq := cell_cmp_eq;
     cmp_antisym := cell_cmp_antisym;
     cmp_trans := cell_cmp_trans |}.

Definition cell_eqb (a b : cell) : bool :=
  match cell_compare a b with Eq => true | _ => false end.

Lemma cell_eqb_eq (a b : cell) : cell_eqb a b = true <-> a = b.
Proof.
  unfold cell_eqb. rewrite <- cell_cmp_eq.
  destruct (cell_compare a b); split; congruence.
Qed.

Lemma cell_eqb_refl (a : cell) : cell_eqb a a = true.
Proof. now apply cell_eqb_eq. Qed.

Lemma cell_eqb_neq (a b : cell) : cell_eqb a b = false <-> a <> b.
Proof.
  rewrite <- cell_eqb_eq. destruct (cell_eqb a b); split; congruence.
Qed.

Definition cell_eq_dec (a b : cell) : {a = b} + {a <> b}.
Proof.
  destruct (cell_eqb a b) eqn:E.
  - left. now apply cell_eqb_eq.
  - right. now apply cell_eqb_neq.
Defined.

(** Numbers: exact rationals.  [qz] embeds the integers. *)
Definition qz (z : Z) : Qc := Q2Qc (inject_Z z).

Definition Qc_leb (p q : Qc) : bool :=
  match cmp p q with Gt => false | _ => true end.

Definition Qc_eqb (p q : Qc) : bool :=
  match cmp p q with Eq => true | _ => false end.

(** What float64 arithmetic can return from finite operands. *)
Inductive fval := Fin (q : Qc) | PInf | NInf | FNaN.

(** Exceptions the code can raise, and results. *)
Inductive exn :=
| KeyError (key : string)
| ValueError (what : string)
| AttributeError (what : string).

Inductive result (A : Type) :=
| Ok (a : A)
| Raise (e : exn).
Arguments Ok {A} a.
Arguments Raise {A} e.

Definition bind {A B} (r : result A) (k : A -> result B) : result B :=
  match r with Ok a => k a | Raise e => Raise e end.

Notation "x <- r ;; k" := (bind r (fun x => k))
  (at level 61, r at next level, right associativity).

(* ------------------------------------------------------------------ *)
(** *** Columns *)

Definition colnames (df : DataFrame) : list string := map fst df.

(** ['name' in df.columns] *)
Definition has_col (name : string) (df : DataFrame) : bool :=
  existsb (String.eqb name) (colnames df).

Fixpoint get_col (name : string) (df : DataFrame) : option Series :=
  match df with
  | [] => None
  | (n, s) :: rest => if String.eqb name n then Some s else get_col name rest
  end.

(** [df[name]]: [KeyError] when the column is absent. *)
Definition getitem (name : string) (df : DataFrame) : result Series :=
  match get_col name df with
  | Some s => Ok s
  | None => Raise (KeyError name)
  end.

(** [df[name] = s]: overwrite in place, or append as the last column. *)
Fixpoint set_col (name : string) (s : Series) (df : DataFrame) : DataFrame :=
  match df with
  | [] => [(name, s)]
  | (n, s0) :: rest =>
      if String.eqb name n then (n, s) :: rest else (n, s0) :: set_col name s rest
  end.

(** [len(df)] *)
Definition len (df : DataFrame) : nat :=
  match df with
  | [] => 0
  | (_, s) :: _ => List.length (values s)
  end.

(** Every column has as many cells as the frame has rows. *)
Definition rect (df : DataFrame) : Prop :=
  Forall (fun c => List.length (values (snd c)) = len df) df.

Definition map_values (f : list cell -> list cell) (df : DataFrame) : DataFrame :=
  map (fun c => (fst c, {| dt := dt (snd c); values := f (values (snd c)) |})) df.

(** [df.head(n)] *)
Definition head (n : nat) (df : DataFrame) : DataFrame := map_values (firstn n) df.

(* ------------------------------------------------------------------ *)
(** *** Rows *)

Fixpoint zip_cons (col : list cell) (rs : list row) : list row :=
  match col, rs with
  | c :: col', r :: rs' => (c :: r) :: zip_cons col' rs'
  | _, _ => []
  end.

(** The rows of a frame, each the cells of all columns at one position. *)
Definition rows_of (df : DataFrame) : list row :=
  fold_right (fun c rs => zip_cons (values (snd c)) rs) (repeat [] (len df)) df.

Fixpoint row_eqb (r1 r2 : row) : bool :=
  match r1, r2 with
  | [], [] => true
  | a :: r1', b :: r2' => cell_eqb a b && row_eqb r1' r2'
  | _, _ => false
  end.

Fixpoint mask_filter {A} (m : list bool) (l : list A) : list A :=
  match m, l with
  | b :: m', x :: l' => if b then x :: mask_filter m' l' else mask_filter m' l'
  | _, _ => []
  end.

(** [df.duplicated()] with [keep='first']: a row is marked when an equal
    row stands before it; missing cells compare equal to each other. *)
Fixpoint duplicated_from (seen rs : list row) : list bool :=
  match rs with
  | [] => []
  | r :: rs' => existsb (row_eqb r) seen :: duplicated_from (r :: seen) rs'
  end.

Definition duplicated (df : DataFrame) : list bool :=
  duplicated_from [] (rows_of df).

(** [df.drop_duplicates()] = [df[~df.duplicated()]] *)
Definition drop_duplicates (df : DataFrame) : DataFrame :=
  map_values (mask_filter (map negb (duplicated df))) df.

(* ------------------------------------------------------------------ *)
(** *** Imputation values *)

Definition null_count (l : list cell) : nat := List.length (filter isnull l).

(** [s.fillna(v)] *)
Definition fillna (v : cell) (l : list cell) : list cell :=
  map (fun c => if isnull c then v else c) l.

Fixpoint present_nums (l : list cell) : list Qc :=
  match l with
  | [] => []
  | Num q :: l' => q :: present_nums l'
  | _ :: l' => present_nums l'
  end.

Fixpoint insert_num (x : Qc) (l : list Qc) : list Qc :=
  match l with
  | [] => [x]
  | y :: l' => if Qc_leb x y then x :: l else y :: insert_num x l'
  end.

Definition sort_nums (l : list Qc) : list Qc := fold_right insert_num [] l.

(** [s.median()]: over the present values; NaN when there is none. *)
Definition median (l : list cell) : cell :=
  let s := sort_nums (present_nums l) in
  let n := List.length s in
  match n with
  | O => NaN
  | _ => if Nat.odd n then Num (nth (n / 2) s (qz 0))
         else Num ((nth (n / 2 - 1) s (qz 0) + nth (n / 2) s (qz 0)) / qz 2)%Qc
  end.

(** Sorted distinct keys, as [groupby] and [mode] order them. *)
Fixpoint insert_key (k : cell) (l : list cell) : list cell :=
  match l with
  | [] => [k]
  | y :: l' =>
      match cmp k y with
      | Lt => k :: l
      | Eq => l
      | Gt => y :: insert_key k l'
      end
  end.

Definition sort_keys (l : list cell) : list cell :=
  fold_right insert_key [] (filter notnull l).

Definition count_of (k : cell) (l : list cell) : nat :=
  List.length (filter (cell_eqb k) l).

Definition max_count (ks l : list cell) : nat :=
  fold_right Nat.max 0 (map (fun k => count_of k l) ks).

(** [s.mode()]: the most frequent present values, in ascending order. *)
Definition mode (l : list cell) : list cell :=
  let ks := sort_keys l in
  filter (fun k => count_of k l =? max_count ks l) ks.

(** The spec's fill example: the median of [1, NaN, 3, NaN, 5] is 3. *)
Example median_example :
  fillna (median [Num (qz 1); NaN; Num (qz 3); NaN; Num (qz 5)])
         [Num (qz 1); NaN; Num (qz 3); NaN; Num (qz 5)]
  = [Num (qz 1); Num (qz 3); Num (qz 3); Num (qz 3); Num (qz 5)].
Proof. reflexivity. Qed.

Example mode_example :
  mode [Str "b"; NaN; Str "a"; Str "b"; Str "a"; Str "c"] = [Str "a"; Str "b"].
Proof. reflexivity. Qed.

(* ================================================================== *)
(** ** Cleaning *)

(** What the code prints. *)
Inductive msg :=
| RemovedDuplicates (removed : nat)
| MissingValuesFound (counts : list (string * nat))
| DataCleaned.

(** A call that mutates the frame: the frame it leaves behind, what it
    printed, and the exception it ended with, if any. *)
Record outcome := { frame : DataFrame; printed : list msg; raised : option exn }.

Definition with_values (s : Series) (l : list cell) : Series :=
  {| dt := dt s; values := l |}.

(** [df.isnull().sum()] *)
Definition missing_values (df : DataFrame) : list (string * nat) :=
  map (fun c => (fst c, null_count (values (snd c)))) df.

Definition total_missing (df : DataFrame) : nat :=
  list_sum (map snd (missing_values df)).

(** The test [df[col].isnull().sum() > 0] of [SalesAnalyzer.clean_data];
    the standalone [clean_data] fills without it ([guard = false]). *)
Definition needs_fill (guard : bool) (s : Series) : bool :=
  negb guard || (0 <? null_count (values s)).

(** One round of the loop over [select_dtypes(include=[np.number])]:
    [df[col].fillna(df[col].median(), inplace=True)]. *)
Definition impute_numeric (guard : bool) (c : string * Series) : string * Series :=
  let s := snd c in
  if dtype_eqb (dt s) Number && needs_fill guard s
  then (fst c, with_values s (fillna (median (values s)) (values s)))
  else c.

(** The loop over [select_dtypes(include=['object'])]:
    [df[col].fillna(df[col].mode()[0], inplace=True)].  [mode()[0]] raises
    [KeyError] when the column has no present value; the columns filled
    before stay filled, the rest are not reached. *)
Fixpoint impute_object (guard : bool) (df : DataFrame) : DataFrame * option exn :=
  match df with
  | [] => ([], None)
  | (n, s) :: rest =>
      if dtype_eqb (dt s) Object && needs_fill guard s then
        match mode (values s) with
        | [] => ((n, s) :: rest, Some (KeyError "0"))
        | m :: _ =>
            let (rest', e) := impute_object guard rest in
            ((n, with_values s (fillna m (values s))) :: rest', e)
        end
      else
        let (rest', e) := impute_object guard rest in
        ((n, s) :: rest', e)
  end.

(** Both loops, the numeric one first. *)
Definition impute (guard : bool) (df : DataFrame) : DataFrame * option exn :=
  impute_object guard (map (impute_numeric guard) df).

Module data_cleaner.

(** [clean_data(df)] of data_cleaner.py ([df] is not [None]). *)
Definition clean_data (df : DataFrame) : outcome :=
  let df1 := drop_duplicates df in
  let (df2, e) := impute false df1 in
  {| frame := df2;
     printed := match e with None => [DataCleaned] | Some _ => [] end;
     raised := e |}.

End data_cleaner.

(* ================================================================== *)
(** ** Aggregation *)

Definition Qc_sum (l : list Qc) : Qc := fold_right Qcplus (qz 0) l.

(** [s.sum()]: missing cells are skipped, the empty sum is 0.  This is
    the exact sum of the values; the float64 sum the code holds is this
    number up to the rounding of its additions (see [float_sum] for what
    turns on the rounding). *)
Definition sum_cells (l : list cell) : Qc := Qc_sum (present_nums l).

(** [s.mean()]: NaN when no value is present. *)
Definition mean_cells (l : list cell) : fval :=
  match List.length (present_nums l) with
  | O => FNaN
  | n => Fin (sum_cells l / qz (Z.of_nat n))%Qc
  end.

(** [s.nunique()]: distinct present values. *)
Definition nunique (l : list cell) : nat := List.length (sort_keys l).

(** [s.count()]: present values. *)
Definition count_cells (l : list cell) : nat := List.length (filter notnull l).

(** [s.min()], [s.max()]: NaN (NaT) when nothing is present.  They are
    followed on date and number columns and on text columns without a
    missing cell; on a text column that also has a missing cell pandas
    raises [TypeError] while comparing. *)
Definition min_cell (l : list cell) : cell := List.hd NaN (sort_keys l).
Definition max_cell (l : list cell) : cell := List.last (sort_keys l) NaN.

(** [x.strftime('%Y-%m-%d')]: the calendar day.  [NaT] raises
    [ValueError]; a value that is no timestamp has no such method. *)
Definition strftime (d : dtype) (c : cell) : result (Z * Z * Z) :=
  match d, c with
  | Datetime, Ts y m dd => Ok (y, m, dd)
  | Datetime, _ => Raise (ValueError "NaTType does not support strftime")
  | _, _ => Raise (AttributeError "strftime")
  end.

(** Values of the [stats] dict. *)
Inductive pyval :=
| PyFloat (x : fval)
| PyInt (n : nat)
| PyDateRange (start stop : Z * Z * Z).

(** The cells of [vals] on the rows whose key is [k]. *)
Definition group_of (k : cell) (keys vals : list cell) : list cell :=
  map snd (filter (fun kv => cell_eqb k (fst kv)) (combine keys vals)).

Record CategoryRow := {
  category : cell;
  total_amount : Qc;
  quantity : Qc;
  order_count : nat
}.

(** [sort_values('total_amount', ascending=False)]: pandas reverses,
    sorts ascending and reverses back; the ascending sort is an insertion
    sort (what numpy's default sort does on short arrays).  On longer
    arrays the default sort is not stable: beyond a table of a few groups
    only the descending order it yields is relied on, never the place it
    gives to equal sums. *)
Fixpoint insert_row (x : CategoryRow) (l : list CategoryRow) : list CategoryRow :=
  match l with
  | [] => [x]
  | y :: l' =>
      if Qc_leb (total_amount x) (total_amount y) then x :: l
      else y :: insert_row x l'
  end.

Definition argsort_rows (l : list CategoryRow) : list CategoryRow :=
  fold_right insert_row [] l.

Definition sort_values_desc (l : list CategoryRow) : list CategoryRow :=
  rev (argsort_rows (rev l)).

Record MonthRow := {
  month_year : cell;
  m_total_amount : Qc;
  m_quantity : Qc;
  unique_customers : nat;
  m_order_count : nat;
  growth_rate : fval
}.

(** Division of finite numbers: a zero divisor gives an infinity, or
    NaN for 0/0; otherwise the exact quotient, which the float64 quotient
    of the code rounds (see [Float64.pct_change]). *)
Definition fdiv (x y : Qc) : fval :=
  match cmp y (qz 0) with
  | Eq => match cmp x (qz 0) with Gt => PInf | Lt => NInf | Eq => FNaN end
  | _ => Fin (x / y)%Qc
  end.

Definition fsub (v : fval) (c : Qc) : fval :=
  match v with Fin q => Fin (q - c)%Qc | other => other end.

(** Multiplication by a positive constant. *)
Definition fscale (v : fval) (c : Qc) : fval :=
  match v with Fin q => Fin (q * c)%Qc | other => other end.

(** [s.pct_change()] = [s / s.shift(1) - 1]; the sums it is applied to
    have no missing value, so its forward fill does nothing. *)
Fixpoint pct_change_from (prev : Qc) (l : list Qc) : list fval :=
  match l with
  | [] => []
  | x :: l' => fsub (fdiv x prev) (qz 1) :: pct_change_from x l'
  end.

Definition pct_change (l : list Qc) : list fval :=
  match l with
  | [] => []
  | x :: l' => FNaN :: pct_change_from x l'
  end.

(** [ts.dt.to_period('M')] on one cell. *)
Definition to_period (c : cell) : cell :=
  match c with Ts y m _ => Per y m | _ => NaN end.

Inductive sheet :=
| Summary (stats : list (string * pyval))
| MonthlyTrends (rows : list MonthRow)
| CategoryAnalysis (rows : list CategoryRow)
| SampleData (sample : DataFrame).

Module SalesAnalyzer.

(** [clean_data(self)], on a loaded frame. *)
Definition clean_data (df : DataFrame) : outcome :=
  let initial_rows := len df in
  let df1 := drop_duplicates df in
  let removed := initial_rows - len df1 in
  let out := [RemovedDuplicates removed] in
  if 0 <? total_missing df1 then
    let listing := filter (fun p => 0 <? snd p) (missing_values df1) in
    let (df2, e) := impute true df1 in
    {| frame := df2; printed := out ++ [MissingValuesFound listing]; raised := e |}
  else
    {| frame := df1; printed := out; raised := None |}.

(** [calculate_basic_stats(self)] *)
Definition calculate_basic_stats (df : DataFrame) : result (list (string * pyval)) :=
  amount <- getitem "total_amount" df ;;
  customers <- getitem "customer_id" df ;;
  products <- getitem "product_id" df ;;
  let stats :=
    [ ("total_sales", PyFloat (Fin (sum_cells (values amount))));
      ("average_order", PyFloat (mean_cells (values amount)));
      ("total_orders", PyInt (len df));
      ("unique_customers", PyInt (nunique (values customers)));
      ("unique_products", PyInt (nunique (values products))) ] in
  match get_col "order_date" df with
  | None => Ok stats
  | Some dates =>
      start <- strftime (dt dates) (min_cell (values dates)) ;;
      stop <- strftime (dt dates) (max_cell (values dates)) ;;
      Ok (stats ++ [("date_range", PyDateRange start stop)])
  end.

(** [analyze_sales_by_category(self)]; the empty list is the empty frame. *)
Definition analyze_sales_by_category (df : DataFrame) : result (list CategoryRow) :=
  match get_col "category" df with
  | None => Ok []
  | Some cat =>
      amount <- getitem "total_amount" df ;;
      qty <- getitem "quantity" df ;;
      ids <- getitem "order_id" df ;;
      let keys := values cat in
      let group k :=
        {| category := k;
           total_amount := sum_cells (group_of k keys (values amount));
           quantity := sum_cells (group_of k keys (values qty));
           order_count := count_cells (group_of k keys (values ids)) |} in
      Ok (sort_values_desc (map group (sort_keys keys)))
  end.

(** The grouped sums of [analyze_monthly_trends], before the growth rate. *)
Definition monthly_groups (keys amount qty customers ids : list cell)
  : list MonthRow :=
  map (fun k =>
         {| month_year := k;
            m_total_amount := sum_cells (group_of k keys amount);
            m_quantity := sum_cells (group_of k keys qty);
            unique_customers := nunique (group_of k keys customers);
            m_order_count := count_cells (group_of k keys ids);
            growth_rate := FNaN |})
      (sort_keys keys).

Definition set_growth (r : MonthRow) (g : fval) : MonthRow :=
  {| month_year := month_year r;
     m_total_amount := m_total_amount r;
     m_quantity := m_quantity r;
     unique_customers := unique_customers r;
     m_order_count := m_order_count r;
     growth_rate := g |}.

(** [monthly_sales['growth_rate'] = monthly_sales['total_amount'].pct_change() * 100] *)
Definition with_growth (rows : list MonthRow) : list MonthRow :=
  map (fun rg => set_growth (fst rg) (snd rg))
      (combine rows
         (map (fun g => fscale g (qz 100)) (pct_change (map m_total_amount rows)))).

(** [analyze_monthly_trends(self)]: the frame [self.df] it leaves, and
    the result. *)
Definition analyze_monthly_trends (df : DataFrame)
  : DataFrame * result (list MonthRow) :=
  match get_col "order_date" df with
  | None => (df, Ok [])
  | Some dates =>
      match dt dates with
      | Datetime =>
          let df' := set_col "month_year"
                       {| dt := Period; values := map to_period (values dates) |} df in
          (df',
           keys <- getitem "month_year" df' ;;
           amount <- getitem "total_amount" df' ;;
           qty <- getitem "quantity" df' ;;
           customers <- getitem "customer_id" df' ;;
           ids <- getitem "order_id" df' ;;
           Ok (with_growth
                 (monthly_groups (values keys) (values amount) (values qty)
                    (values customers) (values ids))))
      | _ => (df, Raise (AttributeError "dt"))
      end
  end.

Definition sheet_unless_empty {A} (mk : list A -> sheet) (rows : list A) : list sheet :=
  match rows with [] => [] | _ => [mk rows] end.

(** [generate_report(self)]: the frame it leaves, the sheets handed to
    the writer in order, and the returned flag. *)
Definition generate_report (df : DataFrame) : DataFrame * list sheet * bool :=
  match calculate_basic_stats df with
  | Raise _ => (df, [], false)
  | Ok stats =>
      let s1 := [Summary stats] in
      let (df1, monthly) := analyze_monthly_trends df in
      match monthly with
      | Raise _ => (df1, s1, false)
      | Ok monthly_data =>
          let s2 := s1 ++ sheet_unless_empty MonthlyTrends monthly_data in
          match analyze_sales_by_category df1 with
          | Raise _ => (df1, s2, false)
          | Ok category_data =>
              let s3 := s2 ++ sheet_unless_empty CategoryAnalysis category_data in
              (df1, s3 ++ [SampleData (head 1000 df1)], true)
          end
      end
  end.

End SalesAnalyzer.

(* ================================================================== *)
(** ** Float64 arithmetic *)

(** pandas holds the numbers of a column as float64 and rounds every
    addition, division and multiplication.  The definitions above keep
    each number as the rational it stands for, which is enough wherever
    the rounding plays no part.  Where it does, the numbers are taken as
    doubles: a cell read from the file is the double nearest to its
    decimal, one correctly rounded division of the numerator by the
    denominator (both below 2^53 for the decimals of a file). *)
Definition Z_float (z : Z) : float :=
  match z with
  | Z0 => 0%float
  | Zpos _ => of_uint63 (Uint63.of_Z z)
  | Zneg p => (- of_uint63 (Uint63.of_Z (Zpos p)))%float
  end.

Definition float64 (q : Qc) : float :=
  (Z_float (Qnum q) / Z_float (Zpos (Qden q)))%float.

(** The present values of a column, as doubles, in row order. *)
Definition floats (l : list cell) : list float := map float64 (present_nums l).

(** A float64 [sum()], of a column or of a group, given the present
    values in row order.  The order in which pandas and numpy add them
    (in blocks, pairwise, compensated within a group) is their own, so
    the sum is a parameter of what follows. *)
Definition float_sum := list float -> float.

(** Adding from left to right, starting from 0: what each of those sums
    comes to on one, two or three values. *)
Definition sum_in_order : float_sum :=
  fun l => fold_left PrimFloat.add l 0%float.

Module Float64.

(** [sort_values('total_amount', ascending=False)] on the float sums:
    reverse, sort ascending, reverse back.  Only the descending order is
    relied on, not the place it gives to equal sums. *)
Fixpoint insert_total (x : cell * float) (l : list (cell * float))
  : list (cell * float) :=
  match l with
  | [] => [x]
  | y :: l' => if (snd x <=? snd y)%float then x :: l else y :: insert_total x l'
  end.

Definition sort_values_desc (l : list (cell * float)) : list (cell * float) :=
  rev (fold_right insert_total [] (rev l)).

(** [self.df['total_amount'].sum()], the [total_sales] of the statistics. *)
Definition total_sales (sum64 : float_sum) (df : DataFrame) : result float :=
  amount <- getitem "total_amount" df ;;
  Ok (sum64 (floats (values amount))).

(** [analyze_sales_by_category(self)]: each category with its summed
    [total_amount], as [groupby(...).agg] and [sort_values] leave them. *)
Definition analyze_sales_by_category (sum64 : float_sum) (df : DataFrame)
  : result (list (cell * float)) :=
  match get_col "category" df with
  | None => Ok []
  | Some cat =>
      amount <- getitem "total_amount" df ;;
      qty <- getitem "quantity" df ;;
      ids <- getitem "order_id" df ;;
      let keys := values cat in
      Ok (sort_values_desc
            (map (fun k => (k, sum64 (floats (group_of k keys (values amount)))))
                 (sort_keys keys)))
  end.

Record MonthRow := {
  month_year : cell;
  total_amount : float;
  growth_rate : float
}.

(** [s.pct_change()] = [s / s.shift(1) - 1]: each value over the one
    before it, the first over the NaN that [shift] puts in front. *)
Fixpoint pct_change_from (prev : float) (l : list float) : list float :=
  match l with
  | [] => []
  | x :: l' => (x / prev - 1)%float :: pct_change_from x l'
  end.

Definition pct_change (l : list float) : list float := pct_change_from nan l.

(** [monthly_sales['growth_rate'] = monthly_sales['total_amount'].pct_change() * 100] *)
Definition with_growth (sums : list (cell * float)) : list MonthRow :=
  map (fun mg => {| month_year := fst (fst mg); total_amount := snd (fst mg);
                    growth_rate := snd mg |})
      (combine sums (map (fun g => (g * 100)%float) (pct_change (map snd sums)))).

(** [analyze_monthly_trends(self)]: the frame it leaves and, for each
    month, the summed [total_amount] and its growth rate. *)
Definition analyze_monthly_trends (sum64 : float_sum) (df : DataFrame)
  : DataFrame * result (list MonthRow) :=
  match get_col "order_date" df with
  | None => (df, Ok [])
  | Some dates =>
      match dt dates with
      | Datetime =>
          let df' := set_col "month_year"
                       {| dt := Period; values := map to_period (values dates) |} df in
          (df',
           keys <- getitem "month_year" df' ;;
           amount <- getitem "total_amount" df' ;;
           qty <- getitem "quantity" df' ;;
           customers <- getitem "customer_id" df' ;;
           ids <- getitem "order_id" df' ;;
           Ok (with_growth
                 (map (fun k => (k, sum64 (floats (group_of k (values keys) (values amount)))))
                      (sort_keys (values keys)))))
      | _ => (df, Raise (AttributeError "dt"))
      end
  end.

End Float64.

(* ================================================================== *)
(** ** Rows and masks *)

Lemma row_eqb_eq (r1 r2 : row) : row_eqb r1 r2 = true <-> r1 = r2.
Proof.
  revert r2; induction r1 as [| a r1 IH]; intros [| b r2]; simpl;
    try (split; [discriminate | congruence]); [tauto |].
  rewrite andb_true_iff, cell_eqb_eq, IH. split.
  - now intros [-> ->].
  - now intros [= -> ->].
Qed.

Definition row_eq_dec (r1 r2 : row) : {r1 = r2} + {r1 <> r2} :=
  list_eq_dec cell_eq_dec r1 r2.

Lemma seen_spec (r : row) (seen : list row) :
  existsb (row_eqb r) seen = true <-> In r seen.
Proof.
  rewrite existsb_exists. split.
  - intros [x [Hin Heq]]. apply row_eqb_eq in Heq. now subst.
  - intros Hin. exists r. split; [assumption | now apply row_eqb_eq].
Qed.

Lemma mask_filter_nil_r {A} (m : list bool) : mask_filter m (@nil A) = [].
Proof. now destruct m as [| [] m]. Qed.

Lemma mask_filter_zip_cons (m : list bool) (col : list cell) (rs : list row) :
  mask_filter m (zip_cons col rs)
  = zip_cons (mask_filter m col) (mask_filter m rs).
Proof.
  revert col rs; induction m as [| b m IH]; intros col rs.
  - reflexivity.
  - destruct col as [| c col]; [reflexivity |].
    destruct rs as [| r rs].
    + simpl. now destruct (if b then _ else _).
    + simpl. destruct b; simpl; now rewrite IH.
Qed.

Definition count_true (m : list bool) : nat := List.length (filter (fun b => b) m).

Lemma mask_filter_length {A} (m : list bool) (l : list A) :
  List.length m = List.length l -> List.length (mask_filter m l) = count_true m.
Proof.
  revert l; induction m as [| b m IH]; intros [| x l]; simpl; try discriminate.
  - reflexivity.
  - intros [= E]. unfold count_true; simpl. destruct b; simpl; now rewrite IH.
Qed.

Lemma mask_filter_repeat {A} (m : list bool) (x : A) :
  mask_filter m (repeat x (List.length m)) = repeat x (count_true m).
Proof.
  induction m as [| b m IH]; [reflexivity |].
  unfold count_true; simpl. destruct b; simpl; now rewrite IH.
Qed.

Lemma mask_filter_map {A B} (f : A -> B) (m : list bool) (l : list A) :
  mask_filter m (map f l) = map f (mask_filter m l).
Proof.
  revert l; induction m as [| b m IH]; intros [| x l]; simpl; try reflexivity.
  destruct b; simpl; now rewrite IH.
Qed.

Lemma mask_filter_all_true {A} (m : list bool) (l : list A) :
  List.length m = List.length l -> Forall (fun b => b = true) m -> mask_filter m l = l.
Proof.
  revert l; induction m as [| b m IH]; intros [| x l]; simpl; try discriminate.
  - reflexivity.
  - intros [= E] Hall. inversion Hall; subst. now rewrite IH.
Qed.

(** Rows over an explicit row count, for induction on the columns. *)
Definition rows_from (n : nat) (df : DataFrame) : list row :=
  fold_right (fun c rs => zip_cons (values (snd c)) rs) (repeat [] n) df.

Definition rect_at (n : nat) (df : DataFrame) : Prop :=
  Forall (fun c => List.length (values (snd c)) = n) df.

Lemma zip_cons_length (col : list cell) (rs : list row) :
  List.length col = List.length rs -> List.length (zip_cons col rs) = List.length rs.
Proof.
  revert rs; induction col as [| c col IH]; intros [| r rs]; simpl; try discriminate.
  - reflexivity.
  - intros [= E]. now rewrite IH.
Qed.

Lemma rows_from_length (n : nat) (df : DataFrame) :
  rect_at n df -> List.length (rows_from n df) = n.
Proof.
  induction 1 as [| c df Hc _ IH]; simpl.
  - apply repeat_length.
  - rewrite zip_cons_length; congruence.
Qed.

Lemma rows_of_length (df : DataFrame) :
  rect df -> List.length (rows_of df) = len df.
Proof. apply rows_from_length. Qed.

Lemma rows_from_mask (m : list bool) (df : DataFrame) :
  rows_from (count_true m) (map_values (mask_filter m) df)
  = mask_filter m (rows_from (List.length m) df).
Proof.
  induction df as [| c df IH]; simpl.
  - symmetry. apply mask_filter_repeat.
  - rewrite mask_filter_zip_cons. f_equal. exact IH.
Qed.

Lemma len_map_values_mask (m : list bool) (df : DataFrame) :
  rect_at (List.length m) df -> df <> [] ->
  len (map_values (mask_filter m) df) = count_true m.
Proof.
  intros Hr Hne. destruct df as [| [n s] df]; [congruence |].
  inversion Hr; subst. simpl in *. now apply mask_filter_length.
Qed.

Lemma rect_at_mask (m : list bool) (df : DataFrame) :
  rect_at (List.length m) df -> rect_at (count_true m) (map_values (mask_filter m) df).
Proof.
  unfold rect_at, map_values. intros H. apply Forall_map.
  eapply Forall_impl; [| exact H]. simpl. intros c Hc.
  now apply mask_filter_length.
Qed.

Lemma frame_cases (df : DataFrame) : df = [] \/ df <> [].
Proof. destruct df; [now left | now right]. Qed.

Lemma rows_of_mask (m : list bool) (df : DataFrame) :
  rect df -> List.length m = len df ->
  rows_of (map_values (mask_filter m) df) = mask_filter m (rows_of df).
Proof.
  intros Hr Hm. destruct (frame_cases df) as [-> | Hne];
    [destruct m; [reflexivity | discriminate Hm] |].
  unfold rows_of.
  change (rows_from (len (map_values (mask_filter m) df)) (map_values (mask_filter m) df)
          = mask_filter m (rows_from (len df) df)).
  rewrite len_map_values_mask.
  - rewrite <- Hm. apply rows_from_mask.
  - rewrite Hm. exact Hr.
  - exact Hne.
Qed.

Lemma duplicated_from_length (seen rs : list row) :
  List.length (duplicated_from seen rs) = List.length rs.
Proof.
  revert seen; induction rs as [| r rs IH]; intros seen; simpl; congruence.
Qed.

Lemma keep_mask_length (df : DataFrame) :
  rect df -> List.length (map negb (duplicated df)) = len df.
Proof.
  intros Hr. unfold duplicated.
  now rewrite length_map, duplicated_from_length, rows_of_length.
Qed.

Lemma rows_of_drop_duplicates (df : DataFrame) :
  rect df ->
  rows_of (drop_duplicates df) = mask_filter (map negb (duplicated df)) (rows_of df).
Proof.
  intros Hr. unfold drop_duplicates. apply rows_of_mask; [assumption |].
  now apply keep_mask_length.
Qed.

Lemma rect_drop_duplicates (df : DataFrame) :
  rect df -> rect (drop_duplicates df).
Proof.
  intros Hr. destruct (frame_cases df) as [-> | Hne]; [constructor |].
  unfold rect, drop_duplicates.
  rewrite len_map_values_mask.
  - apply rect_at_mask. now rewrite keep_mask_length.
  - now rewrite keep_mask_length.
  - exact Hne.
Qed.

(* ================================================================== *)
(** ** Deduplication keeps first occurrences *)

Definition kept_from (seen rs : list row) : list row :=
  mask_filter (map negb (duplicated_from seen rs)) rs.

Definition removed_from (seen rs : list row) : list row :=
  mask_filter (duplicated_from seen rs) rs.

Lemma kept_from_cons (seen : list row) (r : row) (rs : list row) :
  kept_from seen (r :: rs)
  = if existsb (row_eqb r) seen then kept_from (r :: seen) rs
    else r :: kept_from (r :: seen) rs.
Proof. unfold kept_from; simpl. now destruct (existsb (row_eqb r) seen). Qed.

Lemma removed_from_cons (seen : list row) (r : row) (rs : list row) :
  removed_from seen (r :: rs)
  = if existsb (row_eqb r) seen then r :: removed_from (r :: seen) rs
    else removed_from (r :: seen) rs.
Proof. unfold removed_from; simpl. now destruct (existsb (row_eqb r) seen). Qed.

Lemma In_kept_from (x : row) (rs seen : list row) :
  In x (kept_from seen rs) <-> In x rs /\ ~ In x seen.
Proof.
  revert seen; induction rs as [| r rs IH]; intros seen.
  - simpl. tauto.
  - rewrite kept_from_cons.
    destruct (existsb (row_eqb r) seen) eqn:E.
    + apply seen_spec in E. rewrite IH. simpl.
      split; [tauto |]. intros [[-> | Hin] Hn]; [contradiction |].
      split; [assumption |]. intros [-> | Hs]; [| contradiction].
      contradiction.
    + assert (Hr : ~ In r seen) by (rewrite <- seen_spec; congruence).
      simpl. rewrite IH. simpl.
      destruct (row_eq_dec r x) as [-> | Hne]; tauto.
Qed.

Lemma NoDup_kept_from (rs seen : list row) : NoDup (kept_from seen rs).
Proof.
  revert seen; induction rs as [| r rs IH]; intros seen.
  - constructor.
  - rewrite kept_from_cons. destruct (existsb (row_eqb r) seen); [apply IH |].
    constructor; [| apply IH].
    rewrite In_kept_from. simpl. tauto.
Qed.


Lemma kept_removed_length (rs seen : list row) :
  List.length (kept_from seen rs) + List.length (removed_from seen rs) = List.length rs.
Proof.
  revert seen; induction rs as [| r rs IH]; intros seen; [reflexivity |].
  rewrite kept_from_cons, removed_from_cons.
  destruct (existsb (row_eqb r) seen); simpl; rewrite <- (IH (r :: seen)); lia.
Qed.






Lemma kept_from_NoDup_id (rs seen : list row) :
  NoDup rs -> (forall x, In x rs -> ~ In x seen) ->
  Forall (fun b => b = true) (map negb (duplicated_from seen rs)).
Proof.
  revert seen; induction rs as [| r rs IH]; intros seen Hnd Hs; simpl.
  - constructor.
  - inversion Hnd; subst. constructor.
    + destruct (existsb (row_eqb r) seen) eqn:E; [| reflexivity].
      apply seen_spec in E. exfalso. apply (Hs r); simpl; auto.
    + apply IH; [assumption |]. intros x Hx [-> | Hin]; [contradiction |].
      apply (Hs x); simpl; auto.
Qed.

(* ================================================================== *)
(** ** Imputation touches missing cells only *)

(** A present cell keeps its value. *)
Definition cell_kept (x y : cell) : Prop := isnull x = false -> y = x.

(** Same dtype, same length, present cells kept. *)
Definition fills (s s' : Series) : Prop :=
  dt s' = dt s /\ Forall2 cell_kept (values s) (values s').

(** Two frames column by column: same names, series related by [R]. *)
Definition frame_rel (R : Series -> Series -> Prop) (df df' : DataFrame) : Prop :=
  Forall2 (fun c c' => fst c' = fst c /\ R (snd c) (snd c')) df df'.

Lemma cell_kept_refl (l : list cell) : Forall2 cell_kept l l.
Proof. induction l; constructor; [now intros _ | assumption]. Qed.

Lemma cell_kept_trans (l1 l2 l3 : list cell) :
  Forall2 cell_kept l1 l2 -> Forall2 cell_kept l2 l3 -> Forall2 cell_kept l1 l3.
Proof.
  intros H; revert l3; induction H as [| x y l1 l2 Hxy _ IH]; intros l3 H23;
    inversion H23; subst; constructor; [| now apply IH].
  intros Hx. specialize (Hxy Hx). subst y. auto.
Qed.

Lemma fills_refl (s : Series) : fills s s.
Proof. split; [reflexivity | apply cell_kept_refl]. Qed.

Lemma fills_trans (s1 s2 s3 : Series) : fills s1 s2 -> fills s2 s3 -> fills s1 s3.
Proof.
  intros [D1 K1] [D2 K2]. split; [congruence | eauto using cell_kept_trans].
Qed.

Lemma fillna_kept (v : cell) (l : list cell) : Forall2 cell_kept l (fillna v l).
Proof.
  induction l as [| c l IH]; simpl; constructor; [| assumption].
  intros Hc. now rewrite Hc.
Qed.

Lemma fillna_NaN (l : list cell) : fillna NaN l = l.
Proof.
  induction l as [| c l IH]; simpl; [reflexivity |].
  rewrite IH. now destruct c.
Qed.

Lemma fillna_no_null (v : cell) (l : list cell) :
  null_count l = 0 -> fillna v l = l.
Proof.
  unfold null_count. induction l as [| c l IH]; simpl; [reflexivity |].
  destruct (isnull c); simpl; [discriminate |]. intros H. now rewrite IH.
Qed.

Lemma null_count_fillna (v : cell) (l : list cell) :
  isnull v = false -> null_count (fillna v l) = 0.
Proof.
  intros Hv. unfold null_count. induction l as [| c l IH]; simpl; [reflexivity |].
  destruct (isnull c) eqn:E; [rewrite Hv | rewrite E]; exact IH.
Qed.

Lemma with_values_same (s : Series) : with_values s (values s) = s.
Proof. now destruct s. Qed.

Lemma insert_num_length (x : Qc) (l : list Qc) :
  List.length (insert_num x l) = S (List.length l).
Proof.
  induction l as [| y l IH]; simpl; [reflexivity |].
  destruct (Qc_leb x y); simpl; congruence.
Qed.

Lemma sort_nums_length (l : list Qc) : List.length (sort_nums l) = List.length l.
Proof.
  induction l as [| x l IH]; simpl; [reflexivity |].
  now rewrite insert_num_length, IH.
Qed.

Lemma median_none (l : list cell) : present_nums l = [] -> median l = NaN.
Proof. unfold median. now intros ->. Qed.

Lemma median_some (l : list cell) : present_nums l <> [] -> isnull (median l) = false.
Proof.
  unfold median. rewrite sort_nums_length.
  destruct (present_nums l) as [| q p]; [congruence |]. intros _. simpl List.length.
  cbv beta iota zeta. now destruct (Nat.odd (S (List.length p))).
Qed.

Lemma In_insert_key (x k : cell) (l : list cell) :
  In x (insert_key k l) <-> x = k \/ In x l.
Proof.
  induction l as [| y l IH]; simpl; [intuition congruence |].
  destruct (cell_compare k y) eqn:E; simpl.
  - apply cell_cmp_eq in E. subst. intuition congruence.
  - intuition congruence.
  - rewrite IH. intuition congruence.
Qed.

Lemma In_sort_keys (x : cell) (l : list cell) :
  In x (sort_keys l) <-> In x l /\ notnull x = true.
Proof.
  unfold sort_keys. rewrite <- filter_In.
  induction (filter notnull l) as [| k p IH]; simpl; [tauto |].
  rewrite In_insert_key, IH. intuition congruence.
Qed.

Lemma insert_key_not_nil (k : cell) (l : list cell) : insert_key k l <> [].
Proof.
  destruct l as [| y l]; simpl; [discriminate |].
  destruct (cell_compare k y); discriminate.
Qed.

Lemma sort_keys_nil (l : list cell) : sort_keys l = [] <-> filter notnull l = [].
Proof.
  unfold sort_keys. destruct (filter notnull l) as [| k p]; simpl; [tauto |].
  split; [| discriminate]. intros H. now apply insert_key_not_nil in H.
Qed.

Lemma max_attained {A} (f : A -> nat) (ks : list A) :
  ks <> [] -> exists k, In k ks /\ f k = fold_right Nat.max 0 (map f ks).
Proof.
  induction ks as [| k ks IH]; [congruence |]. intros _.
  destruct ks as [| k' ks'].
  - exists k. simpl. split; [now left | lia].
  - destruct IH as [k0 [Hin Hk0]]; [discriminate |].
    change (fold_right Nat.max 0 (map f (k :: k' :: ks')))
      with (Nat.max (f k) (fold_right Nat.max 0 (map f (k' :: ks')))).
    rewrite <- Hk0.
    destruct (Nat.max_dec (f k) (f k0)) as [E | E]; rewrite E.
    + exists k. split; [now left | reflexivity].
    + exists k0. split; [now right | reflexivity].
Qed.

Lemma mode_nil (l : list cell) : mode l = [] <-> filter notnull l = [].
Proof.
  rewrite <- sort_keys_nil. unfold mode. split.
  - intros H. destruct (sort_keys l) as [| k ks] eqn:E; [reflexivity |].
    destruct (max_attained (fun k => count_of k l) (ks := k :: ks)) as [k0 [Hin Hk0]];
      [discriminate |].
    assert (Hf : In k0 (filter (fun k1 => count_of k1 l =? max_count (k :: ks) l) (k :: ks))).
    { apply filter_In. split; [assumption |]. apply Nat.eqb_eq. exact Hk0. }
    rewrite H in Hf. destruct Hf.
  - now intros ->.
Qed.

Lemma mode_notnull (m : cell) (l : list cell) : In m (mode l) -> isnull m = false.
Proof.
  unfold mode. rewrite filter_In, In_sort_keys. unfold notnull.
  intros [[_ H] _]. now destruct (isnull m).
Qed.

Lemma filter_notnull_no_null (l : list cell) :
  null_count l = 0 -> filter notnull l = l.
Proof.
  unfold null_count, notnull. induction l as [| c l IH]; simpl; [reflexivity |].
  destruct (isnull c); simpl; [discriminate |]. intros H. now rewrite IH.
Qed.

(* ------------------------------------------------------------------ *)
(** *** Frames related column by column *)

Lemma frame_rel_impl (R R' : Series -> Series -> Prop) (df df' : DataFrame) :
  (forall s s', R s s' -> R' s s') -> frame_rel R df df' -> frame_rel R' df df'.
Proof.
  intros HR H. eapply Forall2_impl; [| exact H]. simpl. intros a b [Hn Hr]. auto.
Qed.

Lemma frame_rel_trans (R1 R2 R3 : Series -> Series -> Prop) (x y z : DataFrame) :
  (forall a b c, R1 a b -> R2 b c -> R3 a c) ->
  frame_rel R1 x y -> frame_rel R2 y z -> frame_rel R3 x z.
Proof.
  intros HR H; revert z; induction H as [| a b x y [Hn Hr] _ IH]; intros z H2;
    inversion H2 as [| b' c y' z' [Hn' Hr'] Hrest]; subst; constructor.
  - split; [congruence | eauto].
  - now apply IH.
Qed.

Lemma frame_rel_map (R : Series -> Series -> Prop) (f : string * Series -> string * Series)
      (df : DataFrame) :
  (forall c, fst (f c) = fst c /\ R (snd c) (snd (f c))) -> frame_rel R df (map f df).
Proof. intros Hf. induction df as [| c df IH]; simpl; constructor; auto. Qed.

Lemma frame_rel_get_col (R : Series -> Series -> Prop) (name : string)
      (df df' : DataFrame) (s : Series) :
  frame_rel R df df' -> get_col name df = Some s ->
  exists s', get_col name df' = Some s' /\ R s s'.
Proof.
  induction 1 as [| [n a] [n' b] df df' [Hn Hr] _ IH]; simpl in *; [discriminate |].
  subst n'. destruct (String.eqb name n).
  - intros [= <-]. eauto.
  - exact IH.
Qed.

Lemma frame_rel_get_col_none (R : Series -> Series -> Prop) (name : string)
      (df df' : DataFrame) :
  frame_rel R df df' -> get_col name df = None -> get_col name df' = None.
Proof.
  induction 1 as [| [n a] [n' b] df df' [Hn Hr] _ IH]; simpl in *; [reflexivity |].
  subst n'. destruct (String.eqb name n); [discriminate | exact IH].
Qed.

Lemma frame_rel_colnames (R : Series -> Series -> Prop) (df df' : DataFrame) :
  frame_rel R df df' -> colnames df' = colnames df.
Proof.
  induction 1 as [| a b df df' [Hn _] _ IH]; simpl; [reflexivity |]. congruence.
Qed.

Definition same_length (s s' : Series) : Prop :=
  List.length (values s') = List.length (values s).

Lemma frame_rel_len (df df' : DataFrame) :
  frame_rel same_length df df' -> len df' = len df.
Proof.
  destruct 1 as [| [n a] [n' b] df df' [_ Hr] _]; [reflexivity | exact Hr].
Qed.

Lemma frame_rel_rect (df df' : DataFrame) :
  frame_rel same_length df df' -> rect df -> rect df'.
Proof.
  intros H Hr. unfold rect. rewrite (frame_rel_len H).
  unfold rect in Hr. revert Hr. generalize (len df) as k.
  induction H as [| a b df df' [_ Hab] _ IH]; intros k Hr; constructor;
    inversion Hr; subst.
  - unfold same_length in Hab. congruence.
  - now apply IH.
Qed.

Lemma fills_same_length (s s' : Series) : fills s s' -> same_length s s'.
Proof. intros [_ H]. symmetry. exact (Forall2_length H). Qed.

Lemma impute_numeric_spec (g : bool) (c : string * Series) :
  fst (impute_numeric g c) = fst c
  /\ (fills (snd c) (snd (impute_numeric g c))
      /\ (dt (snd c) <> Number -> snd (impute_numeric g c) = snd c)).
Proof.
  unfold impute_numeric.
  destruct (dtype_eqb (dt (snd c)) Number && needs_fill g (snd c)) eqn:E; simpl.
  - split; [reflexivity |]. split.
    + split; [reflexivity | apply fillna_kept].
    + intros Hd. apply andb_true_iff in E. destruct E as [E _].
      destruct (dt (snd c)); simpl in E; congruence.
  - split; [reflexivity |]. split; [apply fills_refl | reflexivity].
Qed.

Lemma impute_object_spec (g : bool) (df : DataFrame) :
  frame_rel (fun s s' => fills s s' /\ (dt s <> Object -> s' = s))
            df (fst (impute_object g df)).
Proof.
  assert (Hid : forall l : DataFrame,
             frame_rel (fun s s' => fills s s' /\ (dt s <> Object -> s' = s)) l l).
  { induction l; constructor; [| assumption].
    split; [reflexivity |]. split; [apply fills_refl | reflexivity]. }
  induction df as [| [n s] df IH]; simpl; [constructor |].
  destruct (impute_object g df) as [rest e]. simpl in IH.
  destruct (dtype_eqb (dt s) Object && needs_fill g s) eqn:E.
  - destruct (mode (values s)) as [| m ms]; simpl; [apply Hid |].
    constructor; [| exact IH]. simpl. split; [reflexivity |]. split.
    + split; [reflexivity | apply fillna_kept].
    + intros Hd. apply andb_true_iff in E. destruct E as [E _].
      destruct (dt s); simpl in E; congruence.
  - simpl. constructor; [| exact IH]. simpl.
    split; [reflexivity |]. split; [apply fills_refl | reflexivity].
Qed.

Lemma impute_fills (g : bool) (df : DataFrame) :
  frame_rel fills df (fst (impute g df)).
Proof.
  unfold impute.
  eapply frame_rel_trans with (R1 := fills) (y := map (impute_numeric g) df)
    (R2 := fun s s' => fills s s' /\ (dt s <> Object -> s' = s)).
  - intros a b c Hab [Hbc _]. eauto using fills_trans.
  - apply frame_rel_map. intros c. destruct (impute_numeric_spec g c) as [Hn [Hf _]].
    auto.
  - apply impute_object_spec.
Qed.

Lemma drop_duplicates_rel (df : DataFrame) :
  frame_rel (fun s s' =>
               s' = with_values s (mask_filter (map negb (duplicated df)) (values s)))
            df (drop_duplicates df).
Proof.
  unfold drop_duplicates, map_values. apply frame_rel_map. intros c. simpl. auto.
Qed.

Lemma rect_impute (g : bool) (df : DataFrame) : rect df -> rect (fst (impute g df)).
Proof.
  apply frame_rel_rect. eapply frame_rel_impl; [| apply impute_fills].
  apply fills_same_length.
Qed.


(* ------------------------------------------------------------------ *)
(** *** Columns on which a further fill changes nothing *)

Definition settled (g : bool) (s : Series) : Prop :=
  match dt s with
  | Number => null_count (values s) = 0 \/ present_nums (values s) = []
  | Object => null_count (values s) = 0 /\ (g = false -> values s <> [])
  | _ => True
  end.

Lemma needs_fill_false (g : bool) (s : Series) :
  needs_fill g s = false -> g = true /\ null_count (values s) = 0.
Proof.
  unfold needs_fill. intros H. apply orb_false_iff in H. destruct H as [Hg Hn].
  apply Nat.ltb_ge in Hn. split; [now destruct g | lia].
Qed.

Lemma dtype_eqb_eq (a b : dtype) : dtype_eqb a b = true <-> a = b.
Proof. destruct a, b; simpl; split; congruence. Qed.

Lemma settled_impute_numeric (g : bool) (c : string * Series) :
  dt (snd c) = Number -> settled g (snd (impute_numeric g c)).
Proof.
  intros D. unfold impute_numeric. rewrite D. simpl.
  destruct (needs_fill g (snd c)) eqn:E; unfold settled; simpl; rewrite D.
  - destruct (present_nums (values (snd c))) as [| q p] eqn:P.
    + right. now rewrite median_none, fillna_NaN.
    + left. apply null_count_fillna, median_some. congruence.
  - left. now apply needs_fill_false in E.
Qed.

Lemma impute_numeric_other (g : bool) (c : string * Series) :
  dt (snd c) <> Number -> impute_numeric g c = c.
Proof.
  intros D. unfold impute_numeric. destruct (dt (snd c)); simpl; congruence.
Qed.

Lemma numeric_settled_after (g : bool) (df : DataFrame) :
  Forall (fun c => dt (snd c) = Number -> settled g (snd c)) (map (impute_numeric g) df).
Proof.
  apply Forall_map, Forall_forall. intros c _ D.
  destruct (dtype_eqb (dt (snd c)) Number) eqn:E.
  - apply settled_impute_numeric. now apply dtype_eqb_eq.
  - assert (Hd : dt (snd c) <> Number).
    { intros H. apply dtype_eqb_eq in H. congruence. }
    rewrite impute_numeric_other in D by assumption. contradiction.
Qed.

Lemma impute_object_settles (g : bool) (df df' : DataFrame) :
  Forall (fun c => dt (snd c) = Number -> settled g (snd c)) df ->
  impute_object g df = (df', None) ->
  Forall (fun c => settled g (snd c)) df'.
Proof.
  intros H; revert df'; induction H as [| [n s] df Hs _ IH]; intros df'; simpl.
  - intros [= <-]. constructor.
  - destruct (impute_object g df) as [rest e].
    destruct (dtype_eqb (dt s) Object && needs_fill g s) eqn:E.
    + apply andb_true_iff in E. destruct E as [D _]. apply dtype_eqb_eq in D.
      destruct (mode (values s)) as [| m ms] eqn:M; [discriminate |].
      intros [= <- ->]. constructor; [| now apply IH].
      unfold settled; simpl. rewrite D. split.
      * apply null_count_fillna. apply (mode_notnull m (values s)).
        rewrite M. now left.
      * intros _ Hnil. unfold fillna in Hnil. apply map_eq_nil in Hnil.
        assert (Hm : mode (values s) = []) by (apply mode_nil; now rewrite Hnil).
        congruence.
    + intros [= <- ->]. constructor; [| now apply IH].
      simpl in *. destruct (dt s) eqn:D; simpl in E.
      * now apply Hs.
      * unfold settled. rewrite D.
        apply needs_fill_false in E. destruct E as [-> Hn]. split; [assumption | discriminate].
      * unfold settled. now rewrite D.
      * unfold settled. now rewrite D.
Qed.

Lemma impute_settles (g : bool) (df : DataFrame) :
  snd (impute g df) = None -> Forall (fun c => settled g (snd c)) (fst (impute g df)).
Proof.
  unfold impute. intros H.
  apply impute_object_settles with (df := map (impute_numeric g) df).
  - apply numeric_settled_after.
  - destruct (impute_object g (map (impute_numeric g) df)); simpl in *. now subst.
Qed.

Lemma null_count_mask (m : list bool) (l : list cell) :
  null_count l = 0 -> null_count (mask_filter m l) = 0.
Proof.
  unfold null_count. revert l; induction m as [| b m IH]; intros [| c l]; simpl; auto.
  destruct (isnull c) eqn:E; simpl; [discriminate |]. intros H.
  destruct b; simpl; [rewrite E |]; auto.
Qed.

Lemma present_nums_mask (m : list bool) (l : list cell) :
  present_nums l = [] -> present_nums (mask_filter m l) = [].
Proof.
  revert l; induction m as [| b m IH]; intros [| c l]; simpl; auto.
  destruct c; simpl; try discriminate; intros H; destruct b; simpl; auto.
Qed.

Lemma settled_mask (g : bool) (m : list bool) (s : Series) :
  settled g s ->
  (values s <> [] -> mask_filter m (values s) <> []) ->
  settled g (with_values s (mask_filter m (values s))).
Proof.
  unfold settled; simpl. destruct (dt s); auto.
  - intros [H | H] _; [left; now apply null_count_mask | right; now apply present_nums_mask].
  - intros [Hn Hg] Hne. split; [now apply null_count_mask | auto].
Qed.

Lemma keep_mask_nonempty (df : DataFrame) (c : string * Series) :
  rect df -> In c df -> values (snd c) <> [] ->
  mask_filter (map negb (duplicated df)) (values (snd c)) <> [].
Proof.
  intros Hr Hin Hne.
  assert (Hlen : List.length (values (snd c)) = List.length (rows_of df)).
  { rewrite rows_of_length by assumption.
    unfold rect in Hr. rewrite Forall_forall in Hr. now apply Hr. }
  unfold duplicated. destruct (rows_of df) as [| r rs]; destruct (values (snd c));
    simpl in *; try discriminate; congruence.
Qed.

Lemma settled_drop_duplicates (g : bool) (df : DataFrame) :
  rect df -> Forall (fun c => settled g (snd c)) df ->
  Forall (fun c => settled g (snd c)) (drop_duplicates df).
Proof.
  intros Hr Hs. unfold drop_duplicates, map_values.
  apply Forall_map, Forall_forall. intros c Hin. simpl.
  apply (settled_mask g (map negb (duplicated df)) (snd c)).
  - rewrite Forall_forall in Hs. now apply Hs.
  - now apply keep_mask_nonempty.
Qed.

Lemma impute_numeric_settled (g : bool) (c : string * Series) :
  settled g (snd c) -> impute_numeric g c = c.
Proof.
  destruct c as [n s]. unfold impute_numeric, settled. simpl.
  destruct (dt s) eqn:D; simpl; try reflexivity.
  destruct (needs_fill g s); [| reflexivity].
  intros [H | H].
  - now rewrite fillna_no_null, with_values_same.
  - now rewrite median_none, fillna_NaN, with_values_same.
Qed.

Lemma impute_object_settled (g : bool) (df : DataFrame) :
  Forall (fun c => settled g (snd c)) df -> impute_object g df = (df, None).
Proof.
  induction 1 as [| [n s] df Hs _ IH]; simpl; [reflexivity |].
  rewrite IH. destruct (dtype_eqb (dt s) Object && needs_fill g s) eqn:E; [| reflexivity].
  apply andb_true_iff in E. destruct E as [D F]. apply dtype_eqb_eq in D.
  unfold settled in Hs. simpl in Hs. rewrite D in Hs. destruct Hs as [Hn Hg].
  assert (g = false) as ->.
  { unfold needs_fill in F. rewrite Hn in F. simpl in F.
    rewrite orb_false_r in F. now destruct g. }
  destruct (mode (values s)) as [| m ms] eqn:M.
  - apply mode_nil in M. rewrite filter_notnull_no_null in M by assumption.
    now apply Hg in M.
  - now rewrite fillna_no_null, with_values_same.
Qed.

Lemma impute_settled (g : bool) (df : DataFrame) :
  Forall (fun c => settled g (snd c)) df -> impute g df = (df, None).
Proof.
  intros H. unfold impute.
  assert (E : map (impute_numeric g) df = df).
  { induction H as [| c df Hc _ IH]; simpl; [reflexivity |].
    now rewrite impute_numeric_settled, IH. }
  rewrite E. now apply impute_object_settled.
Qed.

(** Cleaning once more after a successful fill only deduplicates. *)
Lemma impute_twice (g : bool) (df : DataFrame) :
  rect df -> snd (impute g df) = None ->
  impute g (drop_duplicates (fst (impute g df)))
  = (drop_duplicates (fst (impute g df)), None).
Proof.
  intros Hr Hok. apply impute_settled, settled_drop_duplicates.
  - now apply rect_impute.
  - now apply impute_settles.
Qed.

Lemma total_missing_zero (df : DataFrame) :
  total_missing df = 0 -> Forall (fun c => null_count (values (snd c)) = 0) df.
Proof.
  unfold total_missing, missing_values. rewrite map_map. simpl.
  induction df as [| c df IH]; simpl; [constructor |].
  intros H. constructor; [lia | apply IH; lia].
Qed.

Lemma no_null_settled (s : Series) : null_count (values s) = 0 -> settled true s.
Proof.
  intros H. unfold settled. destruct (dt s); auto. split; [assumption | discriminate].
Qed.

Lemma analyzer_clean_data_impute (df : DataFrame) :
  frame (SalesAnalyzer.clean_data df) = fst (impute true (drop_duplicates df))
  /\ raised (SalesAnalyzer.clean_data df) = snd (impute true (drop_duplicates df)).
Proof.
  unfold SalesAnalyzer.clean_data.
  destruct (0 <? total_missing (drop_duplicates df)) eqn:E.
  - destruct (impute true (drop_duplicates df)); simpl; auto.
  - apply Nat.ltb_ge in E. rewrite impute_settled; simpl; [auto |].
    eapply Forall_impl; [| apply total_missing_zero; lia].
    intros c Hc. now apply no_null_settled.
Qed.

Lemma cleaner_clean_data_impute (df : DataFrame) :
  frame (data_cleaner.clean_data df) = fst (impute false (drop_duplicates df))
  /\ raised (data_cleaner.clean_data df) = snd (impute false (drop_duplicates df)).
Proof.
  unfold data_cleaner.clean_data.
  destruct (impute false (drop_duplicates df)); simpl; auto.
Qed.

(* ------------------------------------------------------------------ *)
(** *** Further facts about the cleaned frame *)

Lemma rows_from_rel (n : nat) (df df' : DataFrame) :
  frame_rel fills df df' ->
  Forall2 (Forall2 cell_kept) (rows_from n df) (rows_from n df').
Proof.
  induction 1 as [| a b df df' [_ [_ Hab]] _ IH]; simpl.
  - induction n; simpl; constructor; [constructor | assumption].
  - revert IH. generalize (rows_from n df) (rows_from n df').
    induction Hab as [| x y l l' Hxy _ IHl]; intros rs rs' Hrs; simpl; [constructor |].
    destruct Hrs as [| r r' rs rs' Hr Hrs]; constructor.
    + now constructor.
    + now apply IHl.
Qed.

Lemma rows_of_rel (df df' : DataFrame) :
  frame_rel fills df df' ->
  Forall2 (Forall2 cell_kept) (rows_of df) (rows_of df').
Proof.
  intros H. unfold rows_of.
  change (Forall2 (Forall2 cell_kept) (rows_from (len df) df) (rows_from (len df') df')).
  rewrite (frame_rel_len (df := df) (df' := df')).
  - now apply rows_from_rel.
  - eapply frame_rel_impl; [| exact H]. apply fills_same_length.
Qed.

Lemma map_values_id (m : list bool) (df : DataFrame) :
  rect_at (List.length m) df -> Forall (fun b => b = true) m ->
  map_values (mask_filter m) df = df.
Proof.
  intros Hr Hm. unfold map_values.
  induction Hr as [| [n s] df Hc _ IH]; simpl; [reflexivity |].
  rewrite IH. simpl in Hc. rewrite mask_filter_all_true by auto.
  now destruct s.
Qed.

Lemma drop_duplicates_NoDup (df : DataFrame) :
  rect df -> NoDup (rows_of df) -> drop_duplicates df = df.
Proof.
  intros Hr Hnd. unfold drop_duplicates. apply map_values_id.
  - now rewrite keep_mask_length.
  - apply kept_from_NoDup_id; [assumption | now simpl].
Qed.

Lemma impute_object_raises (g : bool) (df df' : DataFrame) (e : exn) :
  impute_object g df = (df', Some e) ->
  e = KeyError "0"
  /\ exists n t, In (n, t) df /\ dt t = Object /\ filter notnull (values t) = [].
Proof.
  revert df'; induction df as [| [n s] df IH]; intros df'; simpl; [discriminate |].
  destruct (impute_object g df) as [rest e'].
  assert (Hrest : e' = Some e ->
                  e = KeyError "0"
                  /\ exists n0 t, In (n0, t) ((n, s) :: df) /\ dt t = Object
                                  /\ filter notnull (values t) = []).
  { intros ->. destruct (IH rest eq_refl) as [He [n0 [t [Hin Ht]]]].
    split; [assumption |]. exists n0, t. split; [now right | assumption]. }
  destruct (dtype_eqb (dt s) Object && needs_fill g s) eqn:E.
  - destruct (mode (values s)) as [| m ms] eqn:M.
    + intros [= _ <-]. split; [reflexivity |]. exists n, s.
      apply andb_true_iff in E. destruct E as [D _]. apply dtype_eqb_eq in D.
      split; [now left |]. split; [assumption | now apply mode_nil].
    + intros [= _ He]. now apply Hrest.
  - intros [= _ He]. now apply Hrest.
Qed.

Lemma In_map_impute_numeric_object (g : bool) (df : DataFrame) (n : string) (t : Series) :
  In (n, t) (map (impute_numeric g) df) -> dt t = Object -> In (n, t) df.
Proof.
  rewrite in_map_iff. intros [c [Hc Hin]] D.
  destruct (impute_numeric_spec g c) as [_ [[Hd _] Hother]].
  rewrite Hc in Hd. simpl in Hd.
  rewrite impute_numeric_other in Hc by congruence. now subst.
Qed.

Lemma impute_raises (g : bool) (df : DataFrame) (e : exn) :
  snd (impute g df) = Some e ->
  e = KeyError "0"
  /\ exists n t, In (n, t) df /\ dt t = Object /\ filter notnull (values t) = [].
Proof.
  unfold impute. destruct (impute_object g (map (impute_numeric g) df)) as [df' e'] eqn:E.
  simpl. intros ->. destruct (impute_object_raises _ _ E) as [He [n [t [Hin [D Hn]]]]].
  split; [assumption |]. exists n, t.
  split; [now apply In_map_impute_numeric_object with (g := g) | auto].
Qed.

(** A column without any number is left as it is by both loops. *)
Lemma impute_leaves_numberless (g : bool) (df : DataFrame) :
  frame_rel (fun s s' => dt s = Number -> present_nums (values s) = [] -> s' = s)
            df (fst (impute g df)).
Proof.
  unfold impute.
  eapply frame_rel_trans with
    (R1 := fun s s' => dt s = Number -> present_nums (values s) = [] -> s' = s)
    (y := map (impute_numeric g) df)
    (R2 := fun s s' => fills s s' /\ (dt s <> Object -> s' = s)).
  - intros a b c Hab [_ Hbc] D P. rewrite (Hab D P) in *. apply Hbc. congruence.
  - apply frame_rel_map. intros c. split; [apply impute_numeric_spec |].
    intros D P. rewrite impute_numeric_settled; [reflexivity |].
    unfold settled. rewrite D. now right.
  - apply impute_object_spec.
Qed.

(** After the numeric loop every numeric column is filled, or has no
    number to fill with, whatever happens in the loop over text columns. *)
Lemma impute_numeric_done (g : bool) (df : DataFrame) (n : string) (t : Series) :
  In (n, t) (fst (impute g df)) -> dt t = Number ->
  null_count (values t) = 0 \/ present_nums (values t) = [].
Proof.
  unfold impute. intros Hin D.
  pose proof (impute_object_spec g (map (impute_numeric g) df)) as Hrel.
  pose proof (numeric_settled_after g df) as Hs.
  revert Hrel Hs Hin.
  generalize (fst (impute_object g (map (impute_numeric g) df))).
  generalize (map (impute_numeric g) df).
  intros l l' Hrel. induction Hrel as [| a b l l' [Hn [[Hd _] Hsame]] _ IH];
    intros Hs Hin; [destruct Hin |].
  inversion Hs as [| ? ? Ha Hl]; subst. destruct Hin as [-> | Hin]; [| now apply IH].
  simpl in *. assert (Da : dt (snd a) = Number) by congruence.
  rewrite Hsame by congruence. specialize (Ha Da).
  unfold settled in Ha. now rewrite Da in Ha.
Qed.

Lemma Forall_mask_filter {A} (P : A -> Prop) (m : list bool) (l : list A) :
  Forall P l -> Forall P (mask_filter m l).
Proof.
  intros H; revert m; induction H as [| x l Hx _ IH]; intros [| b m]; simpl;
    try constructor.
  destruct b; [constructor |]; auto.
Qed.

Lemma all_NaN_present_nums (l : list cell) :
  Forall (fun c => c = NaN) l -> present_nums l = [].
Proof. induction 1 as [| c l -> _ IH]; simpl; auto. Qed.

(* ================================================================== *)
(** ** Group keys are sorted and distinct *)

Definition clt (a b : cell) : Prop := cell_compare a b = Lt.

Lemma clt_irrefl (a : cell) : ~ clt a a.
Proof. unfold clt. intros H. rewrite (proj2 (cell_cmp_eq a a) eq_refl) in H. discriminate. Qed.

Lemma clt_trans (a b c : cell) : clt a b -> clt b c -> clt a c.
Proof. apply cell_cmp_trans. Qed.

Lemma insert_key_sorted (k : cell) (l : list cell) :
  StronglySorted clt l -> StronglySorted clt (insert_key k l).
Proof.
  induction 1 as [| y l Hs IH Hy]; simpl; [repeat constructor |].
  destruct (cell_compare k y) eqn:E.
  - now constructor.
  - constructor; [now constructor |]. constructor; [exact E |].
    eapply Forall_impl; [| exact Hy]. intros z Hz. exact (clt_trans E Hz).
  - constructor; [assumption |]. apply Forall_forall. intros z Hz.
    apply In_insert_key in Hz. destruct Hz as [-> | Hz].
    + unfold clt. rewrite cell_cmp_antisym, E. reflexivity.
    + rewrite Forall_forall in Hy. now apply Hy.
Qed.

Lemma sort_keys_sorted (l : list cell) : StronglySorted clt (sort_keys l).
Proof.
  unfold sort_keys. induction (filter notnull l) as [| k p IH]; simpl.
  - constructor.
  - now apply insert_key_sorted.
Qed.

Lemma sorted_NoDup (l : list cell) : StronglySorted clt l -> NoDup l.
Proof.
  induction 1 as [| y l _ IH Hy]; constructor; [| assumption].
  intros Hin. rewrite Forall_forall in Hy. exact (clt_irrefl (Hy _ Hin)).
Qed.

Lemma sort_keys_NoDup (l : list cell) : NoDup (sort_keys l).
Proof. apply sorted_NoDup, sort_keys_sorted. Qed.

(* ================================================================== *)
(** ** Sums over groups *)

Definition num_of (c : cell) : Qc :=
  match c with Num q => q | _ => qz 0 end.

Lemma sum_cells_cons (c : cell) (l : list cell) :
  sum_cells (c :: l) = (num_of c + sum_cells l)%Qc.
Proof.
  unfold sum_cells. destruct c; simpl; try reflexivity;
    change (qz 0) with 0%Qc; ring.
Qed.

Lemma Qc_sum_app (l1 l2 : list Qc) : Qc_sum (l1 ++ l2) = (Qc_sum l1 + Qc_sum l2)%Qc.
Proof.
  induction l1 as [| x l1 IH]; simpl.
  - change (qz 0) with 0%Qc. ring.
  - rewrite IH. ring.
Qed.

Lemma Qc_sum_perm (l1 l2 : list Qc) : Permutation l1 l2 -> Qc_sum l1 = Qc_sum l2.
Proof.
  induction 1; simpl; try congruence; ring.
Qed.

(** The cells of [kvs] under key [k], summed. *)
Definition group_sum (k : cell) (kvs : list (cell * cell)) : Qc :=
  sum_cells (map snd (filter (fun kv => cell_eqb k (fst kv)) kvs)).

Lemma group_sum_cons (k : cell) (kv : cell * cell) (kvs : list (cell * cell)) :
  group_sum k (kv :: kvs)
  = ((if cell_eqb k (fst kv) then num_of (snd kv) else qz 0) + group_sum k kvs)%Qc.
Proof.
  unfold group_sum. simpl. destruct (cell_eqb k (fst kv)); simpl.
  - apply sum_cells_cons.
  - change (qz 0) with 0%Qc. ring.
Qed.

Lemma indicator_sum (k0 : cell) (v : Qc) (ks : list cell) :
  NoDup ks -> In k0 ks ->
  Qc_sum (map (fun k => if cell_eqb k k0 then v else qz 0) ks) = v.
Proof.
  induction 1 as [| k ks Hk Hnd IH]; [now simpl |].
  assert (Hzero : forall l, ~ In k0 l ->
            Qc_sum (map (fun k => if cell_eqb k k0 then v else qz 0) l) = qz 0).
  { induction l as [| y l IHl]; simpl; [reflexivity |]. intros Hn.
    destruct (cell_eqb y k0) eqn:E.
    - apply cell_eqb_eq in E. subst. tauto.
    - rewrite IHl by tauto. change (qz 0) with 0%Qc. ring. }
  intros [-> | Hin]; simpl.
  - rewrite cell_eqb_refl, Hzero by assumption. change (qz 0) with 0%Qc. ring.
  - destruct (cell_eqb k k0) eqn:E.
    + apply cell_eqb_eq in E. subst. contradiction.
    + rewrite IH by assumption. change (qz 0) with 0%Qc. ring.
Qed.

(** Summing every group gives the sum of the whole column when every
    row's key is among the keys. *)
Lemma group_sums_total (ks : list cell) (kvs : list (cell * cell)) :
  NoDup ks -> (forall kv, In kv kvs -> In (fst kv) ks) ->
  Qc_sum (map (fun k => group_sum k kvs) ks) = sum_cells (map snd kvs).
Proof.
  intros Hnd. induction kvs as [| kv kvs IH]; intros Hcov.
  - unfold group_sum. simpl. clear. induction ks as [| k ks IHk]; simpl; [reflexivity |].
    rewrite IHk. unfold sum_cells. simpl. change (qz 0) with 0%Qc. ring.
  - simpl map at 2. rewrite sum_cells_cons, <- IH by (intros; apply Hcov; now right).
    rewrite <- (indicator_sum (fst kv) (num_of (snd kv)) Hnd) at 1
      by (apply Hcov; now left).
    clear. induction ks as [| k ks IHk]; simpl.
    + change (qz 0) with 0%Qc. ring.
    + rewrite group_sum_cons, IHk. ring.
Qed.

Lemma combine_map_snd {A B} (l : list A) (l' : list B) :
  List.length l = List.length l' -> map snd (combine l l') = l'.
Proof.
  revert l'; induction l as [| x l IH]; intros [| y l']; simpl; try discriminate.
  - reflexivity.
  - intros [= E]. now rewrite IH.
Qed.

Lemma In_combine_fst_notnull (keys vals : list cell) (kv : cell * cell) :
  null_count keys = 0 -> In kv (combine keys vals) -> In (fst kv) (sort_keys keys).
Proof.
  intros Hn Hin. apply In_sort_keys. destruct kv as [k v].
  apply in_combine_l in Hin. simpl. split; [assumption |].
  rewrite <- (filter_notnull_no_null keys Hn) in Hin.
  apply filter_In in Hin. tauto.
Qed.

Lemma insert_row_perm (x : CategoryRow) (l : list CategoryRow) :
  Permutation (x :: l) (insert_row x l).
Proof.
  induction l as [| y l IH]; simpl; [apply Permutation_refl |].
  destruct (Qc_leb (total_amount x) (total_amount y)); [apply Permutation_refl |].
  eapply Permutation_trans; [apply perm_swap |]. now apply perm_skip.
Qed.

Lemma argsort_rows_perm (l : list CategoryRow) : Permutation l (argsort_rows l).
Proof.
  induction l as [| x l IH]; simpl; [constructor |].
  eapply Permutation_trans; [| apply insert_row_perm]. now apply perm_skip.
Qed.

Lemma sort_values_desc_perm (l : list CategoryRow) : Permutation l (sort_values_desc l).
Proof.
  unfold sort_values_desc.
  eapply Permutation_trans; [apply Permutation_rev |].
  eapply Permutation_trans; [apply argsort_rows_perm |].
  apply Permutation_rev.
Qed.

(* ================================================================== *)
(** ** Order of the category rollup *)

Lemma StronglySorted_app {A} (R : A -> A -> Prop) (l1 l2 : list A) :
  StronglySorted R l1 -> StronglySorted R l2 ->
  (forall a b, In a l1 -> In b l2 -> R a b) ->
  StronglySorted R (l1 ++ l2).
Proof.
  induction 1 as [| x l1 Hs IH Hx]; intros H2 Hc; simpl; [assumption |].
  constructor.
  - apply IH; [assumption |]. intros a b Ha Hb. apply Hc; [now right | assumption].
  - apply Forall_app. split; [assumption |].
    apply Forall_forall. intros b Hb. apply Hc; [now left | assumption].
Qed.

Lemma StronglySorted_rev {A} (R : A -> A -> Prop) (l : list A) :
  StronglySorted R l -> StronglySorted (fun a b => R b a) (rev l).
Proof.
  induction 1 as [| x l Hs IH Hx]; simpl; [constructor |].
  apply StronglySorted_app; [assumption | repeat constructor |].
  intros a b Ha [<- | []]. rewrite Forall_forall in Hx. apply Hx.
  now apply in_rev.
Qed.

Lemma StronglySorted_map {A B} (R : B -> B -> Prop) (f : A -> B) (l : list A) :
  StronglySorted (fun a b => R (f a) (f b)) l -> StronglySorted R (map f l).
Proof.
  induction 1 as [| x l Hs IH Hx]; simpl; constructor; [assumption |].
  now apply Forall_map.
Qed.

Lemma Qc_leb_le (p q : Qc) : Qc_leb p q = true <-> (p <= q)%Qc.
Proof.
  unfold Qc_leb. rewrite Qcle_alt. simpl.
  destruct (Qccompare p q); split; congruence.
Qed.

Lemma Qc_leb_gt (p q : Qc) : Qc_leb p q = false <-> (q < p)%Qc.
Proof.
  unfold Qc_leb. change (q < p)%Qc with (p > q)%Qc. rewrite Qcgt_alt. simpl.
  destruct (Qccompare p q); split; congruence.
Qed.

(** Ascending by amount; among equal amounts, descending by category. *)
Definition asc_order (a b : CategoryRow) : Prop :=
  (total_amount a < total_amount b)%Qc
  \/ (total_amount a = total_amount b /\ clt (category b) (category a)).

(** Descending by amount; among equal amounts, ascending by category. *)
Definition rollup_order (a b : CategoryRow) : Prop :=
  (total_amount b < total_amount a)%Qc
  \/ (total_amount a = total_amount b /\ clt (category a) (category b)).

Lemma asc_order_le (a b : CategoryRow) :
  asc_order a b -> (total_amount a <= total_amount b)%Qc.
Proof.
  intros [H | [-> _]]; [now apply Qclt_le_weak | apply Qcle_refl].
Qed.

Lemma insert_row_sorted (x : CategoryRow) (s : list CategoryRow) :
  StronglySorted asc_order s ->
  Forall (fun y => clt (category y) (category x)) s ->
  StronglySorted asc_order (insert_row x s).
Proof.
  induction 1 as [| y s Hs IH Hy]; intros Hx; simpl; [repeat constructor |].
  inversion Hx as [| ? ? Hxy Hxs]; subst.
  destruct (Qc_leb (total_amount x) (total_amount y)) eqn:E.
  - apply Qc_leb_le in E. constructor; [now constructor |].
    assert (Hall : forall z, In z (y :: s) ->
               (total_amount x <= total_amount z)%Qc /\ clt (category z) (category x)).
    { intros z [<- | Hz]; [auto |]. rewrite Forall_forall in Hy, Hxs. split; [| auto].
      eapply Qcle_trans; [exact E |]. apply asc_order_le. auto. }
    apply Forall_forall. intros z Hz. destruct (Hall z Hz) as [Hle Hk].
    destruct (Qcle_lt_or_eq _ _ Hle) as [Hlt | Heq]; [now left | right; auto].
  - apply Qc_leb_gt in E. constructor; [now apply IH |].
    apply Forall_forall. intros z Hz.
    apply (Permutation_in z (Permutation_sym (insert_row_perm x s))) in Hz.
    destruct Hz as [<- | Hz]; [now left |].
    rewrite Forall_forall in Hy. auto.
Qed.

Lemma argsort_rows_sorted (l : list CategoryRow) :
  StronglySorted (fun a b => clt (category b) (category a)) l ->
  StronglySorted asc_order (argsort_rows l).
Proof.
  induction 1 as [| x l Hs IH Hx]; simpl; [constructor |].
  apply insert_row_sorted; [assumption |].
  apply Forall_forall. intros y Hy.
  apply (Permutation_in y (Permutation_sym (argsort_rows_perm l))) in Hy.
  rewrite Forall_forall in Hx. auto.
Qed.

Lemma sort_values_desc_sorted (l : list CategoryRow) :
  StronglySorted (fun a b => clt (category a) (category b)) l ->
  StronglySorted rollup_order (sort_values_desc l).
Proof.
  intros H. unfold sort_values_desc.
  apply StronglySorted_rev in H. apply argsort_rows_sorted in H.
  apply StronglySorted_rev in H.
  eapply (StronglySorted_ind (fun l => StronglySorted rollup_order l));
    [constructor | | exact H].
  intros a l0 _ IH Ha. constructor; [assumption |].
  eapply Forall_impl; [| exact Ha]. unfold asc_order, rollup_order.
  intros b [Hlt | [Heq Hk]]; [now left | right; split; [congruence | assumption]].
Qed.

(* ================================================================== *)
(** ** Growth rates *)

Lemma pct_change_from_length (prev : Qc) (l : list Qc) :
  List.length (pct_change_from prev l) = List.length l.
Proof. revert prev; induction l; intros prev; simpl; congruence. Qed.

Lemma pct_change_length (l : list Qc) : List.length (pct_change l) = List.length l.
Proof. destruct l; simpl; [reflexivity |]. now rewrite pct_change_from_length. Qed.

Lemma combine_map_fst {A B} (l : list A) (l' : list B) :
  List.length l = List.length l' -> map fst (combine l l') = l.
Proof.
  revert l'; induction l as [| x l IH]; intros [| y l']; simpl; try discriminate.
  - reflexivity.
  - intros [= E]. now rewrite IH.
Qed.

Definition growth_column (rows : list MonthRow) : list fval :=
  map (fun g => fscale g (qz 100)) (pct_change (map m_total_amount rows)).

Lemma growth_column_length (rows : list MonthRow) :
  List.length rows = List.length (growth_column rows).
Proof. unfold growth_column. now rewrite length_map, pct_change_length, length_map. Qed.

Lemma with_growth_months (rows : list MonthRow) :
  map month_year (SalesAnalyzer.with_growth rows) = map month_year rows.
Proof.
  unfold SalesAnalyzer.with_growth. rewrite map_map. simpl.
  rewrite <- (map_map fst month_year), combine_map_fst; [reflexivity |].
  apply growth_column_length.
Qed.

Lemma with_growth_totals (rows : list MonthRow) :
  map m_total_amount (SalesAnalyzer.with_growth rows) = map m_total_amount rows.
Proof.
  unfold SalesAnalyzer.with_growth. rewrite map_map. simpl.
  rewrite <- (map_map fst m_total_amount), combine_map_fst; [reflexivity |].
  apply growth_column_length.
Qed.

Lemma with_growth_rates (rows : list MonthRow) :
  map growth_rate (SalesAnalyzer.with_growth rows) = growth_column rows.
Proof.
  unfold SalesAnalyzer.with_growth. rewrite map_map. simpl.
  rewrite <- (map_map snd (fun g => g)), map_id, combine_map_snd; [reflexivity |].
  apply growth_column_length.
Qed.

Lemma monthly_groups_months (keys a q c i : list cell) :
  map month_year (SalesAnalyzer.monthly_groups keys a q c i) = sort_keys keys.
Proof. unfold SalesAnalyzer.monthly_groups. rewrite map_map. simpl. apply map_id. Qed.

(* ================================================================== *)
(** ** Sample tables *)

Definition num (z : Z) : cell := Num (qz z).

Definition column (d : dtype) (l : list cell) : Series := {| dt := d; values := l |}.

(** Five orders, the second of them entered three times. *)
Definition orders_with_repeats : DataFrame :=
  [ ("order_id", column Number [num 1; num 2; num 2; num 3; num 2]);
    ("category", column Object [Str "toys"; Str "books"; Str "books"; Str "toys"; Str "books"]);
    ("total_amount", column Number [num 10; num 25; num 25; num 40; num 25]) ].

(** Two orders; the second lacks its id. *)
Definition orders_missing_id : DataFrame :=
  [ ("order_id", column Number [num 1; NaN]);
    ("total_amount", column Number [num 10; num 10]) ].

(** A text column without any value. *)
Definition orders_blank_text : DataFrame :=
  [ ("order_id", column Number [num 1; num 2]);
    ("category", column Object [NaN; NaN]);
    ("total_amount", column Number [num 10; num 20]) ].

(** A numeric column without any value. *)
Definition orders_blank_number : DataFrame :=
  [ ("order_id", column Number [num 1; num 2]);
    ("discount", column Number [NaN; NaN]);
    ("total_amount", column Number [num 10; NaN]) ].

(* ================================================================== *)
(** ** Claims about cleaning *)


Lemma orders_with_repeats_rect : rect orders_with_repeats.
Proof. repeat constructor. Qed.


(** C10.  Cleaning never alters a present value.  The cleaned table has
    the columns of the deduplicated one, with the same names, dtypes and
    lengths, and every cell that is present after deduplication holds the
    same value after cleaning, column by column and row by row; this holds
    for both cleaners, also when the fill of a text column raises. *)
Theorem C10_cleaning_keeps_present_values (df : DataFrame) :
  frame_rel fills (drop_duplicates df) (frame (SalesAnalyzer.clean_data df))
  /\ frame_rel fills (drop_duplicates df) (frame (data_cleaner.clean_data df))
  /\ Forall2 (Forall2 cell_kept)
       (rows_of (drop_duplicates df)) (rows_of (frame (SalesAnalyzer.clean_data df)))
  /\ Forall2 (Forall2 cell_kept)
       (rows_of (drop_duplicates df)) (rows_of (frame (data_cleaner.clean_data df))).
Proof.
  rewrite (proj1 (analyzer_clean_data_impute df)).
  rewrite (proj1 (cleaner_clean_data_impute df)).
  repeat split; try apply rows_of_rel; apply impute_fills.
Qed.

(** C8, as stated, fails: filling the missing order id of the second row
    makes it equal to the first, and the second cleaning removes it. *)
Lemma C8_counterexample :
  rect orders_missing_id
  /\ raised (SalesAnalyzer.clean_data orders_missing_id) = None
  /\ raised (data_cleaner.clean_data orders_missing_id) = None
  /\ len (frame (SalesAnalyzer.clean_data orders_missing_id)) = 2
  /\ len (frame (SalesAnalyzer.clean_data
                   (frame (SalesAnalyzer.clean_data orders_missing_id)))) = 1
  /\ frame (SalesAnalyzer.clean_data (frame (SalesAnalyzer.clean_data orders_missing_id)))
     <> frame (SalesAnalyzer.clean_data orders_missing_id)
  /\ frame (data_cleaner.clean_data (frame (data_cleaner.clean_data orders_missing_id)))
     <> frame (data_cleaner.clean_data orders_missing_id).
Proof.
  split; [repeat constructor |].
  repeat split; try (vm_compute; reflexivity);
    intros H; apply (f_equal len) in H; vm_compute in H; discriminate.
Qed.

(** C8, amended.  When cleaning a table succeeds, cleaning the result
    again succeeds, fills nothing and changes no cell: it only
    deduplicates, removing the rows that the first fill made equal to an
    earlier row.  When the cleaned table has no two equal rows, the second
    cleaning returns it unchanged. *)
Theorem C8_second_cleaning_only_deduplicates (df : DataFrame) (Hrect : rect df) :
  (raised (SalesAnalyzer.clean_data df) = None ->
   let df1 := frame (SalesAnalyzer.clean_data df) in
   frame (SalesAnalyzer.clean_data df1) = drop_duplicates df1
   /\ raised (SalesAnalyzer.clean_data df1) = None
   /\ (NoDup (rows_of df1) -> frame (SalesAnalyzer.clean_data df1) = df1))
  /\ (raised (data_cleaner.clean_data df) = None ->
      let df1 := frame (data_cleaner.clean_data df) in
      frame (data_cleaner.clean_data df1) = drop_duplicates df1
      /\ raised (data_cleaner.clean_data df1) = None
      /\ (NoDup (rows_of df1) -> frame (data_cleaner.clean_data df1) = df1)).
Proof.
  assert (Hgen : forall g, snd (impute g (drop_duplicates df)) = None ->
            let df1 := fst (impute g (drop_duplicates df)) in
            impute g (drop_duplicates df1) = (drop_duplicates df1, None)
            /\ rect df1).
  { intros g Hok df1. split.
    - apply impute_twice; [now apply rect_drop_duplicates | assumption].
    - apply rect_impute. now apply rect_drop_duplicates. }
  split.
  - destruct (analyzer_clean_data_impute df) as [Hf He]. rewrite Hf, He.
    intros Hok df1. destruct (Hgen true Hok) as [Htwice Hr]. fold df1 in Htwice, Hr.
    destruct (analyzer_clean_data_impute df1) as [Hf1 He1].
    rewrite Hf1, He1, Htwice. simpl.
    repeat split. intros Hnd. now apply drop_duplicates_NoDup.
  - destruct (cleaner_clean_data_impute df) as [Hf He]. rewrite Hf, He.
    intros Hok df1. destruct (Hgen false Hok) as [Htwice Hr]. fold df1 in Htwice, Hr.
    destruct (cleaner_clean_data_impute df1) as [Hf1 He1].
    rewrite Hf1, He1, Htwice. simpl.
    repeat split. intros Hnd. now apply drop_duplicates_NoDup.
Qed.

Lemma orders_missing_id_rect : rect orders_missing_id.
Proof. repeat constructor. Qed.

Lemma C8_witness :
  frame (SalesAnalyzer.clean_data (frame (SalesAnalyzer.clean_data orders_missing_id)))
  = drop_duplicates (frame (SalesAnalyzer.clean_data orders_missing_id)).
Proof.
  apply (proj1 (C8_second_cleaning_only_deduplicates orders_missing_id_rect)).
  vm_compute. reflexivity.
Defined.

(** C6, as stated, fails.  A text column without any value makes both
    cleaners raise ([mode()[0]] on an empty result); and on a numeric
    column without any value the standalone cleaner prints no warning. *)
Lemma C6_counterexample :
  raised (SalesAnalyzer.clean_data orders_blank_text) = Some (KeyError "0")
  /\ raised (data_cleaner.clean_data orders_blank_text) = Some (KeyError "0")
  /\ raised (data_cleaner.clean_data orders_blank_number) = None
  /\ printed (data_cleaner.clean_data orders_blank_number) = [DataCleaned].
Proof. repeat split; vm_compute; reflexivity. Qed.

(** C6, amended.  A numeric column whose values are all missing is left
    as it is by both cleaners (its median is NaN, the fill changes
    nothing): after cleaning it holds its deduplicated, still missing
    cells.  Cleaning goes on with the other columns: every numeric column
    of the result is filled or has no number to fill with, and an
    exception can only come from a text column without any value.  No
    warning about the column is printed: the standalone cleaner prints
    only its closing message, [SalesAnalyzer.clean_data] the duplicate
    count and, when values are missing, its listing of missing counts. *)
Theorem C6_blank_numeric_column_is_left
    (df : DataFrame) (name : string) (s : Series)
    (Hcol : get_col name df = Some s)
    (Hnum : dt s = Number)
    (Hall : Forall (fun c => c = NaN) (values s)) :
  forall o,
    o = SalesAnalyzer.clean_data df \/ o = data_cleaner.clean_data df ->
    get_col name (frame o)
    = Some (with_values s (mask_filter (map negb (duplicated df)) (values s)))
    /\ (forall n t, In (n, t) (frame o) -> dt t = Number ->
          null_count (values t) = 0 \/ present_nums (values t) = [])
    /\ (forall e, raised o = Some e ->
          e = KeyError "0"
          /\ exists n t, In (n, t) (drop_duplicates df) /\ dt t = Object
                         /\ filter notnull (values t) = [])
    /\ (o = data_cleaner.clean_data df ->
          printed o = match raised o with None => [DataCleaned] | Some _ => [] end)
    /\ (o = SalesAnalyzer.clean_data df ->
          exists k, printed o = [RemovedDuplicates k]
                    \/ exists listing,
                         printed o = [RemovedDuplicates k; MissingValuesFound listing]).
Proof.
  intros o Ho.
  assert (Hgen : exists g,
             frame o = fst (impute g (drop_duplicates df))
             /\ raised o = snd (impute g (drop_duplicates df))).
  { destruct Ho as [-> | ->]; [exists true | exists false];
      [apply analyzer_clean_data_impute | apply cleaner_clean_data_impute]. }
  destruct Hgen as [g [Hf He]].
  split; [| split; [| split; [| split]]].
  - rewrite Hf.
    destruct (frame_rel_get_col name (drop_duplicates_rel df) Hcol) as [s1 [H1 ->]].
    destruct (frame_rel_get_col name (impute_leaves_numberless g (drop_duplicates df)) H1)
      as [s2 [H2 Hs2]].
    rewrite H2, Hs2; [reflexivity | exact Hnum |].
    simpl. now apply all_NaN_present_nums, Forall_mask_filter.
  - rewrite Hf. intros n t. apply impute_numeric_done.
  - rewrite He. intros e. apply impute_raises.
  - clear. intros ->. unfold data_cleaner.clean_data.
    now destruct (impute false (drop_duplicates df)) as [df2 [e |]].
  - clear. intros ->. unfold SalesAnalyzer.clean_data.
    exists (len df - len (drop_duplicates df)).
    destruct (0 <? total_missing (drop_duplicates df)); [| now left].
    right. destruct (impute true (drop_duplicates df)). simpl. eauto.
Qed.

Lemma C6_witness :
  get_col "discount" (frame (data_cleaner.clean_data orders_blank_number))
  = Some (column Number [NaN; NaN]).
Proof.
  refine (proj1 (@C6_blank_numeric_column_is_left orders_blank_number "discount"
                   (column Number [NaN; NaN]) _ _ _ _ (or_intror eq_refl))).
  - reflexivity.
  - reflexivity.
  - repeat constructor.
Defined.

(* ================================================================== *)
(** ** Claims about aggregation *)

(** [stats[key]] *)
Fixpoint dict_get (key : string) (d : list (string * pyval)) : option pyval :=
  match d with
  | [] => None
  | (k, v) :: rest => if String.eqb key k then Some v else dict_get key rest
  end.

(** Position of the first row whose key is [k]. *)
Fixpoint first_index (k : cell) (keys : list cell) : nat :=
  match keys with
  | [] => 0
  | y :: rest => if cell_eqb k y then 0 else S (first_index k rest)
  end.

(** The tie-break as the specification words it: among categories with
    equal sums, the one met first in the table comes first. *)
Definition ties_in_first_seen_order (keys : list cell) (rows : list CategoryRow) : Prop :=
  forall i j d, i < j < List.length rows ->
    total_amount (nth i rows d) = total_amount (nth j rows d) ->
    first_index (category (nth i rows d)) keys
    < first_index (category (nth j rows d)) keys.

Lemma get_col_In (name : string) (df : DataFrame) (s : Series) :
  get_col name df = Some s -> exists n, In (n, s) df.
Proof.
  induction df as [| [n a] df IH]; simpl; [discriminate |].
  destruct (String.eqb name n).
  - intros [= <-]. exists n. now left.
  - intros H. destruct (IH H) as [n' Hin]. exists n'. now right.
Qed.

Lemma rect_get_col (name : string) (df : DataFrame) (s : Series) :
  rect df -> get_col name df = Some s -> List.length (values s) = len df.
Proof.
  intros Hr Hg. destruct (get_col_In _ _ Hg) as [n Hin].
  unfold rect in Hr. rewrite Forall_forall in Hr. exact (Hr _ Hin).
Qed.

Lemma getitem_Ok (name : string) (df : DataFrame) (s : Series) :
  getitem name df = Ok s <-> get_col name df = Some s.
Proof.
  unfold getitem. destruct (get_col name df); split; congruence.
Qed.

(** What a successful [analyze_sales_by_category] returns on a frame with
    a category column. *)
Lemma rollup_shape (df : DataFrame) (cat : Series) (rows : list CategoryRow) :
  get_col "category" df = Some cat ->
  SalesAnalyzer.analyze_sales_by_category df = Ok rows ->
  exists amount qty ids,
    get_col "total_amount" df = Some amount
    /\ rows = sort_values_desc
                (map (fun k =>
                        {| category := k;
                           total_amount := sum_cells (group_of k (values cat) (values amount));
                           quantity := sum_cells (group_of k (values cat) (values qty));
                           order_count := count_cells (group_of k (values cat) (values ids)) |})
                     (sort_keys (values cat))).
Proof.
  intros Hc. unfold SalesAnalyzer.analyze_sales_by_category, getitem. rewrite Hc.
  destruct (get_col "total_amount" df) as [amount |]; [| discriminate].
  destruct (get_col "quantity" df) as [qty |]; [| discriminate].
  destruct (get_col "order_id" df) as [ids |]; [| discriminate].
  simpl. intros [= <-]. exists amount, qty, ids. auto.
Qed.

(** The first five entries of the dict, whenever the call returns. *)
Lemma stats_shape (df : DataFrame) (stats : list (string * pyval)) :
  SalesAnalyzer.calculate_basic_stats df = Ok stats ->
  exists amount customers products rest,
    get_col "total_amount" df = Some amount
    /\ get_col "customer_id" df = Some customers
    /\ get_col "product_id" df = Some products
    /\ stats = [ ("total_sales", PyFloat (Fin (sum_cells (values amount))));
                 ("average_order", PyFloat (mean_cells (values amount)));
                 ("total_orders", PyInt (len df));
                 ("unique_customers", PyInt (nunique (values customers)));
                 ("unique_products", PyInt (nunique (values products))) ] ++ rest.
Proof.
  unfold SalesAnalyzer.calculate_basic_stats, getitem.
  destruct (get_col "total_amount" df) as [amount |]; [| discriminate].
  destruct (get_col "customer_id" df) as [customers |]; [| discriminate].
  destruct (get_col "product_id" df) as [products |]; [| discriminate].
  simpl. destruct (get_col "order_date" df) as [dates |].
  - destruct (strftime (dt dates) (min_cell (values dates))); [| discriminate].
    destruct (strftime (dt dates) (max_cell (values dates))); [| discriminate].
    simpl. intros [= <-]. exists amount, customers, products. eexists.
    repeat split; reflexivity.
  - intros [= <-]. exists amount, customers, products, []. repeat split; reflexivity.
Qed.

(** Every row falls in the group of its own key and in no other: the
    groups, laid end to end, are the column rearranged. *)
Lemma group_insert (k0 v0 : cell) (g : cell -> list cell) (ks : list cell) :
  NoDup ks -> In k0 ks ->
  Permutation (List.concat (map (fun k => (if cell_eqb k k0 then [v0] else []) ++ g k) ks))
              (v0 :: List.concat (map g ks)).
Proof.
  induction 1 as [| k ks Hk Hnd IH]; [intros [] |].
  assert (Hout : forall l, ~ In k0 l ->
            map (fun k => (if cell_eqb k k0 then [v0] else []) ++ g k) l = map g l).
  { intros l Hn. apply map_ext_in. intros x Hx.
    destruct (cell_eqb x k0) eqn:E; [| reflexivity].
    apply cell_eqb_eq in E. subst. contradiction. }
  intros [-> | Hin]; simpl.
  - rewrite cell_eqb_refl, Hout by assumption. apply Permutation_refl.
  - destruct (cell_eqb k k0) eqn:E.
    + apply cell_eqb_eq in E. subst. contradiction.
    + simpl. eapply Permutation_trans; [apply Permutation_app_head, IH, Hin |].
      apply Permutation_sym, Permutation_middle.
Qed.

Lemma groups_partition (ks : list cell) (kvs : list (cell * cell)) :
  NoDup ks -> (forall kv, In kv kvs -> In (fst kv) ks) ->
  Permutation
    (List.concat (map (fun k => map snd (filter (fun kv => cell_eqb k (fst kv)) kvs)) ks))
    (map snd kvs).
Proof.
  intros Hnd. induction kvs as [| [k0 v0] kvs IH]; intros Hcov.
  - simpl. clear. induction ks as [| k ks IHk]; simpl; [constructor | exact IHk].
  - simpl map at 2.
    eapply Permutation_trans;
      [| apply perm_skip, IH; intros kv Hkv; apply Hcov; now right].
    eapply Permutation_trans;
      [| apply (@group_insert k0 v0
                  (fun k => map snd (filter (fun kv => cell_eqb k (fst kv)) kvs)) ks Hnd);
         apply (Hcov (k0, v0)); now left].
    apply Permutation_refl'. f_equal. apply map_ext. intros k. simpl.
    destruct (cell_eqb k k0); reflexivity.
Qed.

Lemma present_nums_app (l1 l2 : list cell) :
  present_nums (l1 ++ l2) = present_nums l1 ++ present_nums l2.
Proof.
  induction l1 as [| c l1 IH]; simpl; [reflexivity |].
  destruct c; simpl; congruence.
Qed.

Lemma present_nums_perm (l1 l2 : list cell) :
  Permutation l1 l2 -> Permutation (present_nums l1) (present_nums l2).
Proof.
  induction 1 as [| c l1 l2 _ IH | c1 c2 l | l1 l2 l3 _ IH1 _ IH2].
  - constructor.
  - destruct c; simpl; auto.
  - destruct c1, c2; simpl; try apply Permutation_refl. apply perm_swap.
  - eapply Permutation_trans; eassumption.
Qed.

Lemma sum_cells_concat (ls : list (list cell)) :
  sum_cells (List.concat ls) = Qc_sum (map sum_cells ls).
Proof.
  unfold sum_cells. induction ls as [| l ls IH]; simpl; [reflexivity |].
  now rewrite present_nums_app, Qc_sum_app, IH.
Qed.

Lemma float_insert_total_perm (x : cell * float) (l : list (cell * float)) :
  Permutation (x :: l) (Float64.insert_total x l).
Proof.
  induction l as [| y l IH]; simpl; [apply Permutation_refl |].
  destruct (snd x <=? snd y)%float; [apply Permutation_refl |].
  eapply Permutation_trans; [apply perm_swap |]. now apply perm_skip.
Qed.

Lemma float_sort_values_desc_perm (l : list (cell * float)) :
  Permutation l (Float64.sort_values_desc l).
Proof.
  unfold Float64.sort_values_desc.
  eapply Permutation_trans; [apply Permutation_rev |].
  eapply Permutation_trans; [| apply Permutation_rev].
  induction (rev l) as [| x r IH]; simpl; [constructor |].
  eapply Permutation_trans; [apply perm_skip, IH | apply float_insert_total_perm].
Qed.

(** What a returned float rollup is made of. *)
Lemma float_rollup_shape (sum64 : float_sum) (df : DataFrame) (cat : Series)
      (rows : list (cell * float)) :
  get_col "category" df = Some cat ->
  Float64.analyze_sales_by_category sum64 df = Ok rows ->
  exists amount,
    get_col "total_amount" df = Some amount
    /\ rows = Float64.sort_values_desc
                (map (fun k => (k, sum64 (floats (group_of k (values cat) (values amount)))))
                     (sort_keys (values cat))).
Proof.
  intros Hcat. unfold Float64.analyze_sales_by_category, getitem. rewrite Hcat.
  destruct (get_col "total_amount" df) as [amount |]; [| discriminate].
  destruct (get_col "quantity" df) as [qty |]; [| discriminate].
  destruct (get_col "order_id" df) as [ids |]; [| discriminate].
  simpl. intros [= <-]. exists amount. split; reflexivity.
Qed.

(** One order of category B and two of category A, of 0.1, 0.2 and 0.3. *)
Definition tenths (n : Z) : cell := Num (Q2Qc (n # 10)).

Definition tenths_by_category : DataFrame :=
  [ ("order_id", column Number [num 1; num 2; num 3]);
    ("customer_id", column Number [num 7; num 8; num 7]);
    ("product_id", column Number [num 4; num 5; num 4]);
    ("category", column Object [Str "B"; Str "A"; Str "A"]);
    ("quantity", column Number [num 1; num 2; num 1]);
    ("total_amount", column Number [tenths 1; tenths 2; tenths 3]) ].

(** C9, as stated, fails in float64: the rollup holds 0.2 + 0.3 = 0.5 for
    A and 0.1 for B, which add up to 0.6 in either order, while
    [total_sales] is (0.1 + 0.2) + 0.3 = 0.6000000000000001. *)
Lemma C9_counterexample :
  match Float64.analyze_sales_by_category sum_in_order tenths_by_category,
        Float64.total_sales sum_in_order tenths_by_category with
  | Ok rows, Ok total =>
      map fst rows = [Str "A"; Str "B"]
      /\ (sum_in_order (map snd rows) =? total)%float = false
      /\ (sum_in_order (rev (map snd rows)) =? total)%float = false
  | _, _ => False
  end.
Proof. vm_compute. repeat split. Qed.

(** C9, amended.  When the category column is present and has a value
    in every row, the rollup splits the [total_amount] column among its
    rows: each total is the sum of the group of its category, there is one
    row per category, and the groups laid end to end are the column
    rearranged: every cell is an addend of exactly one total.  The
    rollup's totals and [total_sales] are therefore sums of the same
    numbers, equal in exact arithmetic; as float64 sums taken in
    different orders they need not be equal. *)
Theorem C9_rollup_sums_to_total_sales
    (sum64 : float_sum) (df : DataFrame) (cat : Series)
    (rows : list (cell * float)) (total : float)
    (Hrect : rect df)
    (Hcat : get_col "category" df = Some cat)
    (Hfull : null_count (values cat) = 0)
    (Hrollup : Float64.analyze_sales_by_category sum64 df = Ok rows)
    (Hstats : Float64.total_sales sum64 df = Ok total) :
  exists amount,
    get_col "total_amount" df = Some amount
    /\ total = sum64 (floats (values amount))
    /\ (forall r, In r rows ->
          snd r = sum64 (floats (group_of (fst r) (values cat) (values amount))))
    /\ NoDup (map fst rows)
    /\ Permutation
         (List.concat (map (fun r => group_of (fst r) (values cat) (values amount)) rows))
         (values amount)
    /\ Qc_sum (map (fun r => sum_cells (group_of (fst r) (values cat) (values amount)))
                   rows)
       = sum_cells (values amount).
Proof.
  destruct (float_rollup_shape _ _ Hcat Hrollup) as (amount & Ha & ->).
  exists amount. split; [exact Ha |].
  unfold Float64.total_sales, getitem in Hstats. rewrite Ha in Hstats.
  simpl in Hstats. injection Hstats as <-. split; [reflexivity |].
  set (group := fun k => (k, sum64 (floats (group_of k (values cat) (values amount))))).
  pose proof (float_sort_values_desc_perm (map group (sort_keys (values cat)))) as Hp.
  assert (Hkeys : Permutation (sort_keys (values cat))
                    (map fst (Float64.sort_values_desc (map group (sort_keys (values cat)))))).
  { eapply Permutation_trans; [| apply Permutation_map, Hp].
    rewrite map_map. simpl. rewrite map_id. apply Permutation_refl. }
  assert (Hnd : NoDup (map fst (Float64.sort_values_desc
                                  (map group (sort_keys (values cat)))))).
  { apply (Permutation_NoDup Hkeys), sort_keys_NoDup. }
  assert (Hall : Permutation
                   (List.concat (map (fun r => group_of (fst r) (values cat) (values amount))
                              (Float64.sort_values_desc
                                 (map group (sort_keys (values cat))))))
                   (values amount)).
  { rewrite <- (map_map fst (fun k => group_of k (values cat) (values amount))).
    eapply Permutation_trans.
    - apply (@groups_partition _ (combine (values cat) (values amount)) Hnd).
      intros kv Hkv. apply (Permutation_in _ Hkeys).
      now apply In_combine_fst_notnull with (vals := values amount).
    - rewrite combine_map_snd; [apply Permutation_refl |].
      now rewrite (rect_get_col _ Hrect Hcat), (rect_get_col _ Hrect Ha). }
  split; [| split; [exact Hnd | split; [exact Hall |]]].
  - intros r Hr. apply (Permutation_in _ (Permutation_sym Hp)) in Hr.
    apply in_map_iff in Hr. destruct Hr as [k [<- _]]. reflexivity.
  - rewrite <- (map_map (fun r => group_of (fst r) (values cat) (values amount)) sum_cells).
    rewrite <- sum_cells_concat. unfold sum_cells.
    apply Qc_sum_perm, present_nums_perm, Hall.
Qed.

Lemma C9_witness :
  match Float64.analyze_sales_by_category sum_in_order tenths_by_category with
  | Ok rows =>
      Permutation
        (List.concat (map (fun r => group_of (fst r) [Str "B"; Str "A"; Str "A"]
                                 [tenths 1; tenths 2; tenths 3]) rows))
        [tenths 1; tenths 2; tenths 3]
  | Raise _ => False
  end.
Proof.
  destruct (Float64.analyze_sales_by_category sum_in_order tenths_by_category)
    as [rows | e] eqn:Hr; [| vm_compute in Hr; discriminate].
  destruct (@C9_rollup_sums_to_total_sales sum_in_order tenths_by_category
              (column Object [Str "B"; Str "A"; Str "A"]) rows
              (sum_in_order (floats [tenths 1; tenths 2; tenths 3])))
    as (amount & Ha & _ & _ & _ & Hall & _).
  - repeat constructor.
  - reflexivity.
  - reflexivity.
  - exact Hr.
  - reflexivity.
  - injection Ha as <-. exact Hall.
Defined.

(** Two categories with equal sums, the later one in the alphabet first. *)
Definition tied_categories : DataFrame :=
  [ ("order_id", column Number [num 1; num 2]);
    ("category", column Object [Str "toys"; Str "books"]);
    ("quantity", column Number [num 1; num 1]);
    ("total_amount", column Number [num 10; num 10]) ].

(** C5, as stated, fails on its tie-break: [groupby] orders the
    categories by name before the sort, so "books" precedes "toys" although
    "toys" is met first. *)
Lemma C5_counterexample :
  match SalesAnalyzer.analyze_sales_by_category tied_categories with
  | Ok rows =>
      map category rows = [Str "books"; Str "toys"]
      /\ ~ ties_in_first_seen_order [Str "toys"; Str "books"] rows
  | Raise _ => False
  end.
Proof.
  vm_compute SalesAnalyzer.analyze_sales_by_category.
  split; [reflexivity |].
  intros H.
  specialize (H 0 1 {| category := NaN; total_amount := qz 0;
                       quantity := qz 0; order_count := 0 |}).
  simpl in H. assert (1 < 0) as Habs; [| lia].
  apply H; [lia |]. apply Qc_is_canon. reflexivity.
Qed.

(** C5, amended.  The category rollup has one row for each category
    present in the table and is sorted descending by summed amount.  The
    place of categories with equal sums is no part of the statement: the
    groups reach the sort in ascending order of the category, not as first
    met, and the sort keeps no promise about equal sums. *)
Theorem C5_rollup_sorted_descending
    (df : DataFrame) (cat : Series) (rows : list CategoryRow)
    (Hcat : get_col "category" df = Some cat)
    (Hrollup : SalesAnalyzer.analyze_sales_by_category df = Ok rows) :
  StronglySorted (fun a b => (total_amount b <= total_amount a)%Qc) rows
  /\ (forall k, In k (map category rows) <-> In k (values cat) /\ k <> NaN)
  /\ NoDup (map category rows).
Proof.
  destruct (rollup_shape _ Hcat Hrollup) as (amount & qty & ids & Ha & ->).
  set (group := fun k =>
                  {| category := k;
                     total_amount := sum_cells (group_of k (values cat) (values amount));
                     quantity := sum_cells (group_of k (values cat) (values qty));
                     order_count := count_cells (group_of k (values cat) (values ids)) |}).
  assert (Hs : StronglySorted rollup_order (sort_values_desc (map group (sort_keys (values cat))))).
  { apply sort_values_desc_sorted, StronglySorted_map.
    exact (sort_keys_sorted (values cat)). }
  assert (Hp : Permutation (sort_keys (values cat))
                 (map category (sort_values_desc (map group (sort_keys (values cat)))))).
  { eapply Permutation_trans;
      [| apply Permutation_map, sort_values_desc_perm].
    rewrite map_map. simpl. rewrite map_id. apply Permutation_refl. }
  split; [| split].
  - clear -Hs. induction Hs as [| a l _ IH Ha]; constructor; [assumption |].
    eapply Forall_impl; [| exact Ha]. unfold rollup_order.
    intros b [Hlt | [Heq _]]; [now apply Qclt_le_weak | rewrite Heq; apply Qcle_refl].
  - intros k. split.
    + intros Hin. apply (Permutation_in k (Permutation_sym Hp)) in Hin.
      apply In_sort_keys in Hin. destruct Hin as [Hin Hn].
      split; [assumption |]. intros ->. discriminate.
    + intros [Hin Hn]. apply (Permutation_in k Hp). apply In_sort_keys.
      split; [assumption |]. now destruct k.
  - apply (Permutation_NoDup Hp), sort_keys_NoDup.
Qed.

Lemma C5_witness :
  match SalesAnalyzer.analyze_sales_by_category tied_categories with
  | Ok rows => StronglySorted (fun a b => (total_amount b <= total_amount a)%Qc) rows
  | Raise _ => False
  end.
Proof.
  destruct (SalesAnalyzer.analyze_sales_by_category tied_categories) as [rows | e] eqn:Hr;
    [| vm_compute in Hr; discriminate].
  apply (@C5_rollup_sorted_descending tied_categories
           (column Object [Str "toys"; Str "books"]) rows).
  - reflexivity.
  - exact Hr.
Defined.

(* ------------------------------------------------------------------ *)
(** *** Monthly trend *)

Lemma get_col_set_col_same (name : string) (s : Series) (df : DataFrame) :
  get_col name (set_col name s df) = Some s.
Proof.
  induction df as [| [n a] df IH]; simpl.
  - now rewrite String.eqb_refl.
  - destruct (String.eqb name n) eqn:E; simpl; rewrite E; auto.
Qed.

Lemma get_col_set_col_other (name other : string) (s : Series) (df : DataFrame) :
  other <> name -> get_col other (set_col name s df) = get_col other df.
Proof.
  intros Hne. induction df as [| [n a] df IH]; simpl.
  - apply String.eqb_neq in Hne. now rewrite Hne.
  - destruct (String.eqb name n) eqn:E; simpl.
    + apply String.eqb_eq in E. subst n.
      apply String.eqb_neq in Hne. now rewrite Hne.
    + now rewrite IH.
Qed.


(** What a successful [analyze_monthly_trends] returns: nothing without an
    [order_date] column, the grouped months with their growth otherwise. *)
Lemma trend_shape (df df' : DataFrame) (trend : list MonthRow) :
  SalesAnalyzer.analyze_monthly_trends df = (df', Ok trend) ->
  trend = []
  \/ exists keys amount qty customers ids,
       trend = SalesAnalyzer.with_growth
                 (SalesAnalyzer.monthly_groups keys amount qty customers ids).
Proof.
  unfold SalesAnalyzer.analyze_monthly_trends.
  destruct (get_col "order_date" df) as [dates |]; [| intros [= _ <-]; now left].
  destruct (dt dates); try (intros [= _ H]; discriminate).
  unfold getitem.
  destruct (get_col "month_year" _) as [keys |]; [| intros [=]].
  destruct (get_col "total_amount" _) as [amount |]; [| intros [=]].
  destruct (get_col "quantity" _) as [qty |]; [| intros [=]].
  destruct (get_col "customer_id" _) as [customers |]; [| intros [=]].
  destruct (get_col "order_id" _) as [ids |]; [| intros [=]].
  simpl. intros [= _ <-]. right. repeat eexists.
Qed.

(** Two months; the first sums to zero. *)
Definition zero_then_sales : DataFrame :=
  [ ("order_id", column Number [num 1; num 2; num 3]);
    ("customer_id", column Number [num 7; num 8; num 7]);
    ("quantity", column Number [num 1; num 1; num 2]);
    ("total_amount", column Number [num 10; num (-10); num 5]);
    ("order_date", column Datetime [Ts 2024 1 5; Ts 2024 1 9; Ts 2024 2 3]) ].

(** The months of the float trend, their sums and their growth rates. *)
Lemma float_pct_change_from_length (prev : float) (l : list float) :
  List.length (Float64.pct_change_from prev l) = List.length l.
Proof. revert prev; induction l as [| x l IH]; intros prev; simpl; congruence. Qed.

Lemma float_pct_change_from_nth (prev : float) (l : list float) (i : nat) (d : float) :
  S i < List.length l ->
  nth (S i) (Float64.pct_change_from prev l) d = (nth (S i) l d / nth i l d - 1)%float.
Proof.
  revert prev i; induction l as [| x l IH]; intros prev i; simpl List.length; [lia |].
  intros Hi. destruct l as [| y l]; [simpl in Hi; lia |].
  destruct i as [| i]; [reflexivity |].
  change (nth (S (S i)) (Float64.pct_change_from prev (x :: y :: l)) d)
    with (nth (S i) (Float64.pct_change_from x (y :: l)) d).
  rewrite IH by (simpl in *; lia). reflexivity.
Qed.

Lemma float_growth_length (sums : list (cell * float)) :
  List.length sums
  = List.length (map (fun g => (g * 100)%float) (Float64.pct_change (map snd sums))).
Proof.
  unfold Float64.pct_change.
  now rewrite length_map, float_pct_change_from_length, length_map.
Qed.

Lemma float_with_growth_months (sums : list (cell * float)) :
  map Float64.month_year (Float64.with_growth sums) = map fst sums.
Proof.
  unfold Float64.with_growth. rewrite map_map. simpl.
  rewrite <- (map_map fst fst), combine_map_fst; [reflexivity |].
  apply float_growth_length.
Qed.

Lemma float_with_growth_totals (sums : list (cell * float)) :
  map Float64.total_amount (Float64.with_growth sums) = map snd sums.
Proof.
  unfold Float64.with_growth. rewrite map_map. simpl.
  rewrite <- (map_map fst snd), combine_map_fst; [reflexivity |].
  apply float_growth_length.
Qed.

Lemma float_with_growth_rates (sums : list (cell * float)) :
  map Float64.growth_rate (Float64.with_growth sums)
  = map (fun g => (g * 100)%float) (Float64.pct_change (map snd sums)).
Proof.
  unfold Float64.with_growth. rewrite map_map. simpl.
  rewrite <- (map_map snd (fun g => g)), map_id, combine_map_snd; [reflexivity |].
  apply float_growth_length.
Qed.

Lemma float_trend_shape (sum64 : float_sum) (df df' : DataFrame)
      (trend : list Float64.MonthRow) :
  Float64.analyze_monthly_trends sum64 df = (df', Ok trend) ->
  trend = []
  \/ exists keys amount,
       trend = Float64.with_growth
                 (map (fun k => (k, sum64 (floats (group_of k keys amount))))
                      (sort_keys keys)).
Proof.
  unfold Float64.analyze_monthly_trends.
  destruct (get_col "order_date" df) as [dates |]; [| intros [= _ <-]; now left].
  destruct (dt dates); try (intros [= _ H]; discriminate).
  unfold getitem.
  destruct (get_col "month_year" _) as [keys |]; [| intros [=]].
  destruct (get_col "total_amount" _) as [amount |]; [| intros [=]].
  destruct (get_col "quantity" _) as [qty |]; [| intros [=]].
  destruct (get_col "customer_id" _) as [customers |]; [| intros [=]].
  destruct (get_col "order_id" _) as [ids |]; [| intros [=]].
  simpl. intros [= _ <-]. right. repeat eexists.
Qed.

(** What IEEE 754 makes of the growth formula at its edges. *)
Lemma growth_over_nan (x : float) : ((x / nan - 1) * 100)%float = nan.
Proof.
  apply Prim2SF_inj. rewrite mul_spec, sub_spec, div_spec.
  change (Prim2SF nan) with S754_nan.
  unfold SF64div, SFdiv. destruct (Prim2SF x); reflexivity.
Qed.

Lemma growth_over_zero (cur : float) :
  ((0 <? cur)%float = true -> ((cur / 0 - 1) * 100)%float = infinity)
  /\ ((cur <? 0)%float = true -> ((cur / 0 - 1) * 100)%float = neg_infinity)
  /\ ((cur =? 0)%float = true -> ((cur / 0 - 1) * 100)%float = nan).
Proof.
  rewrite ltb_spec, ltb_spec, eqb_spec.
  change (Prim2SF 0) with (S754_zero false).
  repeat split; intros H; apply Prim2SF_inj;
    rewrite mul_spec, sub_spec, div_spec;
    change (Prim2SF 0) with (S754_zero false);
    change (Prim2SF 1) with (S754_finite false 4503599627370496 (-52));
    change (Prim2SF 100) with (S754_finite false 7036874417766400 (-46));
    destruct (Prim2SF cur) as [s | s | | s m e]; try discriminate H;
    destruct s; try discriminate H; reflexivity.
Qed.

Lemma float_growth_first (sums : list (cell * float)) (r : Float64.MonthRow)
      (rest : list Float64.MonthRow) :
  Float64.with_growth sums = r :: rest -> Float64.growth_rate r = nan.
Proof.
  intros H. pose proof (float_with_growth_rates sums) as Hg. rewrite H in Hg.
  destruct sums as [| [k x] sums]; [discriminate |].
  simpl in Hg. injection Hg as -> _. apply growth_over_nan.
Qed.

Lemma float_growth_next (sums : list (cell * float)) (d : Float64.MonthRow) (i : nat) :
  let trend := Float64.with_growth sums in
  S i < List.length trend ->
  Float64.growth_rate (nth (S i) trend d)
  = ((Float64.total_amount (nth (S i) trend d) / Float64.total_amount (nth i trend d) - 1)
     * 100)%float.
Proof.
  intros trend Hi.
  assert (Hlen : List.length (map snd sums) = List.length trend).
  { rewrite <- (float_with_growth_totals sums). apply length_map. }
  rewrite <- (map_nth Float64.growth_rate), <- !(map_nth Float64.total_amount).
  unfold trend at 1 2 3. rewrite float_with_growth_rates, float_with_growth_totals.
  rewrite (nth_indep _ _ (Float64.total_amount d * 100)%float)
    by (rewrite length_map; unfold Float64.pct_change;
        rewrite float_pct_change_from_length; lia).
  rewrite (map_nth (fun g => (g * 100)%float)).
  unfold Float64.pct_change. now rewrite float_pct_change_from_nth by lia.
Qed.

(** Two months of one order each, of 3 and then of 1. *)
Definition three_then_one : DataFrame :=
  [ ("order_id", column Number [num 1; num 2]);
    ("customer_id", column Number [num 7; num 8]);
    ("quantity", column Number [num 1; num 1]);
    ("total_amount", column Number [num 3; num 1]);
    ("order_date", column Datetime [Ts 2024 1 5; Ts 2024 2 3]) ].

(** C2, as stated, fails twice.  On a zero previous total the growth
    rate is an infinity, not null; and on a non-zero one it is
    (cur / prev - 1) * 100 with each step rounded, which is not always the
    double that (cur - prev) / prev * 100 comes to: from 3 to 1 the code
    holds -66.66666666666667 where that formula gives
    -66.66666666666666. *)
Lemma C2_counterexample :
  match snd (SalesAnalyzer.analyze_monthly_trends zero_then_sales) with
  | Ok [january; february] =>
      m_total_amount january = qz 0 /\ growth_rate february = PInf
  | _ => False
  end
  /\ match snd (Float64.analyze_monthly_trends sum_in_order zero_then_sales) with
     | Ok [january; february] =>
         Float64.total_amount january = 0%float
         /\ Float64.growth_rate february = infinity
     | _ => False
     end
  /\ match snd (Float64.analyze_monthly_trends sum_in_order three_then_one) with
     | Ok [january; february] =>
         (Float64.growth_rate february
          =? (Float64.total_amount february - Float64.total_amount january)
             / Float64.total_amount january * 100)%float = false
     | _ => False
     end.
Proof.
  split; [| split].
  - vm_compute. split; [apply Qc_is_canon |]; reflexivity.
  - vm_compute. split; reflexivity.
  - vm_compute. reflexivity.
Qed.

(** C2, amended.  The monthly trend is in ascending order of month; the
    first bucket's growth rate is null (NaN); for every later bucket it
    is the double (cur / prev - 1) * 100, each of the three operations
    rounded; with a previous total of zero that is +infinity for a
    positive, -infinity for a negative and NaN for a zero current total.
    No total is taken to be NaN (where one is, older versions of pandas
    fill it from the month before dividing). *)
Theorem C2_growth_rate
    (sum64 : float_sum) (df df' : DataFrame) (trend : list Float64.MonthRow)
    (Hrun : Float64.analyze_monthly_trends sum64 df = (df', Ok trend))
    (Hnum : forallb (fun r => negb (is_nan (Float64.total_amount r))) trend = true) :
  StronglySorted clt (map Float64.month_year trend)
  /\ (forall r rest, trend = r :: rest -> Float64.growth_rate r = nan)
  /\ (forall i d, S i < List.length trend ->
        let prev := Float64.total_amount (nth i trend d) in
        let cur := Float64.total_amount (nth (S i) trend d) in
        let growth := Float64.growth_rate (nth (S i) trend d) in
        growth = ((cur / prev - 1) * 100)%float
        /\ (prev = 0%float ->
            ((0 <? cur)%float = true -> growth = infinity)
            /\ ((cur <? 0)%float = true -> growth = neg_infinity)
            /\ ((cur =? 0)%float = true -> growth = nan))).
Proof.
  destruct (float_trend_shape _ _ Hrun) as [-> | (keys & amount & ->)].
  - split; [constructor |]. split; [discriminate |]. simpl. intros; lia.
  - split; [| split].
    + rewrite float_with_growth_months, map_map. simpl. rewrite map_id.
      apply sort_keys_sorted.
    + intros r rest. apply float_growth_first.
    + intros i d Hi prev cur growth. unfold growth, prev, cur.
      rewrite (float_growth_next _ d Hi). split; [reflexivity |].
      intros ->. apply growth_over_zero.
Qed.

Lemma C2_witness :
  exists january february,
    snd (Float64.analyze_monthly_trends sum_in_order zero_then_sales)
    = Ok [january; february]
    /\ Float64.total_amount january = 0%float
    /\ Float64.growth_rate february = infinity.
Proof.
  destruct (Float64.analyze_monthly_trends sum_in_order zero_then_sales)
    as [df' r] eqn:Hr.
  assert (Hs : r = Ok [ {| Float64.month_year := Per 2024 1;
                           Float64.total_amount := 0%float;
                           Float64.growth_rate := nan |};
                        {| Float64.month_year := Per 2024 2;
                           Float64.total_amount := 5%float;
                           Float64.growth_rate := infinity |} ]).
  { change r with (snd (df', r)). rewrite <- Hr. vm_compute. reflexivity. }
  subst r. do 2 eexists. split; [reflexivity |]. split; [reflexivity |].
  destruct (@C2_growth_rate sum_in_order _ _ _ Hr eq_refl) as (_ & _ & Hnext).
  destruct (Hnext 0 {| Float64.month_year := NaN; Float64.total_amount := 0%float;
                       Float64.growth_rate := nan |}) as [_ Hz]; [simpl; lia |].
  exact (proj1 (Hz eq_refl) eq_refl).
Defined.

(* ------------------------------------------------------------------ *)
(** *** Basic statistics *)

(** A table read from a file that has a header and no rows. *)
Definition header_only : DataFrame :=
  [ ("order_id", column Object []);
    ("customer_id", column Object []);
    ("product_id", column Object []);
    ("category", column Object []);
    ("quantity", column Object []);
    ("total_amount", column Object []);
    ("order_date", column Datetime []) ].

(** The same without a date column. *)
Definition header_only_undated : DataFrame :=
  [ ("order_id", column Object []);
    ("customer_id", column Object []);
    ("product_id", column Object []);
    ("category", column Object []);
    ("quantity", column Object []);
    ("total_amount", column Object []) ].

Definition zero_rows (df : DataFrame) : Prop :=
  Forall (fun c => values (snd c) = []) df.

Lemma zero_rows_get_col (name : string) (df : DataFrame) (s : Series) :
  zero_rows df -> get_col name df = Some s -> values s = [].
Proof.
  intros Hz Hg. destruct (get_col_In _ _ Hg) as [n Hin].
  unfold zero_rows in Hz. rewrite Forall_forall in Hz. exact (Hz _ Hin).
Qed.

Lemma zero_rows_len (df : DataFrame) : zero_rows df -> len df = 0.
Proof. destruct 1 as [| [n s] df Hs _]; simpl in *; [reflexivity | now rewrite Hs]. Qed.

(** C3, as stated, fails: on a table without rows that has an
    [order_date] column the minimum date is NaT and formatting it raises;
    and where the call returns, [average_order] is the float NaN. *)
Lemma C3_counterexample :
  zero_rows header_only
  /\ SalesAnalyzer.calculate_basic_stats header_only
     = Raise (ValueError "NaTType does not support strftime")
  /\ (forall stats,
        SalesAnalyzer.calculate_basic_stats header_only_undated = Ok stats ->
        dict_get "average_order" stats = Some (PyFloat FNaN)).
Proof.
  split; [repeat constructor |]. split; [reflexivity |].
  intros stats H. vm_compute in H. injection H as <-. reflexivity.
Qed.

(** The monthly trend of a table without rows is empty also when the
    table has a date column. *)
Lemma trend_of_no_rows (df df' : DataFrame) (trend : list MonthRow) :
  zero_rows df ->
  SalesAnalyzer.analyze_monthly_trends df = (df', Ok trend) -> trend = [].
Proof.
  intros Hz. unfold SalesAnalyzer.analyze_monthly_trends.
  destruct (get_col "order_date" df) as [dates |] eqn:Hd; [| now intros [= _ <-]].
  destruct (dt dates); try (intros [= _ H]; discriminate).
  unfold getitem. rewrite get_col_set_col_same.
  destruct (get_col "total_amount" _) as [amount |]; [| intros [=]].
  destruct (get_col "quantity" _) as [qty |]; [| intros [=]].
  destruct (get_col "customer_id" _) as [customers |]; [| intros [=]].
  destruct (get_col "order_id" _) as [ids |]; [| intros [=]].
  simpl. rewrite (zero_rows_get_col _ Hz Hd). now intros [= _ <-].
Qed.

(** C3, amended.  On a table without rows, the basic statistics of a
    table that has the columns [total_amount], [customer_id] and
    [product_id] and no [order_date] column are returned with
    [total_sales = 0], [total_orders = 0], no customers and products, and
    [average_order] the float NaN; the category rollup and the monthly
    trend are empty whenever they are returned, and they are returned when
    the column they group by is absent. *)
Theorem C3_statistics_of_no_rows (df : DataFrame) (Hzero : zero_rows df) :
  (forall amount customers products,
     get_col "total_amount" df = Some amount ->
     get_col "customer_id" df = Some customers ->
     get_col "product_id" df = Some products ->
     get_col "order_date" df = None ->
     SalesAnalyzer.calculate_basic_stats df
     = Ok [ ("total_sales", PyFloat (Fin (qz 0)));
            ("average_order", PyFloat FNaN);
            ("total_orders", PyInt 0);
            ("unique_customers", PyInt 0);
            ("unique_products", PyInt 0) ])
  /\ (forall rows, SalesAnalyzer.analyze_sales_by_category df = Ok rows -> rows = [])
  /\ (get_col "category" df = None -> SalesAnalyzer.analyze_sales_by_category df = Ok [])
  /\ (forall df' trend,
        SalesAnalyzer.analyze_monthly_trends df = (df', Ok trend) -> trend = [])
  /\ (get_col "order_date" df = None ->
      SalesAnalyzer.analyze_monthly_trends df = (df, Ok [])).
Proof.
  split; [| split; [| split; [| split]]].
  - intros amount customers products Hamount Hcustomers Hproducts Hdates.
    unfold SalesAnalyzer.calculate_basic_stats, getitem.
    rewrite Hamount, Hcustomers, Hproducts, Hdates. simpl.
    rewrite (zero_rows_get_col _ Hzero Hamount), (zero_rows_get_col _ Hzero Hcustomers),
      (zero_rows_get_col _ Hzero Hproducts), (zero_rows_len Hzero).
    reflexivity.
  - intros rows Hr. destruct (get_col "category" df) as [cat |] eqn:Hc.
    + destruct (rollup_shape _ Hc Hr) as (a & q & i & _ & ->).
      now rewrite (zero_rows_get_col _ Hzero Hc).
    + unfold SalesAnalyzer.analyze_sales_by_category in Hr. rewrite Hc in Hr. congruence.
  - intros Hc. unfold SalesAnalyzer.analyze_sales_by_category. now rewrite Hc.
  - intros df' trend. now apply trend_of_no_rows.
  - intros Hdates. unfold SalesAnalyzer.analyze_monthly_trends. now rewrite Hdates.
Qed.

Lemma header_only_undated_zero_rows : zero_rows header_only_undated.
Proof. repeat constructor. Qed.

Lemma C3_witness :
  SalesAnalyzer.calculate_basic_stats header_only_undated
  = Ok [ ("total_sales", PyFloat (Fin (qz 0)));
         ("average_order", PyFloat FNaN);
         ("total_orders", PyInt 0);
         ("unique_customers", PyInt 0);
         ("unique_products", PyInt 0) ].
Proof.
  apply (proj1 (C3_statistics_of_no_rows header_only_undated_zero_rows))
    with (amount := column Object []) (customers := column Object [])
         (products := column Object []); reflexivity.
Defined.

(** Orders that carry no customer id. *)
Definition orders_without_customer : DataFrame :=
  [ ("order_id", column Number [num 1; num 2]);
    ("product_id", column Number [num 4; num 5]);
    ("total_amount", column Number [num 10; num 25]) ].

(** C4, as stated, fails: without a [customer_id] column the call
    raises [KeyError], it does not leave the field out. *)
Lemma C4_counterexample :
  get_col "customer_id" orders_without_customer = None
  /\ SalesAnalyzer.calculate_basic_stats orders_without_customer
     = Raise (KeyError "customer_id").
Proof. split; reflexivity. Qed.

(** C4, amended.  [calculate_basic_stats] needs all three of
    [total_amount], [customer_id] and [product_id]: when one of them is
    absent the call raises [KeyError] for the first one missing, and
    whenever it returns, [unique_customers] is in the result, the number
    of distinct customer ids. *)
Theorem C4_statistics_need_their_columns (df : DataFrame) :
  (get_col "total_amount" df = None ->
   SalesAnalyzer.calculate_basic_stats df = Raise (KeyError "total_amount"))
  /\ (get_col "total_amount" df <> None -> get_col "customer_id" df = None ->
      SalesAnalyzer.calculate_basic_stats df = Raise (KeyError "customer_id"))
  /\ (get_col "total_amount" df <> None -> get_col "customer_id" df <> None ->
      get_col "product_id" df = None ->
      SalesAnalyzer.calculate_basic_stats df = Raise (KeyError "product_id"))
  /\ (forall stats, SalesAnalyzer.calculate_basic_stats df = Ok stats ->
        exists customers,
          get_col "customer_id" df = Some customers
          /\ dict_get "unique_customers" stats = Some (PyInt (nunique (values customers)))).
Proof.
  unfold SalesAnalyzer.calculate_basic_stats at 1 2 3. unfold getitem.
  split; [| split; [| split]].
  - now intros ->.
  - destruct (get_col "total_amount" df); [| congruence]. now intros _ ->.
  - destruct (get_col "total_amount" df); [| congruence].
    destruct (get_col "customer_id" df); [| congruence]. now intros _ _ ->.
  - intros stats H.
    destruct (stats_shape _ H) as (a & c & p & rest & _ & Hc & _ & ->).
    exists c. split; [assumption | reflexivity].
Qed.

(* ------------------------------------------------------------------ *)
(** *** The frame after the monthly trend, and the data sample *)


Lemma trend_frame (df : DataFrame) :
  fst (SalesAnalyzer.analyze_monthly_trends df) = df
  \/ exists s, fst (SalesAnalyzer.analyze_monthly_trends df) = set_col "month_year" s df.
Proof.
  unfold SalesAnalyzer.analyze_monthly_trends.
  destruct (get_col "order_date" df) as [dates |]; [| now left].
  destruct (dt dates); simpl; eauto.
Qed.

Lemma report_sample (df : DataFrame) (sample : DataFrame) :
  In (SampleData sample) (snd (fst (SalesAnalyzer.generate_report df))) ->
  sample = head 1000 (fst (SalesAnalyzer.analyze_monthly_trends df)).
Proof.
  assert (Hno : forall A (mk : list A -> sheet) rows,
             (forall r, mk r <> SampleData sample) ->
             ~ In (SampleData sample) (SalesAnalyzer.sheet_unless_empty mk rows)).
  { intros A mk [| r rows] Hmk; simpl; [tauto |]. intros [H | []]. exact (Hmk _ H). }
  unfold SalesAnalyzer.generate_report.
  destruct (SalesAnalyzer.calculate_basic_stats df) as [stats | e]; simpl; [| tauto].
  destruct (SalesAnalyzer.analyze_monthly_trends df) as [df1 [monthly | e]]; simpl.
  - assert (Hm : ~ In (SampleData sample)
                    (SalesAnalyzer.sheet_unless_empty MonthlyTrends monthly))
      by (apply Hno; discriminate).
    destruct (SalesAnalyzer.analyze_sales_by_category df1) as [cats | e]; simpl.
    + assert (Hc : ~ In (SampleData sample)
                      (SalesAnalyzer.sheet_unless_empty CategoryAnalysis cats))
        by (apply Hno; discriminate).
      rewrite !in_app_iff. simpl.
      intuition (try discriminate; try congruence).
    + intuition (try discriminate; try congruence).
  - intros [H | []]. discriminate.
Qed.


(** Three orders in two months, with every column the report reads. *)
Definition dated_orders : DataFrame :=
  [ ("order_id", column Number [num 1; num 2; num 3]);
    ("customer_id", column Number [num 7; num 8; num 7]);
    ("product_id", column Number [num 4; num 5; num 4]);
    ("category", column Object [Str "toys"; Str "books"; Str "toys"]);
    ("quantity", column Number [num 1; num 2; num 1]);
    ("total_amount", column Number [num 10; num 25; num 40]);
    ("order_date", column Datetime [Ts 2024 1 5; Ts 2024 1 9; Ts 2024 2 3]) ].




(* ================================================================== *)
(** ** Further properties of cleaning *)

(** A text column the loop over text columns fills at all has a value. *)
Definition fillable (g : bool) (c : string * Series) : Prop :=
  dt (snd c) = Object -> needs_fill g (snd c) = true ->
  filter notnull (values (snd c)) <> [].

Lemma impute_object_ok_iff (g : bool) (df : DataFrame) :
  snd (impute_object g df) = None <-> Forall (fillable g) df.
Proof.
  induction df as [| [n s] df IH]; simpl; [split; [constructor | reflexivity] |].
  destruct (impute_object g df) as [rest e]. simpl in IH.
  destruct (dtype_eqb (dt s) Object && needs_fill g s) eqn:E.
  - apply andb_true_iff in E. destruct E as [D F]. apply dtype_eqb_eq in D.
    destruct (mode (values s)) as [| m ms] eqn:M; simpl.
    + split; [discriminate |]. intros H. inversion H as [| ? ? Hc _]; subst.
      apply mode_nil in M. exfalso. exact (Hc D F M).
    + rewrite IH. split.
      * intros H. constructor; [| assumption]. intros _ _ Hn.
        apply mode_nil in Hn. simpl in Hn. congruence.
      * intros H. now inversion H.
  - simpl. rewrite IH. split.
    + intros H. constructor; [| assumption]. intros D F. simpl in *.
      apply dtype_eqb_eq in D. rewrite D, F in E. discriminate.
    + intros H. now inversion H.
Qed.

Lemma fillable_impute_numeric (g : bool) (c : string * Series) :
  fillable g (impute_numeric g c) <-> fillable g c.
Proof.
  destruct (dtype_eqb (dt (snd c)) Number) eqn:E.
  - apply dtype_eqb_eq in E. destruct (impute_numeric_spec g c) as [_ [[Hd _] _]].
    unfold fillable. rewrite Hd, E. split; discriminate.
  - rewrite impute_numeric_other; [tauto |]. intros H.
    apply dtype_eqb_eq in H. congruence.
Qed.

Lemma impute_ok_iff (g : bool) (df : DataFrame) :
  snd (impute g df) = None <-> Forall (fillable g) df.
Proof.
  unfold impute. rewrite impute_object_ok_iff, Forall_map.
  split; intros H; (eapply Forall_impl; [| exact H]); intros c;
    apply fillable_impute_numeric.
Qed.

Lemma present_value_iff (l : list cell) :
  filter notnull l <> [] <-> exists c, In c l /\ c <> NaN.
Proof.
  split.
  - destruct (filter notnull l) as [| c p] eqn:E; [congruence |]. intros _.
    assert (Hin : In c (filter notnull l)) by (rewrite E; now left).
    apply filter_In in Hin. destruct Hin as [Hin Hn]. exists c.
    split; [assumption |]. intros ->. discriminate.
  - intros [c [Hin Hn]] E.
    assert (Hf : In c (filter notnull l)).
    { apply filter_In. split; [assumption | now destruct c]. }
    rewrite E in Hf. destruct Hf.
Qed.

(** X1.  After a cleaning that ends without an exception, no text
    column has a missing value, and neither has any numeric column that
    holds at least one number. *)
Theorem X1_cleaned_columns_are_filled (df : DataFrame) (o : outcome)
    (Ho : o = SalesAnalyzer.clean_data df \/ o = data_cleaner.clean_data df)
    (Hok : raised o = None) :
  forall n s, In (n, s) (frame o) ->
    (dt s = Object -> null_count (values s) = 0)
    /\ (dt s = Number -> present_nums (values s) <> [] -> null_count (values s) = 0).
Proof.
  assert (Hgen : exists g,
             frame o = fst (impute g (drop_duplicates df))
             /\ raised o = snd (impute g (drop_duplicates df))).
  { destruct Ho as [-> | ->]; [exists true | exists false];
      [apply analyzer_clean_data_impute | apply cleaner_clean_data_impute]. }
  destruct Hgen as [g [Hf He]]. rewrite He in Hok. rewrite Hf.
  pose proof (impute_settles g (drop_duplicates df) Hok) as Hs.
  rewrite Forall_forall in Hs. intros n s Hin. specialize (Hs _ Hin).
  unfold settled in Hs. simpl in Hs. split; intros D; rewrite D in Hs.
  - tauto.
  - intros Hp. destruct Hs; [assumption | contradiction].
Qed.

Lemma X1_witness :
  raised (SalesAnalyzer.clean_data orders_missing_id) = None
  /\ exists s,
       get_col "order_id" (frame (SalesAnalyzer.clean_data orders_missing_id)) = Some s
       /\ null_count (values s) = 0.
Proof.
  split; [vm_compute; reflexivity |].
  eexists. split; [vm_compute; reflexivity |].
  refine (proj2 (@X1_cleaned_columns_are_filled orders_missing_id
                   (SalesAnalyzer.clean_data orders_missing_id)
                   (or_introl eq_refl) _ "order_id" _ _) _ _).
  - vm_compute. reflexivity.
  - vm_compute. left. reflexivity.
  - reflexivity.
  - vm_compute. discriminate.
Defined.

(** X2.  When cleaning raises.  [SalesAnalyzer.clean_data] ends without
    an exception exactly when every text column that has a missing value
    after deduplication also has a present one; the standalone
    [clean_data] exactly when every text column has a present value after
    deduplication, whether or not anything is missing.  The only
    exception either raises is the [KeyError] of [mode()[0]]. *)
Theorem X2_cleaning_raises_on_blank_text_only (df : DataFrame) :
  (raised (SalesAnalyzer.clean_data df) = None
   <-> forall n s, In (n, s) (drop_duplicates df) -> dt s = Object ->
         0 < null_count (values s) -> exists c, In c (values s) /\ c <> NaN)
  /\ (raised (data_cleaner.clean_data df) = None
      <-> forall n s, In (n, s) (drop_duplicates df) -> dt s = Object ->
            exists c, In c (values s) /\ c <> NaN)
  /\ (forall e, raised (SalesAnalyzer.clean_data df) = Some e
                \/ raised (data_cleaner.clean_data df) = Some e -> e = KeyError "0").
Proof.
  rewrite (proj2 (analyzer_clean_data_impute df)).
  rewrite (proj2 (cleaner_clean_data_impute df)).
  rewrite !impute_ok_iff, !Forall_forall. unfold fillable, needs_fill. simpl.
  split; [| split].
  - split.
    + intros H n s Hin D Hn. apply present_value_iff.
      apply (H (n, s) Hin D). now apply Nat.ltb_lt.
    + intros H [n s] Hin D Hn. simpl in *. apply present_value_iff.
      apply (H n s Hin D). now apply Nat.ltb_lt.
  - split.
    + intros H n s Hin D. apply present_value_iff. now apply (H (n, s) Hin D).
    + intros H [n s] Hin D _. simpl in *. apply present_value_iff. now apply (H n s).
  - intros e [H | H]; now apply impute_raises in H.
Qed.

Lemma zero_rows_map_values (f : list cell -> list cell) (df : DataFrame) :
  zero_rows df -> f [] = [] -> map_values f df = df.
Proof.
  intros Hz Hf. unfold map_values.
  induction Hz as [| [n s] df Hs _ IH]; simpl; [reflexivity |].
  rewrite IH. simpl in Hs. rewrite Hs, Hf. destruct s; simpl in *. now subst.
Qed.

Lemma zero_rows_drop_duplicates (df : DataFrame) :
  zero_rows df -> drop_duplicates df = df.
Proof.
  intros Hz. unfold drop_duplicates. apply zero_rows_map_values; [assumption |].
  apply mask_filter_nil_r.
Qed.

Lemma zero_rows_fills (df df' : DataFrame) :
  zero_rows df -> frame_rel fills df df' -> df' = df.
Proof.
  intros Hz H. induction H as [| [n s] [n' s'] df df' [Hn [Hd Hv]] _ IH];
    [reflexivity |].
  inversion Hz as [| ? ? Hs Hz']; subst. simpl in *. subst n'.
  rewrite IH by assumption. rewrite Hs in Hv. inversion Hv as [E |].
  destruct s, s'; simpl in *. now subst.
Qed.

Lemma zero_rows_total_missing (df : DataFrame) :
  zero_rows df -> total_missing df = 0.
Proof.
  unfold total_missing, missing_values. rewrite map_map. simpl.
  induction 1 as [| c df Hc _ IH]; simpl; [reflexivity |].
  now rewrite Hc, IH.
Qed.

(** X3.  A table without rows.  [SalesAnalyzer.clean_data] leaves it as
    it is, reports 0 duplicates removed and does not raise.  The
    standalone [clean_data] leaves it as it is too, but raises [KeyError]
    as soon as the table has a text column (its mode is taken without
    looking whether a value is missing), and then does not print its
    closing message. *)
Theorem X3_cleaning_a_table_without_rows (df : DataFrame) (Hzero : zero_rows df) :
  SalesAnalyzer.clean_data df
  = {| frame := df; printed := [RemovedDuplicates 0]; raised := None |}
  /\ frame (data_cleaner.clean_data df) = df
  /\ ((exists n s, In (n, s) df /\ dt s = Object) ->
      raised (data_cleaner.clean_data df) = Some (KeyError "0")
      /\ printed (data_cleaner.clean_data df) = [])
  /\ ((forall n s, In (n, s) df -> dt s <> Object) ->
      raised (data_cleaner.clean_data df) = None
      /\ printed (data_cleaner.clean_data df) = [DataCleaned]).
Proof.
  assert (Hp : printed (data_cleaner.clean_data df)
               = match raised (data_cleaner.clean_data df) with
                 | None => [DataCleaned]
                 | Some _ => []
                 end).
  { unfold data_cleaner.clean_data.
    now destruct (impute false (drop_duplicates df)) as [d [e |]]. }
  split; [| split; [| split]].
  - unfold SalesAnalyzer.clean_data.
    rewrite (zero_rows_drop_duplicates Hzero), (zero_rows_total_missing Hzero).
    simpl. now rewrite Nat.sub_diag.
  - rewrite (proj1 (cleaner_clean_data_impute df)), (zero_rows_drop_duplicates Hzero).
    apply (zero_rows_fills Hzero), impute_fills.
  - intros [n [s [Hin D]]]. rewrite Hp.
    destruct (raised (data_cleaner.clean_data df)) as [e |] eqn:E.
    + split; [| reflexivity]. f_equal.
      rewrite (proj2 (cleaner_clean_data_impute df)) in E.
      now apply impute_raises in E.
    + exfalso.
      rewrite (proj2 (cleaner_clean_data_impute df)), impute_ok_iff, Forall_forall in E.
      rewrite (zero_rows_drop_duplicates Hzero) in E.
      apply (E (n, s) Hin D); [reflexivity |]. simpl.
      unfold zero_rows in Hzero. rewrite Forall_forall in Hzero.
      pose proof (Hzero (n, s) Hin) as Hs. simpl in Hs. now rewrite Hs.
  - intros Hno. rewrite Hp.
    assert (E : raised (data_cleaner.clean_data df) = None); [| now rewrite E].
    rewrite (proj2 (cleaner_clean_data_impute df)), impute_ok_iff, Forall_forall.
    intros [n s] Hin D. rewrite (zero_rows_drop_duplicates Hzero) in Hin.
    exfalso. exact (Hno n s Hin D).
Qed.

Lemma header_only_zero_rows : zero_rows header_only.
Proof. repeat constructor. Qed.

Lemma X3_witness :
  raised (data_cleaner.clean_data header_only) = Some (KeyError "0")
  /\ printed (data_cleaner.clean_data header_only) = [].
Proof.
  apply (proj1 (proj2 (proj2 (X3_cleaning_a_table_without_rows header_only_zero_rows)))).
  exists "order_id", (column Object []). split; [now left | reflexivity].
Defined.

Lemma impute_numeric_guard (c : string * Series) :
  impute_numeric true c = impute_numeric false c.
Proof.
  unfold impute_numeric, needs_fill. simpl.
  destruct (dtype_eqb (dt (snd c)) Number); simpl; [| reflexivity].
  destruct (0 <? null_count (values (snd c))) eqn:E; [reflexivity |].
  apply Nat.ltb_ge in E. rewrite fillna_no_null by lia.
  rewrite with_values_same. now destruct c.
Qed.

Lemma impute_object_guard (df : DataFrame) :
  snd (impute_object false df) = None ->
  impute_object true df = impute_object false df.
Proof.
  induction df as [| [n s] df IH]; simpl; [reflexivity |].
  unfold needs_fill at 1 2. simpl. rewrite andb_true_r.
  destruct (impute_object false df) as [rest e]. simpl in IH.
  destruct (dtype_eqb (dt s) Object) eqn:D; simpl.
  - destruct (mode (values s)) as [| m ms]; simpl; [discriminate |].
    intros ->. rewrite IH by reflexivity.
    destruct (0 <? null_count (values s)) eqn:E; [reflexivity |].
    apply Nat.ltb_ge in E. rewrite fillna_no_null by lia.
    now rewrite with_values_same.
  - intros ->. now rewrite IH.
Qed.

Lemma impute_guard (df : DataFrame) :
  snd (impute false df) = None -> impute true df = impute false df.
Proof.
  unfold impute. intros H.
  rewrite (map_ext _ _ impute_numeric_guard). now apply impute_object_guard.
Qed.

Lemma len_drop_duplicates_pos (df : DataFrame) :
  rect df -> 0 < len df -> 0 < len (drop_duplicates df).
Proof.
  intros Hr Hpos. destruct df as [| [n s] rest] eqn:E; [simpl in Hpos; lia |].
  rewrite <- E in *.
  assert (Hin : In (n, s) df) by (rewrite E; now left).
  assert (Hne : values s <> []).
  { rewrite E in Hpos. simpl in Hpos. destruct (values s); simpl in *; [lia | discriminate]. }
  pose proof (@keep_mask_nonempty df (n, s) Hr Hin Hne) as Hk.
  unfold drop_duplicates. revert Hk. generalize (map negb (duplicated df)).
  intros m Hk. rewrite E. simpl in *.
  destruct (mask_filter m (values s)); simpl; [congruence | lia].
Qed.

(** X4.  The two cleaners agree.  Whenever the standalone [clean_data]
    ends without an exception, so does [SalesAnalyzer.clean_data], and
    they leave the same table; on a table that has a row the one raises
    exactly when the other does. *)
Theorem X4_cleaners_agree (df : DataFrame) :
  (raised (data_cleaner.clean_data df) = None ->
   raised (SalesAnalyzer.clean_data df) = None
   /\ frame (SalesAnalyzer.clean_data df) = frame (data_cleaner.clean_data df))
  /\ (rect df -> 0 < len df ->
      raised (SalesAnalyzer.clean_data df) = None ->
      raised (data_cleaner.clean_data df) = None).
Proof.
  destruct (analyzer_clean_data_impute df) as [Hf He].
  destruct (cleaner_clean_data_impute df) as [Hf' He'].
  rewrite Hf, He, Hf', He'. split.
  - intros H. rewrite (impute_guard _ H). auto.
  - intros Hr Hpos. rewrite !impute_ok_iff, !Forall_forall.
    intros H [n s] Hin D _. simpl in *.
    destruct (0 <? null_count (values s)) eqn:E.
    + apply (H (n, s) Hin D). unfold needs_fill. simpl. exact E.
    + apply Nat.ltb_ge in E. rewrite filter_notnull_no_null by lia.
      pose proof (rect_drop_duplicates Hr) as Hr'.
      unfold rect in Hr'. rewrite Forall_forall in Hr'. specialize (Hr' _ Hin).
      pose proof (len_drop_duplicates_pos Hr Hpos) as Hp. simpl in Hr'.
      intros Hnil. rewrite Hnil in Hr'. simpl in Hr'. lia.
Qed.

Lemma X4_witness :
  raised (SalesAnalyzer.clean_data orders_missing_id) = None
  /\ frame (SalesAnalyzer.clean_data orders_missing_id)
     = frame (data_cleaner.clean_data orders_missing_id).
Proof.
  apply (proj1 (X4_cleaners_agree orders_missing_id)). vm_compute. reflexivity.
Defined.

(* ------------------------------------------------------------------ *)
(** *** The value a text column is filled with *)

Lemma StronglySorted_filter {A} (R : A -> A -> Prop) (f : A -> bool) (l : list A) :
  StronglySorted R l -> StronglySorted R (filter f l).
Proof.
  induction 1 as [| x l _ IH Hx]; simpl; [constructor |].
  destruct (f x); [| assumption]. constructor; [assumption |].
  apply Forall_forall. intros y Hy. apply filter_In in Hy.
  rewrite Forall_forall in Hx. now apply Hx.
Qed.

Lemma count_le_max {A} (f : A -> nat) (ks : list A) (k : A) :
  In k ks -> f k <= fold_right Nat.max 0 (map f ks).
Proof.
  induction ks as [| y ks IH]; simpl; [tauto |].
  intros [-> | Hin]; [lia |]. specialize (IH Hin). lia.
Qed.

Lemma count_of_pos (k : cell) (l : list cell) : In k l <-> 0 < count_of k l.
Proof.
  unfold count_of. induction l as [| y l IH]; simpl; [split; [tauto | lia] |].
  destruct (cell_eqb k y) eqn:E; simpl.
  - apply cell_eqb_eq in E. subst. split; [lia | now left].
  - apply cell_eqb_neq in E. rewrite <- IH. split; [intros [H | H] | ]; auto.
    congruence.
Qed.

(** The first mode: a present value, of the highest count among the
    present values, and the least of those with that count. *)
Lemma mode_hd_spec (l : list cell) (m : cell) (ms : list cell) :
  mode l = m :: ms ->
  In m l /\ m <> NaN
  /\ (forall c, c <> NaN -> count_of c l <= count_of m l)
  /\ (forall c, c <> NaN -> count_of c l = count_of m l -> c = m \/ clt m c).
Proof.
  intros Hm.
  assert (Hin : In m (mode l)) by (rewrite Hm; now left).
  unfold mode in Hin. apply filter_In in Hin. destruct Hin as [Hk Hmax].
  apply Nat.eqb_eq in Hmax. apply In_sort_keys in Hk. destruct Hk as [Hml Hn].
  assert (Hle : forall c, c <> NaN -> count_of c l <= count_of m l).
  { intros c Hc. destruct (in_dec cell_eq_dec c l) as [Hcl | Hcl].
    - rewrite Hmax. unfold max_count.
      apply (count_le_max (fun k => count_of k l)). apply In_sort_keys.
      split; [assumption | now destruct c].
    - assert (count_of c l = 0); [| lia].
      destruct (count_of c l) eqn:E; [reflexivity |].
      exfalso. apply Hcl, count_of_pos. lia. }
  split; [assumption |]. split; [intros ->; discriminate |]. split; [exact Hle |].
  intros c Hc Heq.
  assert (Hcl : In c l).
  { apply count_of_pos. rewrite Heq. now apply count_of_pos. }
  assert (Hcm : In c (mode l)).
  { unfold mode. apply filter_In. split.
    - apply In_sort_keys. split; [assumption | now destruct c].
    - apply Nat.eqb_eq. congruence. }
  pose proof (StronglySorted_filter (fun k => count_of k l =? max_count (sort_keys l) l)
                (sort_keys_sorted l)) as Hs.
  fold (mode l) in Hs. rewrite Hm in Hs, Hcm.
  destruct Hcm as [<- | Hcm]; [now left | right].
  inversion Hs as [| ? ? _ Hall]; subst. rewrite Forall_forall in Hall. now apply Hall.
Qed.

Lemma impute_object_filled (g : bool) (df : DataFrame) :
  snd (impute_object g df) = None ->
  frame_rel (fun s s' =>
               dt s = Object -> needs_fill g s = true ->
               exists m ms, mode (values s) = m :: ms
                            /\ s' = with_values s (fillna m (values s)))
            df (fst (impute_object g df)).
Proof.
  induction df as [| [n s] df IH]; simpl; [constructor |].
  destruct (impute_object g df) as [rest e]. simpl in IH.
  destruct (dtype_eqb (dt s) Object && needs_fill g s) eqn:E.
  - destruct (mode (values s)) as [| m ms] eqn:M; simpl; [discriminate |].
    intros ->. constructor; [| now apply IH]. simpl. split; [reflexivity |].
    intros _ _. exists m, ms. now rewrite M.
  - simpl. intros ->. constructor; [| now apply IH]. simpl. split; [reflexivity |].
    intros D F. apply dtype_eqb_eq in D. rewrite D, F in E. discriminate.
Qed.

Lemma impute_filled (g : bool) (df : DataFrame) :
  snd (impute g df) = None ->
  frame_rel (fun s s' =>
               dt s = Object -> needs_fill g s = true ->
               exists m ms, mode (values s) = m :: ms
                            /\ s' = with_values s (fillna m (values s)))
            df (fst (impute g df)).
Proof.
  unfold impute. intros H.
  eapply frame_rel_trans with
    (R1 := fun s s' => dt s = Object -> s' = s)
    (y := map (impute_numeric g) df);
    [| | apply impute_object_filled; exact H].
  - intros a b c Hab Hbc D F. rewrite (Hab D) in Hbc. now apply Hbc.
  - apply frame_rel_map. intros c. destruct (impute_numeric_spec g c) as [Hn [_ Hs]].
    split; [assumption |]. intros D. apply Hs. congruence.
Qed.

(** X5.  What a text column is filled with.  After a cleaning that ends
    without an exception, a text column that had missing values after
    deduplication holds one and the same value in all of them: a value
    present in the column, of the highest count, and among the values of
    that count the least in the order of the values (not the first one
    met). *)
Theorem X5_text_fill_is_least_most_frequent
    (df : DataFrame) (o : outcome) (name : string) (s : Series)
    (Ho : o = SalesAnalyzer.clean_data df \/ o = data_cleaner.clean_data df)
    (Hok : raised o = None)
    (Hcol : get_col name (drop_duplicates df) = Some s)
    (Htext : dt s = Object)
    (Hmissing : 0 < null_count (values s)) :
  exists m,
    get_col name (frame o) = Some (with_values s (fillna m (values s)))
    /\ In m (values s) /\ m <> NaN
    /\ (forall c, c <> NaN -> count_of c (values s) <= count_of m (values s))
    /\ (forall c, c <> NaN -> count_of c (values s) = count_of m (values s) ->
          c = m \/ clt m c).
Proof.
  assert (Hgen : exists g,
             frame o = fst (impute g (drop_duplicates df))
             /\ raised o = snd (impute g (drop_duplicates df))).
  { destruct Ho as [-> | ->]; [exists true | exists false];
      [apply analyzer_clean_data_impute | apply cleaner_clean_data_impute]. }
  destruct Hgen as [g [Hf He]]. rewrite He in Hok. rewrite Hf.
  destruct (frame_rel_get_col name (impute_filled g _ Hok) Hcol) as [s' [Hs' Hfill]].
  destruct Hfill as [m [ms [Hm ->]]]; [assumption | |].
  - unfold needs_fill. apply Nat.ltb_lt in Hmissing. rewrite Hmissing. apply orb_true_r.
  - exists m. split; [assumption |]. now apply mode_hd_spec with (ms := ms).
Qed.

(** Three orders; the category of the second is missing, the two given
    categories occur once each. *)
Definition orders_tied_text : DataFrame :=
  [ ("order_id", column Number [num 1; num 2; num 3]);
    ("category", column Object [Str "toys"; NaN; Str "books"]) ].

Lemma X5_witness :
  exists m,
    get_col "category" (frame (SalesAnalyzer.clean_data orders_tied_text))
    = Some (column Object (fillna m [Str "toys"; NaN; Str "books"]))
    /\ In m [Str "toys"; NaN; Str "books"] /\ m <> NaN
    /\ (forall c, c <> NaN -> count_of c [Str "toys"; NaN; Str "books"]
                              <= count_of m [Str "toys"; NaN; Str "books"])
    /\ (forall c, c <> NaN ->
          count_of c [Str "toys"; NaN; Str "books"]
          = count_of m [Str "toys"; NaN; Str "books"] -> c = m \/ clt m c).
Proof.
  apply (@X5_text_fill_is_least_most_frequent orders_tied_text
           (SalesAnalyzer.clean_data orders_tied_text) "category"
           (column Object [Str "toys"; NaN; Str "books"])).
  - left. reflexivity.
  - vm_compute. reflexivity.
  - vm_compute. reflexivity.
  - reflexivity.
  - vm_compute. lia.
Defined.

(** X6.  Deduplication alone is idempotent, never adds a row and never
    empties a table: deduplicating a deduplicated table returns it
    unchanged. *)
Theorem X6_drop_duplicates_idempotent (df : DataFrame) (Hrect : rect df) :
  drop_duplicates (drop_duplicates df) = drop_duplicates df
  /\ len (drop_duplicates df) <= len df
  /\ (0 < len df -> 0 < len (drop_duplicates df)).
Proof.
  split; [| split].
  - apply drop_duplicates_NoDup; [now apply rect_drop_duplicates |].
    rewrite rows_of_drop_duplicates by assumption. apply NoDup_kept_from.
  - rewrite <- !rows_of_length by auto using rect_drop_duplicates.
    rewrite rows_of_drop_duplicates by assumption.
    pose proof (kept_removed_length (rows_of df) []) as H.
    unfold kept_from in H. unfold duplicated. lia.
  - now apply len_drop_duplicates_pos.
Qed.

Lemma X6_witness :
  drop_duplicates (drop_duplicates orders_with_repeats)
  = drop_duplicates orders_with_repeats.
Proof. exact (proj1 (X6_drop_duplicates_idempotent orders_with_repeats_rect)). Defined.

(* ------------------------------------------------------------------ *)
(** *** The value a numeric column is filled with *)

Lemma insert_num_perm (x : Qc) (l : list Qc) : Permutation (x :: l) (insert_num x l).
Proof.
  induction l as [| y l IH]; simpl; [apply Permutation_refl |].
  destruct (Qc_leb x y); [apply Permutation_refl |].
  eapply Permutation_trans; [apply perm_swap |]. now apply perm_skip.
Qed.

Lemma sort_nums_perm (l : list Qc) : Permutation l (sort_nums l).
Proof.
  induction l as [| x l IH]; simpl; [constructor |].
  eapply Permutation_trans; [| apply insert_num_perm]. now apply perm_skip.
Qed.

Lemma insert_num_sorted (x : Qc) (l : list Qc) :
  StronglySorted Qcle l -> StronglySorted Qcle (insert_num x l).
Proof.
  induction 1 as [| y l Hs IH Hy]; simpl; [repeat constructor |].
  destruct (Qc_leb x y) eqn:E.
  - apply Qc_leb_le in E. constructor; [now constructor |].
    constructor; [assumption |].
    eapply Forall_impl; [| exact Hy]. intros z Hz. eapply Qcle_trans; eassumption.
  - apply Qc_leb_gt in E. constructor; [assumption |].
    apply Forall_forall. intros z Hz.
    apply (Permutation_in z (Permutation_sym (insert_num_perm x l))) in Hz.
    destruct Hz as [<- | Hz]; [now apply Qclt_le_weak |].
    rewrite Forall_forall in Hy. auto.
Qed.

Lemma sort_nums_sorted (l : list Qc) : StronglySorted Qcle (sort_nums l).
Proof.
  induction l as [| x l IH]; simpl; [constructor | now apply insert_num_sorted].
Qed.

Lemma sorted_firstn_le (s : list Qc) (j : nat) (d : Qc) :
  StronglySorted Qcle s -> j < List.length s ->
  Forall (fun q => (q <= nth j s d)%Qc) (firstn (S j) s).
Proof.
  intros Hs; revert j; induction Hs as [| x s Hs IH Hx]; intros j Hj; simpl in Hj; [lia |].
  destruct j as [| j].
  - simpl. constructor; [apply Qcle_refl | constructor].
  - change (firstn (S (S j)) (x :: s)) with (x :: firstn (S j) s).
    simpl nth. constructor; [| apply IH; lia].
    rewrite Forall_forall in Hx. apply Hx, nth_In. lia.
Qed.

Lemma sorted_skipn_ge (s : list Qc) (j : nat) (d : Qc) :
  StronglySorted Qcle s -> j < List.length s ->
  Forall (fun q => (nth j s d <= q)%Qc) (skipn j s).
Proof.
  intros Hs; revert j; induction Hs as [| x s Hs IH Hx]; intros j Hj; simpl in Hj; [lia |].
  destruct j as [| j]; simpl.
  - constructor; [apply Qcle_refl | assumption].
  - apply IH. lia.
Qed.

Lemma filter_length_all {A} (f : A -> bool) (l : list A) :
  Forall (fun x => f x = true) l -> List.length (filter f l) = List.length l.
Proof.
  induction 1 as [| x l Hx _ IH]; simpl; [reflexivity |]. rewrite Hx. simpl. congruence.
Qed.

Lemma filter_length_prefix {A} (f : A -> bool) (l : list A) (k : nat) :
  k <= List.length l -> Forall (fun x => f x = true) (firstn k l) ->
  k <= List.length (filter f l).
Proof.
  intros Hk H. rewrite <- (firstn_skipn k l), filter_app, length_app.
  rewrite (filter_length_all _ H), length_firstn. lia.
Qed.

Lemma filter_length_suffix {A} (f : A -> bool) (l : list A) (k : nat) :
  Forall (fun x => f x = true) (skipn k l) ->
  List.length l - k <= List.length (filter f l).
Proof.
  intros H. rewrite <- (firstn_skipn k l) at 2. rewrite filter_app, length_app.
  rewrite (filter_length_all _ H), length_skipn. lia.
Qed.

Lemma filter_length_perm {A} (f : A -> bool) (l l' : list A) :
  Permutation l l' -> List.length (filter f l) = List.length (filter f l').
Proof.
  induction 1 as [| x l l' _ IH | x y l | l l' l'' _ IH1 _ IH2]; simpl.
  - reflexivity.
  - destruct (f x); simpl; congruence.
  - destruct (f x), (f y); reflexivity.
  - congruence.
Qed.

Lemma midpoint_between (a b : Qc) :
  (a <= b)%Qc -> (a <= (a + b) / qz 2)%Qc /\ ((a + b) / qz 2 <= b)%Qc.
Proof.
  intros Hab.
  assert (H2 : (0 <= / qz 2)%Qc) by (unfold Qcle; vm_compute; discriminate).
  assert (Ha : a = ((a + a) / qz 2)%Qc).
  { change (qz 2) with (1 + 1)%Qc. field. intros H. discriminate H. }
  assert (Hb : b = ((b + b) / qz 2)%Qc).
  { change (qz 2) with (1 + 1)%Qc. field. intros H. discriminate H. }
  split.
  - rewrite Ha at 1. apply Qcmult_le_compat_r; [| exact H2].
    apply Qcplus_le_compat; [apply Qcle_refl | assumption].
  - rewrite Hb at 2. apply Qcmult_le_compat_r; [| exact H2].
    apply Qcplus_le_compat; [assumption | apply Qcle_refl].
Qed.

Lemma sorted_nth_le (s : list Qc) (i j : nat) (d : Qc) :
  StronglySorted Qcle s -> i <= j -> j < List.length s ->
  (nth i s d <= nth j s d)%Qc.
Proof.
  intros Hs; revert i j; induction Hs as [| x s Hs IH Hx]; intros i j Hij Hj;
    simpl in Hj; [lia |].
  destruct i as [| i], j as [| j]; simpl; try lia.
  - apply Qcle_refl.
  - rewrite Forall_forall in Hx. apply Hx, nth_In. lia.
  - apply IH; lia.
Qed.

(** [q] is a median of [p]: at least half of [p] is at most [q], and at
    least half is at least [q]. *)
Definition is_median (q : Qc) (p : list Qc) : Prop :=
  List.length p <= 2 * List.length (filter (fun x => Qc_leb x q) p)
  /\ List.length p <= 2 * List.length (filter (fun x => Qc_leb q x) p).

Lemma median_spec (l : list cell) :
  present_nums l <> [] ->
  exists q, median l = Num q /\ is_median q (present_nums l).
Proof.
  intros Hne. unfold median.
  set (p := present_nums l) in *. set (s := sort_nums p).
  assert (Hs : StronglySorted Qcle s) by apply sort_nums_sorted.
  assert (Hlen : List.length s = List.length p) by apply sort_nums_length.
  assert (Hperm : Permutation p s) by apply sort_nums_perm.
  assert (Hpos : 0 < List.length s).
  { rewrite Hlen. destruct p; [congruence | simpl; lia]. }
  assert (Hback : forall q,
             List.length s <= 2 * List.length (filter (fun x => Qc_leb x q) s)
             /\ List.length s <= 2 * List.length (filter (fun x => Qc_leb q x) s) ->
             is_median q p).
  { intros q. unfold is_median. now rewrite !(filter_length_perm _ Hperm), <- Hlen. }
  set (n := List.length s) in *.
  pose proof (Nat.div_mod_eq n 2) as Hdiv.
  assert (Hmod : n mod 2 < 2) by (apply Nat.mod_upper_bound; discriminate).
  destruct n as [| n'] eqn:En; [lia |]. rewrite <- En in *.
  destruct (Nat.odd n) eqn:Hodd.
  - eexists. split; [reflexivity |]. apply Hback. split.
    + assert (S (n / 2) <= List.length (filter (fun x => Qc_leb x (nth (n / 2) s (qz 0))) s));
        [| lia].
      apply filter_length_prefix; [fold n; lia |].
      eapply Forall_impl; [| apply (@sorted_firstn_le s (n / 2) (qz 0));
                              [exact Hs | fold n; lia]].
      intros x Hx. now apply Qc_leb_le.
    + assert (n - n / 2 <= List.length (filter (fun x => Qc_leb (nth (n / 2) s (qz 0)) x) s));
        [| lia].
      apply filter_length_suffix.
      eapply Forall_impl; [| apply (@sorted_skipn_ge s (n / 2) (qz 0));
                              [exact Hs | fold n; lia]].
      intros x Hx. now apply Qc_leb_le.
  - assert (Heven : n mod 2 = 0).
    { assert (He : Nat.even n = true) by (now rewrite <- Nat.negb_odd, Hodd).
      apply Nat.even_spec in He. destruct He as [m Hm].
      rewrite Hm, Nat.mul_comm. apply Nat.Div0.mod_mul. }
    set (a := nth (n / 2 - 1) s (qz 0)). set (b := nth (n / 2) s (qz 0)).
    assert (Hab : (a <= b)%Qc) by (apply sorted_nth_le; [exact Hs | lia | fold n; lia]).
    destruct (midpoint_between Hab) as [Ha Hb].
    exists ((a + b) / qz 2)%Qc. split; [reflexivity |]. apply Hback. split.
    + assert (n / 2 <= List.length (filter (fun x => Qc_leb x ((a + b) / qz 2)%Qc) s));
        [| lia].
      apply filter_length_prefix; [fold n; lia |].
      replace (n / 2) with (S (n / 2 - 1)) at 1 by lia.
      eapply Forall_impl; [| apply (@sorted_firstn_le s (n / 2 - 1) (qz 0));
                              [exact Hs | fold n; lia]].
      intros x Hx. apply Qc_leb_le. eapply Qcle_trans; [exact Hx | exact Ha].
    + assert (n - n / 2 <= List.length (filter (fun x => Qc_leb ((a + b) / qz 2)%Qc x) s));
        [| lia].
      apply filter_length_suffix.
      eapply Forall_impl; [| apply (@sorted_skipn_ge s (n / 2) (qz 0));
                              [exact Hs | fold n; lia]].
      intros x Hx. apply Qc_leb_le. eapply Qcle_trans; [exact Hb | exact Hx].
Qed.

Lemma impute_numeric_filled (g : bool) (df : DataFrame) :
  frame_rel (fun s s' =>
               dt s = Number -> needs_fill g s = true ->
               s' = with_values s (fillna (median (values s)) (values s)))
            df (fst (impute g df)).
Proof.
  unfold impute.
  eapply frame_rel_trans with
    (R1 := fun s s' =>
             (dt s = Number -> needs_fill g s = true ->
              s' = with_values s (fillna (median (values s)) (values s)))
             /\ dt s' = dt s)
    (y := map (impute_numeric g) df)
    (R2 := fun s s' => fills s s' /\ (dt s <> Object -> s' = s)).
  - intros a b c [Hab Hd] [_ Hbc] D F. rewrite <- (Hab D F). apply Hbc. congruence.
  - apply frame_rel_map. intros c. split; [apply impute_numeric_spec |]. split.
    + intros D F. unfold impute_numeric. now rewrite D, F.
    + apply impute_numeric_spec.
  - apply impute_object_spec.
Qed.

(** X7.  What a numeric column is filled with.  A numeric column that
    after deduplication has missing values and at least one number is
    filled, by both cleaners and also when the text fill raises later,
    with one and the same number in every missing cell: a median of the
    numbers present, at least half of them being at most it and at least
    half of them at least it. *)
Theorem X7_numeric_fill_is_a_median
    (df : DataFrame) (o : outcome) (name : string) (s : Series)
    (Ho : o = SalesAnalyzer.clean_data df \/ o = data_cleaner.clean_data df)
    (Hcol : get_col name (drop_duplicates df) = Some s)
    (Hnum : dt s = Number)
    (Hmissing : 0 < null_count (values s))
    (Hpresent : present_nums (values s) <> []) :
  exists q,
    get_col name (frame o) = Some (with_values s (fillna (Num q) (values s)))
    /\ is_median q (present_nums (values s)).
Proof.
  assert (Hgen : exists g, frame o = fst (impute g (drop_duplicates df))).
  { destruct Ho as [-> | ->]; [exists true | exists false];
      [apply analyzer_clean_data_impute | apply cleaner_clean_data_impute]. }
  destruct Hgen as [g Hf]. rewrite Hf.
  destruct (frame_rel_get_col name (impute_numeric_filled g _) Hcol) as [s' [Hs' Hfill]].
  destruct (median_spec _ Hpresent) as [q [Hq Hmed]].
  exists q. split; [| exact Hmed].
  rewrite Hs', Hfill, Hq; [reflexivity | exact Hnum |].
  unfold needs_fill. apply Nat.ltb_lt in Hmissing. rewrite Hmissing. apply orb_true_r.
Qed.

(** The spec's example column: 1, missing, 3, missing, 5. *)
Definition amounts_with_gaps : DataFrame :=
  [ ("order_id", column Number [num 1; num 2; num 3; num 4; num 5]);
    ("total_amount", column Number [num 1; NaN; num 3; NaN; num 5]) ].

Lemma X7_witness :
  exists q,
    get_col "total_amount" (frame (data_cleaner.clean_data amounts_with_gaps))
    = Some (column Number (fillna (Num q) [num 1; NaN; num 3; NaN; num 5]))
    /\ is_median q [qz 1; qz 3; qz 5].
Proof.
  apply (@X7_numeric_fill_is_a_median amounts_with_gaps
           (data_cleaner.clean_data amounts_with_gaps) "total_amount"
           (column Number [num 1; NaN; num 3; NaN; num 5])).
  - right. reflexivity.
  - vm_compute. reflexivity.
  - reflexivity.
  - vm_compute. lia.
  - discriminate.
Defined.

(* ================================================================== *)
(** ** Further properties of the aggregates *)

(** The cells of [vals] on the rows that have a key. *)
Definition keyed (keys vals : list cell) : list cell :=
  map snd (filter (fun kv => notnull (fst kv)) (combine keys vals)).

Lemma filter_filter {A} (f g : A -> bool) (l : list A) :
  filter f (filter g l) = filter (fun x => g x && f x) l.
Proof.
  induction l as [| x l IH]; simpl; [reflexivity |].
  destruct (g x); simpl; [destruct (f x); simpl; congruence | assumption].
Qed.

Lemma group_of_keyed (k : cell) (keys vals : list cell) :
  k <> NaN ->
  group_of k keys vals
  = map snd (filter (fun kv => cell_eqb k (fst kv))
               (filter (fun kv => notnull (fst kv)) (combine keys vals))).
Proof.
  intros Hk. unfold group_of. rewrite filter_filter. f_equal.
  apply filter_ext. intros [a v]. simpl.
  destruct (cell_eqb k a) eqn:E; [| now rewrite andb_false_r].
  apply cell_eqb_eq in E. subst a. now destruct k.
Qed.

Lemma sort_keys_notnull (keys : list cell) (k : cell) :
  In k (sort_keys keys) -> k <> NaN.
Proof. intros H. apply In_sort_keys in H. destruct H as [_ H]. intros ->. discriminate. Qed.

Lemma keyed_covered (keys vals : list cell) (kv : cell * cell) :
  In kv (filter (fun kv => notnull (fst kv)) (combine keys vals)) ->
  In (fst kv) (sort_keys keys).
Proof.
  intros H. apply filter_In in H. destruct H as [Hin Hn].
  apply In_sort_keys. split; [| assumption].
  destruct kv as [k v]. now apply in_combine_l in Hin.
Qed.

(** The sums of all groups add up to the sum over the rows with a key. *)
Lemma grouped_sums (keys vals : list cell) :
  Qc_sum (map (fun k => sum_cells (group_of k keys vals)) (sort_keys keys))
  = sum_cells (keyed keys vals).
Proof.
  unfold keyed. rewrite <- (group_sums_total (ks := sort_keys keys)).
  - f_equal. apply map_ext_in. intros k Hk.
    rewrite group_of_keyed by (now apply sort_keys_notnull with (keys := keys)).
    reflexivity.
  - apply sort_keys_NoDup.
  - apply keyed_covered.
Qed.

Definition group_count (k : cell) (kvs : list (cell * cell)) : nat :=
  count_cells (map snd (filter (fun kv => cell_eqb k (fst kv)) kvs)).

Lemma indicator_count (k0 : cell) (v : nat) (ks : list cell) :
  NoDup ks -> In k0 ks ->
  list_sum (map (fun k => if cell_eqb k k0 then v else 0) ks) = v.
Proof.
  induction 1 as [| k ks Hk Hnd IH]; [now simpl |].
  assert (Hzero : forall l, ~ In k0 l ->
            list_sum (map (fun k => if cell_eqb k k0 then v else 0) l) = 0).
  { induction l as [| y l IHl]; simpl; [reflexivity |]. intros Hn.
    destruct (cell_eqb y k0) eqn:E.
    - apply cell_eqb_eq in E. subst. tauto.
    - apply IHl. tauto. }
  intros [-> | Hin]; simpl.
  - rewrite cell_eqb_refl, Hzero by assumption. lia.
  - destruct (cell_eqb k k0) eqn:E.
    + apply cell_eqb_eq in E. subst. contradiction.
    + now rewrite IH.
Qed.

Lemma group_counts_total (ks : list cell) (kvs : list (cell * cell)) :
  NoDup ks -> (forall kv, In kv kvs -> In (fst kv) ks) ->
  list_sum (map (fun k => group_count k kvs) ks) = count_cells (map snd kvs).
Proof.
  intros Hnd. induction kvs as [| kv kvs IH]; intros Hcov.
  - unfold group_count. simpl. clear. induction ks; simpl; auto.
  - assert (Hstep : forall k,
              group_count k (kv :: kvs)
              = (if cell_eqb k (fst kv) then (if notnull (snd kv) then 1 else 0) else 0)
                + group_count k kvs).
    { intros k. unfold group_count, count_cells. simpl.
      destruct (cell_eqb k (fst kv)); simpl; [| reflexivity].
      now destruct (notnull (snd kv)). }
    rewrite (map_ext _ _ Hstep).
    assert (Hsplit : forall (f g : cell -> nat) l,
              list_sum (map (fun k => f k + g k) l)
              = list_sum (map f l) + list_sum (map g l)).
    { intros f g l. induction l as [| y l IHl]; simpl; [reflexivity |]. rewrite IHl. lia. }
    rewrite Hsplit, IH by (intros; apply Hcov; now right).
    rewrite indicator_count by (auto; apply Hcov; now left).
    unfold count_cells. simpl. destruct (notnull (snd kv)); reflexivity.
Qed.

Lemma grouped_counts (keys vals : list cell) :
  list_sum (map (fun k => count_cells (group_of k keys vals)) (sort_keys keys))
  = count_cells (keyed keys vals).
Proof.
  unfold keyed. rewrite <- (group_counts_total (ks := sort_keys keys)).
  - f_equal. apply map_ext_in. intros k Hk.
    rewrite group_of_keyed by (now apply sort_keys_notnull with (keys := keys)).
    reflexivity.
  - apply sort_keys_NoDup.
  - apply keyed_covered.
Qed.

Lemma rollup_shape_full (df : DataFrame) (cat : Series) (rows : list CategoryRow) :
  get_col "category" df = Some cat ->
  SalesAnalyzer.analyze_sales_by_category df = Ok rows ->
  exists amount qty ids,
    get_col "total_amount" df = Some amount
    /\ get_col "quantity" df = Some qty
    /\ get_col "order_id" df = Some ids
    /\ rows = sort_values_desc
                (map (fun k =>
                        {| category := k;
                           total_amount := sum_cells (group_of k (values cat) (values amount));
                           quantity := sum_cells (group_of k (values cat) (values qty));
                           order_count := count_cells (group_of k (values cat) (values ids)) |})
                     (sort_keys (values cat))).
Proof.
  intros Hc. unfold SalesAnalyzer.analyze_sales_by_category, getitem. rewrite Hc.
  destruct (get_col "total_amount" df) as [amount |]; [| discriminate].
  destruct (get_col "quantity" df) as [qty |]; [| discriminate].
  destruct (get_col "order_id" df) as [ids |]; [| discriminate].
  simpl. intros [= <-]. exists amount, qty, ids. auto.
Qed.

Lemma list_sum_perm (l l' : list nat) : Permutation l l' -> list_sum l = list_sum l'.
Proof. induction 1; simpl; lia. Qed.

(** The groups of the keys, laid end to end in any order of the keys,
    are the cells of the rows that have a key, rearranged. *)
Lemma groups_cover_keyed (ks keys vals : list cell) :
  Permutation (sort_keys keys) ks ->
  Permutation (List.concat (map (fun k => group_of k keys vals) ks)) (keyed keys vals).
Proof.
  intros Hp.
  assert (Hnd : NoDup ks) by (apply (Permutation_NoDup Hp), sort_keys_NoDup).
  rewrite (map_ext_in (fun k => group_of k keys vals)
             (fun k => map snd (filter (fun kv => cell_eqb k (fst kv))
                                  (filter (fun kv => notnull (fst kv))
                                     (combine keys vals))))).
  - unfold keyed. apply (@groups_partition _ _ Hnd).
    intros kv Hkv. apply (Permutation_in _ Hp). now apply keyed_covered with (vals := vals).
  - intros k Hk. apply group_of_keyed.
    apply sort_keys_notnull with (keys := keys).
    exact (Permutation_in _ (Permutation_sym Hp) Hk).
Qed.

(** X8.  What the category rollup is made of.  Each row holds the sums
    of the group of its category; the groups of amounts, laid end to end,
    are the amounts of the rows that have a category, rearranged, and
    likewise the quantities; the order counts add up to the number of
    those rows with an order id.  Rows without a category are left out of
    the rollup, nothing else is, and nothing enters it twice. *)
Theorem X8_rollup_covers_rows_with_a_category
    (df : DataFrame) (cat : Series) (rows : list CategoryRow)
    (Hcat : get_col "category" df = Some cat)
    (Hrollup : SalesAnalyzer.analyze_sales_by_category df = Ok rows) :
  exists amount qty ids,
    get_col "total_amount" df = Some amount
    /\ get_col "quantity" df = Some qty
    /\ get_col "order_id" df = Some ids
    /\ (forall r, In r rows ->
          total_amount r = sum_cells (group_of (category r) (values cat) (values amount))
          /\ quantity r = sum_cells (group_of (category r) (values cat) (values qty)))
    /\ Permutation
         (List.concat (map (fun r => group_of (category r) (values cat) (values amount))
                         rows))
         (keyed (values cat) (values amount))
    /\ Permutation
         (List.concat (map (fun r => group_of (category r) (values cat) (values qty))
                         rows))
         (keyed (values cat) (values qty))
    /\ list_sum (map order_count rows) = count_cells (keyed (values cat) (values ids)).
Proof.
  destruct (rollup_shape_full _ Hcat Hrollup) as (amount & qty & ids & Ha & Hq & Hi & ->).
  exists amount, qty, ids. repeat (split; [assumption |]).
  set (group := fun k =>
                  {| category := k;
                     total_amount := sum_cells (group_of k (values cat) (values amount));
                     quantity := sum_cells (group_of k (values cat) (values qty));
                     order_count := count_cells (group_of k (values cat) (values ids)) |}).
  pose proof (sort_values_desc_perm (map group (sort_keys (values cat)))) as Hp.
  assert (Hkeys : Permutation (sort_keys (values cat))
                    (map category (sort_values_desc (map group (sort_keys (values cat)))))).
  { eapply Permutation_trans; [| apply Permutation_map, Hp].
    rewrite map_map. simpl. rewrite map_id. apply Permutation_refl. }
  split; [| split; [| split]].
  - intros r Hr. apply (Permutation_in _ (Permutation_sym Hp)) in Hr.
    apply in_map_iff in Hr. destruct Hr as [k [<- _]]. split; reflexivity.
  - rewrite <- (map_map category (fun k => group_of k (values cat) (values amount))).
    now apply groups_cover_keyed.
  - rewrite <- (map_map category (fun k => group_of k (values cat) (values qty))).
    now apply groups_cover_keyed.
  - rewrite <- (list_sum_perm (Permutation_map order_count Hp)).
    rewrite map_map. unfold group. simpl. apply grouped_counts.
Qed.

(** Four orders, one of them without a category. *)
Definition orders_one_uncategorised : DataFrame :=
  [ ("order_id", column Number [num 1; num 2; num 3; num 4]);
    ("category", column Object [Str "toys"; NaN; Str "books"; Str "toys"]);
    ("quantity", column Number [num 1; num 5; num 2; num 1]);
    ("total_amount", column Number [num 10; num 99; num 25; num 40]) ].

Lemma X8_witness :
  match SalesAnalyzer.analyze_sales_by_category orders_one_uncategorised with
  | Ok rows => list_sum (map order_count rows) = 3
  | Raise _ => False
  end.
Proof.
  destruct (SalesAnalyzer.analyze_sales_by_category orders_one_uncategorised)
    as [rows | e] eqn:Hr; [| vm_compute in Hr; discriminate].
  destruct (@X8_rollup_covers_rows_with_a_category orders_one_uncategorised
              (column Object [Str "toys"; NaN; Str "books"; Str "toys"]) rows
              eq_refl Hr)
    as (amount & qty & ids & _ & _ & Hi & _ & _ & _ & Hc).
  rewrite Hc. injection Hi as <-. reflexivity.
Defined.

(* ------------------------------------------------------------------ *)
(** *** The months of the trend *)

Lemma trend_shape_full (df df' : DataFrame) (dates : Series) (trend : list MonthRow) :
  get_col "order_date" df = Some dates ->
  SalesAnalyzer.analyze_monthly_trends df = (df', Ok trend) ->
  dt dates = Datetime
  /\ df' = set_col "month_year"
             {| dt := Period; values := map to_period (values dates) |} df
  /\ exists amount qty customers ids,
       get_col "total_amount" df = Some amount
       /\ get_col "quantity" df = Some qty
       /\ get_col "customer_id" df = Some customers
       /\ get_col "order_id" df = Some ids
       /\ trend = SalesAnalyzer.with_growth
                    (SalesAnalyzer.monthly_groups (map to_period (values dates))
                       (values amount) (values qty) (values customers) (values ids)).
Proof.
  intros Hd. unfold SalesAnalyzer.analyze_monthly_trends. rewrite Hd.
  destruct (dt dates); try (intros [= _ H]; discriminate).
  unfold getitem. rewrite get_col_set_col_same.
  rewrite !get_col_set_col_other by discriminate.
  destruct (get_col "total_amount" df) as [amount |]; [| intros [=]].
  destruct (get_col "quantity" df) as [qty |]; [| intros [=]].
  destruct (get_col "customer_id" df) as [customers |]; [| intros [=]].
  destruct (get_col "order_id" df) as [ids |]; [| intros [=]].
  simpl. intros [= <- <-]. split; [reflexivity |]. split; [reflexivity |].
  exists amount, qty, customers, ids. auto.
Qed.

Lemma keyed_all (keys vals : list cell) :
  List.length keys = List.length vals -> null_count keys = 0 ->
  keyed keys vals = vals.
Proof.
  unfold keyed, null_count, notnull.
  revert vals; induction keys as [| k keys IH]; intros [| v vals]; simpl;
    try discriminate; [reflexivity |].
  intros [= E]. destruct (isnull k); simpl; [discriminate |].
  intros H. now rewrite IH.
Qed.

Lemma with_growth_counts (rows : list MonthRow) :
  map m_order_count (SalesAnalyzer.with_growth rows) = map m_order_count rows.
Proof.
  unfold SalesAnalyzer.with_growth. rewrite map_map. simpl.
  rewrite <- (map_map fst m_order_count), combine_map_fst; [reflexivity |].
  apply growth_column_length.
Qed.

Lemma with_growth_row (rows : list MonthRow) (r : MonthRow) :
  In r (SalesAnalyzer.with_growth rows) ->
  exists r0, In r0 rows /\ month_year r = month_year r0
             /\ m_total_amount r = m_total_amount r0.
Proof.
  unfold SalesAnalyzer.with_growth. intros H. apply in_map_iff in H.
  destruct H as [[r0 g] [<- Hin]]. apply in_combine_l in Hin.
  exists r0. simpl. auto.
Qed.

(** X9.  What the monthly trend holds.  Its buckets are the months in
    which some order has a date, one bucket each; each bucket's total is
    the sum of the group of its month, and the groups, laid end to end,
    are the amounts of the rows that have a date, rearranged; the order
    counts add up to the number of those rows with an order id.  When
    every row of the table has a date the groups are the whole
    [total_amount] column rearranged, the column [total_sales] sums. *)
Theorem X9_trend_covers_rows_with_a_date
    (df df' : DataFrame) (dates : Series) (trend : list MonthRow)
    (Hdates : get_col "order_date" df = Some dates)
    (Hrun : SalesAnalyzer.analyze_monthly_trends df = (df', Ok trend)) :
  exists amount ids,
    get_col "total_amount" df = Some amount
    /\ get_col "order_id" df = Some ids
    /\ NoDup (map month_year trend)
    /\ (forall k, In k (map month_year trend)
                  <-> exists y m d, In (Ts y m d) (values dates) /\ k = Per y m)
    /\ (forall r, In r trend ->
          m_total_amount r
          = sum_cells (group_of (month_year r) (map to_period (values dates))
                         (values amount)))
    /\ Permutation
         (List.concat (map (fun r => group_of (month_year r)
                                       (map to_period (values dates)) (values amount))
                         trend))
         (keyed (map to_period (values dates)) (values amount))
    /\ list_sum (map m_order_count trend)
       = count_cells (keyed (map to_period (values dates)) (values ids))
    /\ (rect df -> Forall (fun c => to_period c <> NaN) (values dates) ->
        Permutation
          (List.concat (map (fun r => group_of (month_year r)
                                        (map to_period (values dates)) (values amount))
                          trend))
          (values amount)).
Proof.
  destruct (trend_shape_full _ Hdates Hrun)
    as (_ & _ & amount & qty & customers & ids & Ha & _ & _ & Hi & ->).
  exists amount, ids. split; [assumption |]. split; [assumption |].
  set (periods := map to_period (values dates)).
  set (groups := SalesAnalyzer.monthly_groups periods (values amount) (values qty)
                   (values customers) (values ids)).
  assert (Hall : Permutation
                   (List.concat (map (fun r => group_of (month_year r) periods
                                                 (values amount))
                                   (SalesAnalyzer.with_growth groups)))
                   (keyed periods (values amount))).
  { rewrite <- (map_map month_year (fun k => group_of k periods (values amount))).
    unfold groups. rewrite with_growth_months, monthly_groups_months.
    apply groups_cover_keyed, Permutation_refl. }
  rewrite with_growth_months, with_growth_counts. unfold groups at 1 2.
  rewrite monthly_groups_months.
  split; [apply sort_keys_NoDup |]. split; [| split; [| split; [exact Hall | split]]].
  - intros k. unfold periods. rewrite In_sort_keys, in_map_iff. split.
    + intros [[c [Hc Hin]] Hn]. destruct c; simpl in Hc; subst k; try discriminate.
      eauto.
    + intros (y & m & d & Hin & ->). split; [| reflexivity].
      exists (Ts y m d). auto.
  - intros r Hr. apply with_growth_row in Hr. destruct Hr as (r0 & Hin & -> & ->).
    unfold groups, SalesAnalyzer.monthly_groups in Hin. apply in_map_iff in Hin.
    destruct Hin as [k [<- _]]. reflexivity.
  - unfold groups, SalesAnalyzer.monthly_groups. rewrite map_map. simpl.
    apply grouped_counts.
  - intros Hr Hdated.
    assert (E : keyed periods (values amount) = values amount).
    { apply keyed_all.
      - unfold periods. rewrite length_map.
        now rewrite (rect_get_col _ Hr Hdates), (rect_get_col _ Hr Ha).
      - unfold null_count, periods. clear -Hdated.
        induction Hdated as [| c l Hc _ IH]; simpl; [reflexivity |].
        destruct (to_period c); simpl; congruence. }
    rewrite E in Hall. exact Hall.
Qed.

Lemma X9_witness :
  match SalesAnalyzer.analyze_monthly_trends dated_orders with
  | (_, Ok trend) =>
      forall k, In k (map month_year trend)
                <-> exists y m d,
                      In (Ts y m d) [Ts 2024 1 5; Ts 2024 1 9; Ts 2024 2 3] /\ k = Per y m
  | _ => False
  end.
Proof.
  destruct (SalesAnalyzer.analyze_monthly_trends dated_orders) as [df' [trend | e]] eqn:Hr;
    [| vm_compute in Hr; discriminate].
  destruct (@X9_trend_covers_rows_with_a_date dated_orders df'
              (column Datetime [Ts 2024 1 5; Ts 2024 1 9; Ts 2024 2 3]) trend eq_refl Hr)
    as (amount & ids & _ & _ & _ & Hmonths & _).
  exact Hmonths.
Defined.

(* ------------------------------------------------------------------ *)
(** *** The fields of the basic statistics *)

Lemma sorted_hd_min (l : list cell) (d x : cell) :
  StronglySorted clt l -> In x l -> x = List.hd d l \/ clt (List.hd d l) x.
Proof.
  intros Hs Hin. destruct Hs as [| y l _ Hy]; [destruct Hin |].
  simpl. destruct Hin as [-> | Hin]; [now left | right].
  rewrite Forall_forall in Hy. auto.
Qed.

Lemma sorted_last_max (l : list cell) (d x : cell) :
  StronglySorted clt l -> In x l -> x = List.last l d \/ clt x (List.last l d).
Proof.
  intros Hs; revert x; induction Hs as [| y l Hs IH Hy]; intros x Hin; [destruct Hin |].
  destruct l as [| z l'].
  - destruct Hin as [-> | []]. now left.
  - change (List.last (y :: z :: l') d) with (List.last (z :: l') d).
    destruct Hin as [<- | Hin]; [| now apply IH].
    right. rewrite Forall_forall in Hy.
    destruct (IH z (or_introl eq_refl)) as [E | L].
    + rewrite <- E. apply Hy. now left.
    + eapply clt_trans; [apply Hy; now left | exact L].
Qed.

Lemma hd_In_nonempty (l : list cell) (d : cell) : l <> [] -> In (List.hd d l) l.
Proof. destruct l; [congruence | intros _; now left]. Qed.

Lemma last_In_nonempty (l : list cell) (d : cell) : l <> [] -> In (List.last l d) l.
Proof.
  induction l as [| y l IH]; [congruence |]. intros _.
  destruct l as [| z l']; [now left |]. right. apply IH. discriminate.
Qed.

Lemma clt_not_gt (a b : cell) : a = b \/ clt a b -> cell_compare a b <> Gt.
Proof.
  intros [-> | H].
  - rewrite (proj2 (cell_cmp_eq b b) eq_refl). discriminate.
  - unfold clt in H. rewrite H. discriminate.
Qed.

(** X10.  The date range of the statistics.  When the table has an
    [order_date] column and [calculate_basic_stats] returns, the column is
    a parsed one, [date_range] is in the result, its start and end are
    days of orders of the table, and every dated order lies between them.
    Without an [order_date] column the result has no [date_range]. *)
Theorem X10_date_range_spans_the_orders
    (df : DataFrame) (stats : list (string * pyval))
    (Hstats : SalesAnalyzer.calculate_basic_stats df = Ok stats) :
  (get_col "order_date" df = None -> dict_get "date_range" stats = None)
  /\ (forall dates, get_col "order_date" df = Some dates ->
        dt dates = Datetime
        /\ exists sy sm sd ey em ed,
             dict_get "date_range" stats = Some (PyDateRange (sy, sm, sd) (ey, em, ed))
             /\ In (Ts sy sm sd) (values dates)
             /\ In (Ts ey em ed) (values dates)
             /\ forall c, In c (values dates) -> c <> NaN ->
                  cell_compare (Ts sy sm sd) c <> Gt
                  /\ cell_compare c (Ts ey em ed) <> Gt).
Proof.
  revert Hstats. unfold SalesAnalyzer.calculate_basic_stats, getitem.
  destruct (get_col "total_amount" df) as [amount |]; [| discriminate].
  destruct (get_col "customer_id" df) as [customers |]; [| discriminate].
  destruct (get_col "product_id" df) as [products |]; [| discriminate].
  simpl. destruct (get_col "order_date" df) as [dates |].
  - unfold strftime, min_cell, max_cell.
    destruct (dt dates) eqn:D; try discriminate.
    destruct (List.hd NaN (sort_keys (values dates))) as [| | | sy sm sd |] eqn:Hmin;
      try discriminate.
    destruct (List.last (sort_keys (values dates)) NaN) as [| | | ey em ed |] eqn:Hmax;
      try discriminate.
    simpl. intros [= <-]. split; [discriminate |]. intros dates' [= <-].
    split; [exact D |]. exists sy, sm, sd, ey, em, ed.
    assert (Hne : sort_keys (values dates) <> []).
    { intros E. rewrite E in Hmin. discriminate. }
    pose proof (sort_keys_sorted (values dates)) as Hs.
    split; [reflexivity |]. split; [| split].
    + rewrite <- Hmin. apply (In_sort_keys _ (values dates)), hd_In_nonempty, Hne.
    + rewrite <- Hmax. apply (In_sort_keys _ (values dates)), last_In_nonempty, Hne.
    + intros c Hin Hc.
      assert (Hk : In c (sort_keys (values dates))).
      { apply In_sort_keys. split; [assumption | now destruct c]. }
      change (cell_compare (Ts sy sm sd) c <> Gt /\ cell_compare c (Ts ey em ed) <> Gt).
      rewrite <- Hmin, <- Hmax. split; apply clt_not_gt.
      * destruct (@sorted_hd_min _ NaN c Hs Hk) as [E | L];
          [left; now symmetry | now right].
      * exact (@sorted_last_max _ NaN c Hs Hk).
  - intros [= <-]. split; [reflexivity | discriminate].
Qed.

Lemma X10_witness :
  match SalesAnalyzer.calculate_basic_stats dated_orders with
  | Ok stats =>
      exists sy sm sd ey em ed,
        dict_get "date_range" stats = Some (PyDateRange (sy, sm, sd) (ey, em, ed))
        /\ In (Ts sy sm sd) [Ts 2024 1 5; Ts 2024 1 9; Ts 2024 2 3]
        /\ In (Ts ey em ed) [Ts 2024 1 5; Ts 2024 1 9; Ts 2024 2 3]
  | Raise _ => False
  end.
Proof.
  destruct (SalesAnalyzer.calculate_basic_stats dated_orders) as [stats | e] eqn:Hs;
    [| vm_compute in Hs; discriminate].
  destruct (proj2 (@X10_date_range_spans_the_orders dated_orders stats Hs)
              (column Datetime [Ts 2024 1 5; Ts 2024 1 9; Ts 2024 2 3]) eq_refl)
    as (_ & sy & sm & sd & ey & em & ed & Hr & Hstart & Hend & _).
  exists sy, sm, sd, ey, em, ed. auto.
Defined.

Lemma nunique_le_length (l : list cell) : nunique l <= List.length l.
Proof.
  unfold nunique. apply NoDup_incl_length; [apply sort_keys_NoDup |].
  intros x Hx. now apply In_sort_keys in Hx.
Qed.

(** X11.  The counts of the statistics.  On a rectangular table,
    [total_orders] is the number of rows, and neither [unique_customers]
    nor [unique_products] exceeds it. *)
Theorem X11_unique_counts_bounded_by_orders
    (df : DataFrame) (stats : list (string * pyval))
    (Hrect : rect df)
    (Hstats : SalesAnalyzer.calculate_basic_stats df = Ok stats) :
  exists customers products,
    dict_get "total_orders" stats = Some (PyInt (len df))
    /\ dict_get "unique_customers" stats = Some (PyInt customers)
    /\ dict_get "unique_products" stats = Some (PyInt products)
    /\ customers <= len df /\ products <= len df.
Proof.
  destruct (stats_shape _ Hstats) as (a & c & p & rest & _ & Hc & Hp & ->).
  exists (nunique (values c)), (nunique (values p)).
  repeat (split; [reflexivity |]).
  rewrite <- (rect_get_col _ Hrect Hc) at 1. rewrite <- (rect_get_col _ Hrect Hp).
  split; apply nunique_le_length.
Qed.

Lemma X11_witness :
  match SalesAnalyzer.calculate_basic_stats dated_orders with
  | Ok stats => dict_get "total_orders" stats = Some (PyInt 3)
  | Raise _ => False
  end.
Proof.
  destruct (SalesAnalyzer.calculate_basic_stats dated_orders) as [stats | e] eqn:Hs;
    [| vm_compute in Hs; discriminate].
  assert (Hr : rect dated_orders) by (repeat constructor).
  destruct (@X11_unique_counts_bounded_by_orders dated_orders stats Hr Hs)
    as (c & p & Ht & _).
  exact Ht.
Defined.

(* ------------------------------------------------------------------ *)
(** *** Calling the analyses again *)

Lemma set_col_idem (name : string) (s : Series) (df : DataFrame) :
  set_col name s (set_col name s df) = set_col name s df.
Proof.
  induction df as [| [n a] df IH]; simpl.
  - now rewrite String.eqb_refl.
  - destruct (String.eqb name n) eqn:E; simpl; rewrite E; [reflexivity | now rewrite IH].
Qed.

Lemma len_set_col (name : string) (s : Series) (df : DataFrame) :
  List.length (values s) = len df -> len (set_col name s df) = len df.
Proof.
  destruct df as [| [n a] df]; simpl; [auto |].
  destruct (String.eqb name n); simpl; auto.
Qed.

Lemma rect_at_set_col (k : nat) (name : string) (s : Series) (df : DataFrame) :
  rect_at k df -> List.length (values s) = k -> rect_at k (set_col name s df).
Proof.
  intros Hr Hs. induction Hr as [| [n a] df Ha Hr IH]; simpl.
  - repeat constructor. exact Hs.
  - destruct (String.eqb name n); constructor; auto.
Qed.

Lemma rect_set_col (name : string) (s : Series) (df : DataFrame) :
  rect df -> List.length (values s) = len df -> rect (set_col name s df).
Proof.
  intros Hr Hs. unfold rect. rewrite (len_set_col _ _ _ Hs).
  now apply rect_at_set_col.
Qed.

Lemma trend_again (df : DataFrame) :
  SalesAnalyzer.analyze_monthly_trends (fst (SalesAnalyzer.analyze_monthly_trends df))
  = SalesAnalyzer.analyze_monthly_trends df.
Proof.
  unfold SalesAnalyzer.analyze_monthly_trends at 2 3.
  destruct (get_col "order_date" df) as [dates |] eqn:Hd.
  - destruct (dt dates) eqn:D; simpl;
      try (unfold SalesAnalyzer.analyze_monthly_trends; rewrite Hd, D; reflexivity).
    unfold SalesAnalyzer.analyze_monthly_trends.
    rewrite get_col_set_col_other by discriminate. rewrite Hd, D.
    now rewrite set_col_idem.
  - simpl. unfold SalesAnalyzer.analyze_monthly_trends. now rewrite Hd.
Qed.

(** X12.  Calling the monthly trend again.  A second call of
    [analyze_monthly_trends] returns what the first returned and leaves the
    table as the first call left it: only the first call changes the
    table. *)
Theorem X12_trend_again_is_the_same (df : DataFrame) :
  SalesAnalyzer.analyze_monthly_trends (fst (SalesAnalyzer.analyze_monthly_trends df))
  = SalesAnalyzer.analyze_monthly_trends df
  /\ fst (SalesAnalyzer.analyze_monthly_trends
            (fst (SalesAnalyzer.analyze_monthly_trends df)))
     = fst (SalesAnalyzer.analyze_monthly_trends df).
Proof. split; [apply trend_again | now rewrite trend_again]. Qed.

Lemma rollup_after_trend (df : DataFrame) :
  SalesAnalyzer.analyze_sales_by_category (fst (SalesAnalyzer.analyze_monthly_trends df))
  = SalesAnalyzer.analyze_sales_by_category df.
Proof.
  destruct (trend_frame df) as [-> | [s ->]]; [reflexivity |].
  unfold SalesAnalyzer.analyze_sales_by_category, getitem.
  now rewrite !get_col_set_col_other by discriminate.
Qed.

Lemma trend_frame_len (df : DataFrame) :
  rect df ->
  len (fst (SalesAnalyzer.analyze_monthly_trends df)) = len df
  /\ rect (fst (SalesAnalyzer.analyze_monthly_trends df)).
Proof.
  intros Hr. unfold SalesAnalyzer.analyze_monthly_trends.
  destruct (get_col "order_date" df) as [dates |] eqn:Hd; [| auto].
  destruct (dt dates); simpl; auto.
  assert (Hl : List.length (values {| dt := Period; values := map to_period (values dates) |})
               = len df).
  { simpl. rewrite length_map. exact (rect_get_col _ Hr Hd). }
  split; [now apply len_set_col | now apply rect_set_col].
Qed.

Lemma stats_after_trend (df : DataFrame) :
  rect df ->
  SalesAnalyzer.calculate_basic_stats (fst (SalesAnalyzer.analyze_monthly_trends df))
  = SalesAnalyzer.calculate_basic_stats df.
Proof.
  intros Hr. pose proof (proj1 (trend_frame_len Hr)) as Hlen. revert Hlen.
  destruct (trend_frame df) as [-> | [s ->]]; [reflexivity |]. intros Hlen.
  unfold SalesAnalyzer.calculate_basic_stats, getitem.
  now rewrite !get_col_set_col_other by discriminate; rewrite Hlen.
Qed.

(** X13.  The month column does not disturb the other analyses.  On the
    table as [analyze_monthly_trends] leaves it, the category rollup is the
    one of the original table, and on a rectangular table so are the basic
    statistics. *)
Theorem X13_month_column_leaves_other_analyses (df : DataFrame) :
  SalesAnalyzer.analyze_sales_by_category (fst (SalesAnalyzer.analyze_monthly_trends df))
  = SalesAnalyzer.analyze_sales_by_category df
  /\ (rect df ->
      SalesAnalyzer.calculate_basic_stats (fst (SalesAnalyzer.analyze_monthly_trends df))
      = SalesAnalyzer.calculate_basic_stats df).
Proof. split; [apply rollup_after_trend | apply stats_after_trend]. Qed.

(* ------------------------------------------------------------------ *)
(** *** The report *)

Definition is_sample (sh : sheet) : bool :=
  match sh with SampleData _ => true | _ => false end.

Lemma sheet_unless_empty_no_sample {A} (mk : list A -> sheet) (rows : list A) :
  (forall r, is_sample (mk r) = false) ->
  forallb (fun sh => negb (is_sample sh)) (SalesAnalyzer.sheet_unless_empty mk rows) = true.
Proof. intros H. destruct rows; simpl; [reflexivity |]. now rewrite H. Qed.

(** X14.  What [generate_report] hands to the writer.  With a writer
    that takes every sheet it is handed, it returns [True] exactly when the basic statistics, the monthly trend and the
    category rollup are all returned; then the sheets are the summary
    first, the monthly trends and the category analysis where they are not
    empty, and the data sample last, and the table is left as the monthly
    trend leaves it.  When it returns [False] no data sample is written,
    and when the statistics raise nothing is written and the table is
    untouched. *)
Theorem X14_report_sheets (df : DataFrame) :
  let df1 := fst (SalesAnalyzer.analyze_monthly_trends df) in
  let report := SalesAnalyzer.generate_report df in
  (snd report = true
   <-> exists stats trend cats,
         SalesAnalyzer.calculate_basic_stats df = Ok stats
         /\ snd (SalesAnalyzer.analyze_monthly_trends df) = Ok trend
         /\ SalesAnalyzer.analyze_sales_by_category df = Ok cats)
  /\ (forall stats trend cats,
        SalesAnalyzer.calculate_basic_stats df = Ok stats ->
        snd (SalesAnalyzer.analyze_monthly_trends df) = Ok trend ->
        SalesAnalyzer.analyze_sales_by_category df = Ok cats ->
        report
        = (df1,
           [Summary stats]
             ++ SalesAnalyzer.sheet_unless_empty MonthlyTrends trend
             ++ SalesAnalyzer.sheet_unless_empty CategoryAnalysis cats
             ++ [SampleData (head 1000 df1)],
           true))
  /\ (snd report = false ->
      forallb (fun sh => negb (is_sample sh)) (snd (fst report)) = true)
  /\ (forall e, SalesAnalyzer.calculate_basic_stats df = Raise e ->
        report = (df, [], false)).
Proof.
  intros df1 report. unfold report, df1, SalesAnalyzer.generate_report.
  rewrite <- (rollup_after_trend df).
  destruct (SalesAnalyzer.calculate_basic_stats df) as [stats | e].
  - destruct (SalesAnalyzer.analyze_monthly_trends df) as [d [trend | e]]; simpl.
    + destruct (SalesAnalyzer.analyze_sales_by_category d) as [cats | e]; simpl.
      * split; [split; [intros _; exists stats, trend, cats; auto | reflexivity] |].
        split; [| split; [discriminate | discriminate]].
        intros s t c [= <-] [= <-] [= <-]. rewrite <- !app_assoc. reflexivity.
      * split; [split; [discriminate | intros (s & t & c & _ & _ & H); discriminate] |].
        split; [discriminate |]. split; [| discriminate]. intros _.
        apply (sheet_unless_empty_no_sample MonthlyTrends). reflexivity.
    + split; [split; [discriminate | intros (s & t & c & _ & H & _); discriminate] |].
      split; [discriminate |]. split; [reflexivity | discriminate].
  - simpl.
    split; [split; [discriminate | intros (s & t & c & H & _); discriminate] |].
    split; [discriminate |]. split; [reflexivity |]. reflexivity.
Qed.

Lemma firstn_zip_cons (n : nat) (col : list cell) (rs : list row) :
  firstn n (zip_cons col rs) = zip_cons (firstn n col) (firstn n rs).
Proof.
  revert col rs; induction n as [| n IH]; intros col rs; [reflexivity |].
  destruct col as [| c col]; [reflexivity |].
  destruct rs as [| r rs]; [reflexivity |]. simpl. now rewrite IH.
Qed.

Lemma firstn_repeat {A} (n k : nat) (x : A) :
  firstn n (repeat x k) = repeat x (Nat.min n k).
Proof.
  revert k; induction n as [| n IH]; intros [| k]; simpl; try reflexivity.
  now rewrite IH.
Qed.

Lemma rows_from_head (n k : nat) (df : DataFrame) :
  rows_from (Nat.min n k) (map_values (firstn n) df) = firstn n (rows_from k df).
Proof.
  induction df as [| c df IH]; simpl.
  - symmetry. apply firstn_repeat.
  - rewrite firstn_zip_cons. f_equal. exact IH.
Qed.

Lemma len_head (n : nat) (df : DataFrame) : len (head n df) = Nat.min n (len df).
Proof.
  destruct df as [| [name s] df]; simpl; [now rewrite Nat.min_0_r |].
  apply length_firstn.
Qed.

Lemma rows_of_head (n : nat) (df : DataFrame) :
  rows_of (head n df) = firstn n (rows_of df).
Proof.
  unfold rows_of.
  change (rows_from (len (head n df)) (head n df) = firstn n (rows_from (len df) df)).
  rewrite len_head. apply rows_from_head.
Qed.

(** X15.  The data sample.  The sample that [generate_report] writes
    holds the first 1000 rows of the table as the monthly trend leaves it,
    in the order of the table, and all of them when the table has fewer;
    on a rectangular table it has min(1000, N) rows for a table of N. *)
Theorem X15_sample_is_the_first_1000_rows (df sample : DataFrame)
    (Hin : In (SampleData sample) (snd (fst (SalesAnalyzer.generate_report df)))) :
  rows_of sample = firstn 1000 (rows_of (fst (SalesAnalyzer.analyze_monthly_trends df)))
  /\ (rect df -> len sample = Nat.min 1000 (len df))
  /\ (rect df -> len df <= 1000 ->
      rows_of sample = rows_of (fst (SalesAnalyzer.analyze_monthly_trends df))).
Proof.
  rewrite (report_sample _ _ Hin). split; [apply rows_of_head |]. split.
  - intros Hr. rewrite len_head. now rewrite (proj1 (trend_frame_len Hr)).
  - intros Hr Hle. rewrite rows_of_head. apply firstn_all2.
    destruct (trend_frame_len Hr) as [Hl Hr'].
    rewrite rows_of_length by assumption. lia.
Qed.

Lemma X15_witness :
  exists sample,
    In (SampleData sample) (snd (fst (SalesAnalyzer.generate_report dated_orders)))
    /\ rows_of sample
       = firstn 1000 (rows_of (fst (SalesAnalyzer.analyze_monthly_trends dated_orders))).
Proof.
  assert (Hin : exists sample,
             In (SampleData sample)
                (snd (fst (SalesAnalyzer.generate_report dated_orders)))).
  { destruct (SalesAnalyzer.generate_report dated_orders) as [[d sheets] ok] eqn:Hrun.
    vm_compute in Hrun. injection Hrun as _ <- _.
    eexists. right. right. right. left. reflexivity. }
  destruct Hin as [sample Hin]. exists sample. split; [exact Hin |].
  exact (proj1 (@X15_sample_is_the_first_1000_rows dated_orders sample Hin)).
Defined.

(* ================================================================== *)
(** ** Charts *)

(** What is handed to matplotlib: the file a figure is saved to and the
    data it is drawn from.  Labels are kept as the cells they are printed
    from.  Drawing and saving are matplotlib's own: a figure is recorded
    where the code reaches its [savefig], and the exceptions followed are
    those of the operations on the table. *)
Inductive chart :=
| LineChart (file : string) (points : list (cell * Qc))
| BarChart (file : string) (bars : list (cell * Qc))
| Histogram (file : string) (data : list cell) (bins : nat).

Definition in_dir (output_dir file : string) : string :=
  (output_dir ++ "/" ++ file)%string.

Module visualizer.

(** [create_visualizations(df, output_dir)] of visualizer.py: the table
    as it leaves it, the figures saved, and [Ok] when the closing message
    is reached.  [groupby('month_year')['total_amount']] raises
    [KeyError] without the column. *)
Definition create_visualizations (output_dir : string) (df : DataFrame)
  : DataFrame * list chart * result unit :=
  match get_col "order_date" df with
  | None => (df, [], Ok tt)
  | Some dates =>
      match dt dates with
      | Datetime =>
          let df' := set_col "month_year"
                       {| dt := Period; values := map to_period (values dates) |} df in
          match (keys <- getitem "month_year" df' ;;
                 amount <- getitem "total_amount" df' ;;
                 Ok (map (fun k => (k, sum_cells (group_of k (values keys) (values amount))))
                         (sort_keys (values keys)))) with
          | Ok monthly => (df', [LineChart (in_dir output_dir "monthly_trend.png") monthly], Ok tt)
          | Raise e => (df', [], Raise e)
          end
      | _ => (df, [], Raise (AttributeError "dt"))
      end
  end.

End visualizer.

Module SalesAnalyzerCharts.

Definition trend_points (rows : list MonthRow) : list (cell * Qc) :=
  map (fun r => (month_year r, m_total_amount r)) rows.

Definition category_bars (rows : list CategoryRow) : list (cell * Qc) :=
  map (fun r => (category r, total_amount r)) rows.

Definition chart_unless_empty {A} (mk : list A -> chart) (rows : list A) : list chart :=
  match rows with [] => [] | _ => [mk rows] end.

(** [SalesAnalyzer.create_visualizations(self, output_dir)] of
    analyzer.py: the table as it leaves it, the figures saved before it
    returns or raises, and the result.  The data of the histogram is the
    [total_amount] column as it stands. *)
Definition create_visualizations (output_dir : string) (df : DataFrame)
  : DataFrame * list chart * result unit :=
  let (df1, monthly) := SalesAnalyzer.analyze_monthly_trends df in
  match monthly with
  | Raise e => (df1, [], Raise e)
  | Ok monthly_data =>
      let c1 := chart_unless_empty
                  (fun rows => LineChart (in_dir output_dir "monthly_trend.png")
                                 (trend_points rows))
                  monthly_data in
      match SalesAnalyzer.analyze_sales_by_category df1 with
      | Raise e => (df1, c1, Raise e)
      | Ok category_data =>
          let c2 := c1 ++ chart_unless_empty
                            (fun rows => BarChart (in_dir output_dir "category_sales.png")
                                           (category_bars (firstn 10 rows)))
                            category_data in
          match getitem "total_amount" df1 with
          | Raise e => (df1, c2, Raise e)
          | Ok amount =>
              (df1,
               c2 ++ [Histogram (in_dir output_dir "order_distribution.png")
                        (values amount) 30],
               Ok tt)
          end
      end
  end.

End SalesAnalyzerCharts.

Lemma map_pair_combine {A B C} (f : A -> B) (g : A -> C) (l : list A) :
  map (fun x => (f x, g x)) l = combine (map f l) (map g l).
Proof. induction l as [| x l IH]; simpl; congruence. Qed.

Lemma trend_points_with_growth (rows : list MonthRow) :
  SalesAnalyzerCharts.trend_points (SalesAnalyzer.with_growth rows)
  = SalesAnalyzerCharts.trend_points rows.
Proof.
  unfold SalesAnalyzerCharts.trend_points.
  now rewrite !map_pair_combine, with_growth_months, with_growth_totals.
Qed.

Lemma trend_points_groups (keys amount qty customers ids : list cell) :
  SalesAnalyzerCharts.trend_points
    (SalesAnalyzer.monthly_groups keys amount qty customers ids)
  = map (fun k => (k, sum_cells (group_of k keys amount))) (sort_keys keys).
Proof.
  unfold SalesAnalyzerCharts.trend_points, SalesAnalyzer.monthly_groups.
  now rewrite map_map.
Qed.

(** X16.  The standalone visualizer and the analyzer's trend.  The
    standalone [create_visualizations] leaves the table exactly as
    [analyze_monthly_trends] does; whenever that method returns a trend of
    a table with an [order_date] column, the standalone function draws one
    line chart, of the months and totals of that trend, also when the
    trend has no month; without an [order_date] column it draws nothing
    and leaves the table alone.  It reads [total_amount] only, so with a
    parsed [order_date] and a numeric [total_amount] its table operations
    never raise, also where the method raises for a missing column. *)
Theorem X16_visualizer_draws_the_trend (output_dir : string) (df : DataFrame) :
  fst (fst (visualizer.create_visualizations output_dir df))
  = fst (SalesAnalyzer.analyze_monthly_trends df)
  /\ (forall dates df' trend,
        get_col "order_date" df = Some dates ->
        SalesAnalyzer.analyze_monthly_trends df = (df', Ok trend) ->
        visualizer.create_visualizations output_dir df
        = (df',
           [LineChart (in_dir output_dir "monthly_trend.png")
              (SalesAnalyzerCharts.trend_points trend)],
           Ok tt))
  /\ (get_col "order_date" df = None ->
      visualizer.create_visualizations output_dir df = (df, [], Ok tt))
  /\ (forall dates amount,
        get_col "order_date" df = Some dates -> dt dates = Datetime ->
        get_col "total_amount" df = Some amount -> dt amount = Number ->
        snd (visualizer.create_visualizations output_dir df) = Ok tt).
Proof.
  split; [| split; [| split]].
  - unfold visualizer.create_visualizations, SalesAnalyzer.analyze_monthly_trends.
    destruct (get_col "order_date" df) as [dates |]; [| reflexivity].
    destruct (dt dates); try reflexivity.
    now destruct (_ <- getitem "month_year" _ ;; _).
  - intros dates df' trend Hd Hrun.
    destruct (trend_shape_full _ Hd Hrun)
      as (D & -> & amount & qty & customers & ids & Ha & _ & _ & _ & ->).
    unfold visualizer.create_visualizations, getitem. rewrite Hd, D.
    rewrite get_col_set_col_same, get_col_set_col_other by discriminate.
    rewrite Ha. simpl.
    now rewrite trend_points_with_growth, trend_points_groups.
  - intros Hd. unfold visualizer.create_visualizations. now rewrite Hd.
  - intros dates amount Hd D Ha _. unfold visualizer.create_visualizations, getitem.
    rewrite Hd, D. rewrite get_col_set_col_same, get_col_set_col_other by discriminate.
    now rewrite Ha.
Qed.

Lemma sorted_firstn_skipn {A} (R : A -> A -> Prop) (n : nat) (l : list A) :
  StronglySorted R l ->
  forall a b, In a (firstn n l) -> In b (skipn n l) -> R a b.
Proof.
  intros Hs; revert n; induction Hs as [| x l Hs IH Hx]; intros n a b Ha Hb.
  - now rewrite firstn_nil in Ha.
  - destruct n as [| n]; [destruct Ha |]. simpl in Ha, Hb.
    destruct Ha as [<- | Ha]; [| now apply (IH n)].
    rewrite Forall_forall in Hx. apply Hx.
    rewrite <- (firstn_skipn n l). apply in_or_app. now right.
Qed.

Lemma StronglySorted_firstn {A} (R : A -> A -> Prop) (n : nat) (l : list A) :
  StronglySorted R l -> StronglySorted R (firstn n l).
Proof.
  intros Hs; revert n; induction Hs as [| x l Hs IH Hx]; intros [| n]; simpl;
    try constructor; [apply IH |].
  apply Forall_forall. intros y Hy. rewrite Forall_forall in Hx. apply Hx.
  rewrite <- (firstn_skipn n l). apply in_or_app. now left.
Qed.

Lemma charts_bar (output_dir : string) (df : DataFrame) (file : string)
      (bars : list (cell * Qc)) :
  In (BarChart file bars)
     (snd (fst (SalesAnalyzerCharts.create_visualizations output_dir df))) ->
  exists rollup,
    SalesAnalyzer.analyze_sales_by_category df = Ok rollup
    /\ rollup <> []
    /\ file = in_dir output_dir "category_sales.png"
    /\ bars = SalesAnalyzerCharts.category_bars (firstn 10 rollup).
Proof.
  unfold SalesAnalyzerCharts.create_visualizations.
  rewrite <- (rollup_after_trend df).
  destruct (SalesAnalyzer.analyze_monthly_trends df) as [df1 [monthly | e]]; simpl;
    [| tauto].
  assert (Hline : ~ In (BarChart file bars)
                     (SalesAnalyzerCharts.chart_unless_empty
                        (fun rows => LineChart (in_dir output_dir "monthly_trend.png")
                                       (SalesAnalyzerCharts.trend_points rows))
                        monthly)).
  { destruct monthly; simpl; [tauto |]. intros [H | []]. discriminate. }
  destruct (SalesAnalyzer.analyze_sales_by_category df1) as [cats | e]; simpl;
    [| intros H; contradiction].
  assert (Hbar : In (BarChart file bars)
                   (SalesAnalyzerCharts.chart_unless_empty
                      (fun rows => BarChart (in_dir output_dir "category_sales.png")
                                     (SalesAnalyzerCharts.category_bars (firstn 10 rows)))
                      cats) ->
                 exists rollup, Ok cats = Ok rollup /\ rollup <> []
                   /\ file = in_dir output_dir "category_sales.png"
                   /\ bars = SalesAnalyzerCharts.category_bars (firstn 10 rollup)).
  { destruct cats as [| c cats]; simpl; [tauto |]. intros [H | []].
    injection H as <- <-. exists (c :: cats). repeat split. discriminate. }
  destruct (getitem "total_amount" df1) as [amount | e]; simpl.
  - rewrite !in_app_iff. simpl. intros [[H | H] | [H | []]]; auto; try contradiction.
    discriminate.
  - rewrite in_app_iff. intros [H | H]; auto. contradiction.
Qed.

(** X17.  The category chart.  When [SalesAnalyzer.create_visualizations]
    draws the category chart, its bars are the first ten rows of the
    category rollup, at most ten, in descending order of their sums, and no
    category left out has a larger sum than one that is shown. *)
Theorem X17_category_chart_is_the_top_ten
    (output_dir : string) (df : DataFrame) (file : string) (bars : list (cell * Qc))
    (Hin : In (BarChart file bars)
              (snd (fst (SalesAnalyzerCharts.create_visualizations output_dir df)))) :
  exists rollup,
    SalesAnalyzer.analyze_sales_by_category df = Ok rollup
    /\ bars = map (fun r => (category r, total_amount r)) (firstn 10 rollup)
    /\ 0 < List.length bars <= 10
    /\ StronglySorted (fun a b => (snd b <= snd a)%Qc) bars
    /\ (forall r bar, In r (skipn 10 rollup) -> In bar bars ->
          (total_amount r <= snd bar)%Qc).
Proof.
  destruct (charts_bar _ _ _ _ Hin) as (rollup & Hr & Hne & _ & ->).
  exists rollup. split; [assumption |]. split; [reflexivity |].
  assert (Hs : StronglySorted (fun a b => (total_amount b <= total_amount a)%Qc) rollup).
  { destruct (get_col "category" df) as [cat |] eqn:Hc.
    - destruct (rollup_shape _ Hc Hr) as (amount & qty & ids & _ & Hshape).
      assert (Ho : StronglySorted rollup_order rollup).
      { rewrite Hshape. apply sort_values_desc_sorted, StronglySorted_map.
        exact (sort_keys_sorted (values cat)). }
      clear -Ho. induction Ho as [| a l _ IH Ha]; constructor; [assumption |].
      eapply Forall_impl; [| exact Ha]. unfold rollup_order.
      intros b [Hlt | [Heq _]]; [now apply Qclt_le_weak | rewrite Heq; apply Qcle_refl].
    - unfold SalesAnalyzer.analyze_sales_by_category in Hr. rewrite Hc in Hr.
      injection Hr as <-. congruence. }
  unfold SalesAnalyzerCharts.category_bars. split; [| split].
  - rewrite length_map, length_firstn.
    assert (0 < List.length rollup) by (destruct rollup; [congruence | simpl; lia]).
    lia.
  - apply StronglySorted_map. exact (StronglySorted_firstn 10 Hs).
  - intros r bar Hskip Hbar. apply in_map_iff in Hbar.
    destruct Hbar as [r' [<- Hr']]. simpl.
    exact (sorted_firstn_skipn 10 Hs r' r Hr' Hskip).
Qed.

Lemma X17_witness :
  exists rollup,
    SalesAnalyzer.analyze_sales_by_category dated_orders = Ok rollup
    /\ 0 < List.length (firstn 10 rollup) <= 10.
Proof.
  destruct (SalesAnalyzerCharts.create_visualizations "output" dated_orders)
    as [[df1 charts] r] eqn:Hrun.
  assert (Hbar : exists file bars, In (BarChart file bars) charts).
  { vm_compute in Hrun. injection Hrun as _ <- _.
    do 2 eexists. right. left. reflexivity. }
  destruct Hbar as [file [bars Hin]].
  assert (Hin' : In (BarChart file bars)
                   (snd (fst (SalesAnalyzerCharts.create_visualizations "output"
                                dated_orders)))) by (now rewrite Hrun).
  destruct (X17_category_chart_is_the_top_ten _ _ _ _ Hin')
    as (rollup & Hr & -> & Hlen & _).
  exists rollup. split; [assumption |]. now rewrite length_map in Hlen.
Defined.

Lemma rollup_of_no_rows (df : DataFrame) (rows : list CategoryRow) :
  zero_rows df -> SalesAnalyzer.analyze_sales_by_category df = Ok rows -> rows = [].
Proof.
  intros Hz Hr. destruct (get_col "category" df) as [cat |] eqn:Hc.
  - destruct (rollup_shape _ Hc Hr) as (a & q & i & _ & ->).
    now rewrite (zero_rows_get_col _ Hz Hc).
  - unfold SalesAnalyzer.analyze_sales_by_category in Hr. rewrite Hc in Hr. congruence.
Qed.

Lemma amount_after_trend (df : DataFrame) :
  get_col "total_amount" (fst (SalesAnalyzer.analyze_monthly_trends df))
  = get_col "total_amount" df.
Proof.
  destruct (trend_frame df) as [-> | [s ->]]; [reflexivity |].
  now apply get_col_set_col_other.
Qed.

(** X18.  When the analyzer's charts are drawn.
    [SalesAnalyzer.create_visualizations] leaves the table as the monthly
    trend leaves it; it gets through its table operations exactly when
    the monthly trend and the category rollup are returned and the table
    has a [total_amount] column, and then the last figure is the
    histogram, in 30 bins, of the whole [total_amount] column, after at
    most two other figures.  The
    histogram is not skipped on a table without rows: there it is the only
    figure, drawn from no data. *)
Theorem X18_histogram_is_always_drawn (output_dir : string) (df : DataFrame) :
  let run := SalesAnalyzerCharts.create_visualizations output_dir df in
  fst (fst run) = fst (SalesAnalyzer.analyze_monthly_trends df)
  /\ (snd run = Ok tt
      <-> (exists trend, snd (SalesAnalyzer.analyze_monthly_trends df) = Ok trend)
          /\ (exists cats, SalesAnalyzer.analyze_sales_by_category df = Ok cats)
          /\ get_col "total_amount" df <> None)
  /\ (snd run = Ok tt ->
      exists amount before,
        get_col "total_amount" df = Some amount
        /\ snd (fst run)
           = before ++ [Histogram (in_dir output_dir "order_distribution.png")
                          (values amount) 30]
        /\ List.length before <= 2)
  /\ (zero_rows df -> snd run = Ok tt ->
      snd (fst run) = [Histogram (in_dir output_dir "order_distribution.png") [] 30]).
Proof.
  intros run. unfold run, SalesAnalyzerCharts.create_visualizations.
  rewrite <- (rollup_after_trend df), <- (amount_after_trend df).
  pose proof (@trend_of_no_rows df) as Htrend.
  pose proof (@rollup_of_no_rows df) as Hroll. rewrite <- (rollup_after_trend df) in Hroll.
  pose proof (@zero_rows_get_col "total_amount" df) as Hamt.
  rewrite <- (amount_after_trend df) in Hamt.
  destruct (SalesAnalyzer.analyze_monthly_trends df) as [df1 [monthly | e]]; simpl in *.
  - destruct (SalesAnalyzer.analyze_sales_by_category df1) as [cats | e]; simpl.
    + unfold getitem.
      destruct (get_col "total_amount" df1) as [amount |]; simpl.
      * split; [reflexivity |]. split; [| split].
        -- split; [intros _ | reflexivity].
           split; [eauto |]. split; [eauto | discriminate].
        -- intros _. exists amount. eexists. split; [reflexivity |].
           split; [reflexivity |]. rewrite length_app.
           destruct monthly, cats; simpl; lia.
        -- intros Hz _. rewrite (Htrend df1 monthly Hz eq_refl).
           rewrite (Hroll cats Hz eq_refl). rewrite (Hamt amount Hz eq_refl).
           reflexivity.
      * split; [reflexivity |]. split; [| split; [discriminate | discriminate]].
        split; [discriminate |]. intros (_ & _ & H). congruence.
    + split; [reflexivity |]. split; [| split; [discriminate | discriminate]].
      split; [discriminate |]. intros (_ & [c H] & _). discriminate.
  - split; [reflexivity |]. split; [| split; [discriminate | discriminate]].
    split; [discriminate |]. intros ([t H] & _). discriminate.
Qed.

(* ================================================================== *)
(** ** The run of the main block *)

(** The steps of the main block that can end the run with an exception
    (the report catches its own). *)
Inductive step := Cleaning | Statistics | Categories | Trends | Visualizations.

(** How a run ends: the table of the analyzer, the figures saved, the
    sheets handed to the writer, the step and exception that ended it
    early, and what [generate_report] returned when it was reached. *)
Record run := {
  table : DataFrame;
  drawn : list chart;
  written : list sheet;
  aborted : option (step * exn);
  reported : option bool
}.

Definition stop (df : DataFrame) (charts : list chart) (s : step) (e : exn) : run :=
  {| table := df; drawn := charts; written := []; aborted := Some (s, e);
     reported := None |}.

(** The main block of analyzer.py on a loaded table: clean, statistics,
    rollup, trend, charts, report, with no exception handler of its own.
    What it prints on the way is not part of the model. *)
Definition main (df : DataFrame) : run :=
  let o := SalesAnalyzer.clean_data df in
  let df1 := frame o in
  match raised o with
  | Some e => stop df1 [] Cleaning e
  | None =>
      match SalesAnalyzer.calculate_basic_stats df1 with
      | Raise e => stop df1 [] Statistics e
      | Ok _ =>
          match SalesAnalyzer.analyze_sales_by_category df1 with
          | Raise e => stop df1 [] Categories e
          | Ok _ =>
              let (df2, monthly) := SalesAnalyzer.analyze_monthly_trends df1 in
              match monthly with
              | Raise e => stop df2 [] Trends e
              | Ok _ =>
                  let '(df3, charts, r) :=
                    SalesAnalyzerCharts.create_visualizations "output" df2 in
                  match r with
                  | Raise e => stop df3 charts Visualizations e
                  | Ok _ =>
                      let '(df4, sheets, ok) := SalesAnalyzer.generate_report df3 in
                      {| table := df4; drawn := charts; written := sheets;
                         aborted := None; reported := Some ok |}
                  end
              end
          end
      end
  end.

Lemma clean_keeps_absent (df : DataFrame) (name : string) :
  get_col name df = None -> get_col name (frame (SalesAnalyzer.clean_data df)) = None.
Proof.
  intros H. rewrite (proj1 (analyzer_clean_data_impute df)).
  apply (frame_rel_get_col_none name (impute_fills true (drop_duplicates df))).
  exact (frame_rel_get_col_none name (drop_duplicates_rel df) H).
Qed.

Lemma stats_missing_column (df : DataFrame) :
  get_col "total_amount" df = None \/ get_col "customer_id" df = None
  \/ get_col "product_id" df = None ->
  exists k, SalesAnalyzer.calculate_basic_stats df = Raise (KeyError k).
Proof.
  unfold SalesAnalyzer.calculate_basic_stats, getitem.
  destruct (get_col "total_amount" df); [| intros _; eexists; reflexivity].
  destruct (get_col "customer_id" df); [| intros _; eexists; reflexivity].
  destruct (get_col "product_id" df); [| intros _; eexists; reflexivity].
  intros [H | [H | H]]; discriminate.
Qed.

(** X19.  A missing column ends the whole run.  When the table lacks
    [total_amount], [customer_id] or [product_id] and cleaning does not
    raise, the main block ends at the basic statistics with a [KeyError]:
    no figure is saved, no sheet is written, the report is not reached. *)
Theorem X19_missing_column_ends_the_run (df : DataFrame)
    (Hclean : raised (SalesAnalyzer.clean_data df) = None)
    (Hmissing : get_col "total_amount" df = None \/ get_col "customer_id" df = None
                \/ get_col "product_id" df = None) :
  exists k,
    main df = {| table := frame (SalesAnalyzer.clean_data df);
                 drawn := []; written := [];
                 aborted := Some (Statistics, KeyError k);
                 reported := None |}.
Proof.
  assert (Hm : get_col "total_amount" (frame (SalesAnalyzer.clean_data df)) = None
               \/ get_col "customer_id" (frame (SalesAnalyzer.clean_data df)) = None
               \/ get_col "product_id" (frame (SalesAnalyzer.clean_data df)) = None).
  { destruct Hmissing as [H | [H | H]]; [left | right; left | right; right];
      now apply clean_keeps_absent. }
  destruct (stats_missing_column _ Hm) as [k Hk]. exists k.
  unfold main. now rewrite Hclean, Hk.
Qed.

Lemma X19_witness :
  exists k,
    main orders_without_customer
    = {| table := frame (SalesAnalyzer.clean_data orders_without_customer);
         drawn := []; written := [];
         aborted := Some (Statistics, KeyError k);
         reported := None |}.
Proof.
  apply X19_missing_column_ends_the_run.
  - vm_compute. reflexivity.
  - right. left. reflexivity.
Defined.

Lemma report_when_ok (df : DataFrame) (stats : list (string * pyval))
      (trend : list MonthRow) (cats : list CategoryRow) :
  SalesAnalyzer.calculate_basic_stats df = Ok stats ->
  snd (SalesAnalyzer.analyze_monthly_trends df) = Ok trend ->
  SalesAnalyzer.analyze_sales_by_category df = Ok cats ->
  SalesAnalyzer.generate_report df
  = (fst (SalesAnalyzer.analyze_monthly_trends df),
     [Summary stats]
       ++ SalesAnalyzer.sheet_unless_empty MonthlyTrends trend
       ++ SalesAnalyzer.sheet_unless_empty CategoryAnalysis cats
       ++ [SampleData (head 1000 (fst (SalesAnalyzer.analyze_monthly_trends df)))],
     true).
Proof.
  intros Hs Ht Hc. unfold SalesAnalyzer.generate_report.
  rewrite <- (rollup_after_trend df) in Hc. rewrite Hs.
  destruct (SalesAnalyzer.analyze_monthly_trends df) as [d m]. simpl in *.
  rewrite Ht, Hc. now rewrite <- !app_assoc.
Qed.

Lemma charts_when_ok (output_dir : string) (df : DataFrame)
      (trend : list MonthRow) (cats : list CategoryRow) (amount : Series) :
  snd (SalesAnalyzer.analyze_monthly_trends df) = Ok trend ->
  SalesAnalyzer.analyze_sales_by_category df = Ok cats ->
  get_col "total_amount" df = Some amount ->
  exists charts,
    SalesAnalyzerCharts.create_visualizations output_dir df
    = (fst (SalesAnalyzer.analyze_monthly_trends df),
       charts ++ [Histogram (in_dir output_dir "order_distribution.png")
                    (values amount) 30],
       Ok tt).
Proof.
  intros Ht Hc Ha. unfold SalesAnalyzerCharts.create_visualizations, getitem.
  rewrite <- (rollup_after_trend df) in Hc. rewrite <- (amount_after_trend df) in Ha.
  destruct (SalesAnalyzer.analyze_monthly_trends df) as [d m]. simpl in *.
  rewrite Ht, Hc, Ha. eexists. reflexivity.
Qed.

Lemma rect_clean (df : DataFrame) :
  rect df -> rect (frame (SalesAnalyzer.clean_data df)).
Proof.
  intros Hr. rewrite (proj1 (analyzer_clean_data_impute df)).
  now apply rect_impute, rect_drop_duplicates.
Qed.

(** X20.  A run that passes the analyses passes the rest.  On a
    rectangular table no table operation of the visualizations raises
    in the main block: once cleaning, statistics, rollup and trend are
    through, the charts are drawn, the histogram of the cleaned
    [total_amount] column last, the report hands over the summary first
    and the data sample last and returns [True], and the table is the
    cleaned one as the first monthly trend left it. *)
Theorem X20_run_completes_after_the_analyses (df : DataFrame) (Hrect : rect df) :
  (forall e, aborted (main df) <> Some (Visualizations, e))
  /\ (aborted (main df) = None ->
      let cleaned := frame (SalesAnalyzer.clean_data df) in
      let final := fst (SalesAnalyzer.analyze_monthly_trends cleaned) in
      table (main df) = final
      /\ reported (main df) = Some true
      /\ (exists amount charts,
            get_col "total_amount" cleaned = Some amount
            /\ drawn (main df)
               = charts ++ [Histogram (in_dir "output" "order_distribution.png")
                              (values amount) 30])
      /\ (exists stats sheets,
            SalesAnalyzer.calculate_basic_stats cleaned = Ok stats
            /\ written (main df)
               = Summary stats :: sheets ++ [SampleData (head 1000 final)])).
Proof.
  pose proof (rect_clean Hrect) as Hr1.
  unfold main.
  destruct (raised (SalesAnalyzer.clean_data df)) as [e |];
    [split; [discriminate | discriminate] |].
  set (df1 := frame (SalesAnalyzer.clean_data df)) in *.
  destruct (SalesAnalyzer.calculate_basic_stats df1) as [stats | e] eqn:Hs;
    [| split; [discriminate | discriminate]].
  destruct (SalesAnalyzer.analyze_sales_by_category df1) as [cats | e] eqn:Hc;
    [| split; [discriminate | discriminate]].
  destruct (SalesAnalyzer.analyze_monthly_trends df1) as [df2 monthly] eqn:Ht.
  destruct monthly as [trend | e]; [| split; [discriminate | discriminate]].
  assert (Hdf2 : df2 = fst (SalesAnalyzer.analyze_monthly_trends df1)) by (now rewrite Ht).
  assert (Ht2 : SalesAnalyzer.analyze_monthly_trends df2 = (df2, Ok trend)).
  { rewrite Hdf2 at 1. rewrite trend_again. exact Ht. }
  assert (Hc2 : SalesAnalyzer.analyze_sales_by_category df2 = Ok cats).
  { rewrite Hdf2, rollup_after_trend. exact Hc. }
  assert (Hs2 : SalesAnalyzer.calculate_basic_stats df2 = Ok stats).
  { rewrite Hdf2, stats_after_trend by assumption. exact Hs. }
  destruct (stats_shape _ Hs) as (amount & _ & _ & _ & Ha & _).
  assert (Ha2 : get_col "total_amount" df2 = Some amount).
  { rewrite Hdf2, amount_after_trend. exact Ha. }
  destruct (@charts_when_ok "output" df2 trend cats amount) as [charts Hcharts];
    [now rewrite Ht2 | assumption | assumption |].
  rewrite Hcharts, Ht2. simpl.
  rewrite (@report_when_ok df2 stats trend cats) by (try assumption; now rewrite Ht2).
  rewrite Ht2. simpl. split; [discriminate |]. intros _.
  split; [reflexivity |]. split; [reflexivity |]. split.
  - exists amount, charts. auto.
  - exists stats. eexists. split; [reflexivity |].
    rewrite app_assoc. reflexivity.
Qed.

Lemma X20_witness :
  aborted (main dated_orders) = None /\ reported (main dated_orders) = Some true.
Proof.
  assert (Hr : rect dated_orders) by (repeat constructor).
  assert (Ha : aborted (main dated_orders) = None) by (vm_compute; reflexivity).
  split; [exact Ha |].
  exact (proj1 (proj2 (proj2 (X20_run_completes_after_the_analyses Hr) Ha))).
Defined.

(* ================================================================== *)
(** ** Loading *)

(** Reading the file and parsing dates are pandas' work: [read_csv] and
    [to_datetime] are taken as given functions that return or raise. *)
Definition reader := string -> result DataFrame.
Definition date_parser := Series -> result Series.

(** [df['order_date'] = pd.to_datetime(df['order_date'])] when the column
    is there. *)
Definition parse_order_date (to_datetime : date_parser) (df : DataFrame)
  : result DataFrame :=
  match get_col "order_date" df with
  | None => Ok df
  | Some s => parsed <- to_datetime s ;; Ok (set_col "order_date" parsed df)
  end.

Module SalesAnalyzerLoad.

(** [SalesAnalyzer.load_data(self)]: what [self.df] holds afterwards.
    The frame is assigned before the dates are parsed, and the handler
    only prints. *)
Definition load_data (read_csv : reader) (to_datetime : date_parser) (data_path : string)
  : option DataFrame :=
  match read_csv data_path with
  | Raise _ => None
  | Ok df =>
      match parse_order_date to_datetime df with
      | Ok parsed => Some parsed
      | Raise _ => Some df
      end
  end.

End SalesAnalyzerLoad.

Module data_loader.

(** [load_data(path)] of data_loader.py: the frame returned, [None] after
    any exception. *)
Definition load_data (read_csv : reader) (to_datetime : date_parser) (path : string)
  : option DataFrame :=
  match read_csv path with
  | Raise _ => None
  | Ok df =>
      match parse_order_date to_datetime df with
      | Ok parsed => Some parsed
      | Raise _ => None
      end
  end.

End data_loader.

(** X21.  The two loaders after an error.  Whatever the standalone
    [load_data] returns, [SalesAnalyzer.load_data] holds too.  They differ
    exactly when the file is read and its [order_date] column fails to
    parse: the standalone loader then returns nothing, the analyzer keeps
    the table as read.  If that column holds text or numbers, as a column
    read from a file does, the monthly trend of the kept table raises
    [AttributeError] and leaves it unchanged; so do the basic statistics
    once their three columns are found, when the column holds numbers or
    text without a missing cell (with one, comparing text with the
    missing value fails first, in another way). *)
Theorem X21_loaders_after_a_date_error
    (read_csv : reader) (to_datetime : date_parser) (path : string) :
  (forall df, data_loader.load_data read_csv to_datetime path = Some df ->
     SalesAnalyzerLoad.load_data read_csv to_datetime path = Some df)
  /\ (forall df,
        SalesAnalyzerLoad.load_data read_csv to_datetime path = Some df ->
        data_loader.load_data read_csv to_datetime path = None ->
        read_csv path = Ok df
        /\ exists s e,
             get_col "order_date" df = Some s /\ to_datetime s = Raise e
             /\ (dt s = Object \/ dt s = Number ->
                 SalesAnalyzer.analyze_monthly_trends df = (df, Raise (AttributeError "dt"))
                 /\ (dt s = Number \/ null_count (values s) = 0 ->
                     get_col "total_amount" df <> None ->
                     get_col "customer_id" df <> None ->
                     get_col "product_id" df <> None ->
                     SalesAnalyzer.calculate_basic_stats df
                     = Raise (AttributeError "strftime"))))
  /\ (forall df s e,
        read_csv path = Ok df -> get_col "order_date" df = Some s ->
        to_datetime s = Raise e ->
        SalesAnalyzerLoad.load_data read_csv to_datetime path = Some df
        /\ data_loader.load_data read_csv to_datetime path = None).
Proof.
  apply and_assoc. split.
  2: { intros df s e Hr Hd Hp.
       unfold data_loader.load_data, SalesAnalyzerLoad.load_data, parse_order_date.
       rewrite Hr, Hd, Hp. split; reflexivity. }
  unfold data_loader.load_data, SalesAnalyzerLoad.load_data.
  destruct (read_csv path) as [raw | e]; [| split; intros df H; discriminate H].
  unfold parse_order_date.
  destruct (get_col "order_date" raw) as [s |] eqn:Hd; simpl;
    [| split; [auto | intros df _ H; discriminate H]].
  destruct (to_datetime s) as [parsed | e] eqn:Hp; simpl;
    [split; [auto | intros df _ H; discriminate H] |].
  split; [intros df H; discriminate H |]. intros df [= <-] _. split; [reflexivity |].
  exists s, e. split; [assumption |]. split; [exact Hp |]. intros Hdt. split.
  - unfold SalesAnalyzer.analyze_monthly_trends. rewrite Hd.
    destruct Hdt as [D | D]; rewrite D; reflexivity.
  - unfold SalesAnalyzer.calculate_basic_stats, getitem.
    destruct (get_col "total_amount" raw); [| congruence].
    destruct (get_col "customer_id" raw); [| congruence].
    destruct (get_col "product_id" raw); [| congruence].
    intros _ _ _ _. simpl. rewrite Hd. unfold strftime.
    destruct Hdt as [D | D]; rewrite D; reflexivity.
Qed.

(** A file whose dates are not dates. *)
Definition unparsed_orders : DataFrame :=
  [ ("order_id", column Number [num 1]);
    ("order_date", column Object [Str "soon"]);
    ("total_amount", column Number [num 10]) ].

Lemma X21_witness :
  SalesAnalyzerLoad.load_data
    (fun _ => Ok unparsed_orders) (fun _ => Raise (ValueError "Unknown datetime string format"))
    "data/sales_data.csv" = Some unparsed_orders
  /\ data_loader.load_data
       (fun _ => Ok unparsed_orders) (fun _ => Raise (ValueError "Unknown datetime string format"))
       "data/sales_data.csv" = None
  /\ SalesAnalyzer.analyze_monthly_trends unparsed_orders
     = (unparsed_orders, Raise (AttributeError "dt")).
Proof.
  split; [reflexivity |]. split; [reflexivity |].
  destruct (proj1 (proj2 (X21_loaders_after_a_date_error
                            (fun _ => Ok unparsed_orders)
                            (fun _ => Raise (ValueError "Unknown datetime string format"))
                            "data/sales_data.csv"))
                  unparsed_orders eq_refl eq_refl)
    as [_ [s [e [Hs [_ Hdt]]]]].
  apply Hdt. left. simpl in Hs. injection Hs as <-. reflexivity.
Defined.
